(** * The memory-mapped statistics file backend (libstat/backends/mmaped_file.c)

    A shallow embedding of the statfile engine: the on-disk layout, the
    block table (bounded linear probing with value-minimum eviction), the
    section walk, the pool of open handles and the reindex procedure.

    Conventions.
    - Integer widths and struct layout are those of the LP64 ABI of the
      platforms the backend runs on: [guint] and [guint32] are 32 bits;
      [guint64], [size_t], [off_t], [long], [time_t] and pointers are 64 bits;
      members are aligned to their size.
    - A mapping is a byte-addressed store; multi-byte fields are host-endian
      (little-endian here).  A [double] is kept as its 64-bit pattern and is
      decoded to an IEEE 754 value only where the code compares it.
    - An access outside the mapping, or a division by zero, is [Fault]. *)

From Stdlib Require Import ZArith List Bool Lia String.
From Stdlib Require Import Floats.SpecFloat.
Import ListNotations.
Local Open Scope Z_scope.

(** ** Machine integers *)

Definition guint (x : Z) : Z := x mod 2 ^ 32.
Definition guint64 (x : Z) : Z := x mod 2 ^ 64.

(** Conversion to a signed 64-bit integer ([long], [off_t]). *)
Definition to_long (x : Z) : Z :=
  let y := x mod 2 ^ 64 in if y <? 2 ^ 63 then y else y - 2 ^ 64.

(** [labs] on a [long]. *)
Definition labs (x : Z) : Z := to_long (Z.abs x).

(** ** Struct layout *)

Module Layout.

Record ctype := { csize : Z; calign : Z }.

Definition u_char : ctype := {| csize := 1; calign := 1 |}.
Definition guint32_t : ctype := {| csize := 4; calign := 4 |}.
Definition guint64_t : ctype := {| csize := 8; calign := 8 |}.
Definition double_t : ctype := {| csize := 8; calign := 8 |}.
Definition pointer_t : ctype := {| csize := 8; calign := 8 |}.

Definition carray (t : ctype) (n : Z) : ctype :=
  {| csize := csize t * n; calign := calign t |}.

Definition align_up (off a : Z) : Z := (off + a - 1) / a * a.

(** Members are placed in declaration order, each at the next offset that
    is a multiple of its alignment. *)
Fixpoint place (fields : list (string * ctype)) (off : Z)
  : list (string * Z) * Z :=
  match fields with
  | [] => ([], off)
  | (name, t) :: rest =>
      let o := align_up off (calign t) in
      let '(l, e) := place rest (o + csize t) in
      ((name, o) :: l, e)
  end.

Definition struct_align (fields : list (string * ctype)) : Z :=
  fold_right (fun f a => Z.max (calign (snd f)) a) 1 fields.

Definition struct_size (fields : list (string * ctype)) : Z :=
  align_up (snd (place fields 0)) (struct_align fields).

Definition cstruct (fields : list (string * ctype)) : ctype :=
  {| csize := struct_size fields; calign := struct_align fields |}.

Fixpoint lookup (name : string) (l : list (string * Z)) : Z :=
  match l with
  | [] => 0
  | (n, o) :: rest => if String.eqb n name then o else lookup name rest
  end.

Definition offsetof (fields : list (string * ctype)) (name : string) : Z :=
  lookup name (fst (place fields 0)).

(** struct stat_file_header *)
Definition stat_file_header : list (string * ctype) :=
  [ ("magic", carray u_char 3);
    ("version", carray u_char 2);
    ("padding", carray u_char 3);
    ("create_time", guint64_t);
    ("revision", guint64_t);
    ("rev_time", guint64_t);
    ("used_blocks", guint64_t);
    ("total_blocks", guint64_t);
    ("unused", carray u_char 239) ]%string.

(** struct stat_file_section *)
Definition stat_file_section : list (string * ctype) :=
  [ ("code", guint64_t); ("length", guint64_t) ]%string.

(** struct stat_file_block *)
Definition stat_file_block : list (string * ctype) :=
  [ ("hash1", guint32_t); ("hash2", guint32_t); ("value", double_t) ]%string.

(** struct stat_file *)
Definition stat_file : list (string * ctype) :=
  [ ("header", cstruct stat_file_header);
    ("section", cstruct stat_file_section);
    ("blocks", carray (cstruct stat_file_block) 1) ]%string.

(** struct stat_file_header where the 64-bit members are aligned to [a]
    bytes: 8 on LP64, 4 on 32-bit x86, 1 when packed. *)
Definition stat_file_header_aligned (a : Z) : list (string * ctype) :=
  let guint64_a := {| csize := 8; calign := a |} in
  [ ("magic", carray u_char 3);
    ("version", carray u_char 2);
    ("padding", carray u_char 3);
    ("create_time", guint64_a);
    ("revision", guint64_a);
    ("rev_time", guint64_a);
    ("used_blocks", guint64_a);
    ("total_blocks", guint64_a);
    ("unused", carray u_char 239) ]%string.

End Layout.

Definition sizeof_header : Z :=
  Eval vm_compute in Layout.struct_size Layout.stat_file_header.
Definition sizeof_section : Z :=
  Eval vm_compute in Layout.struct_size Layout.stat_file_section.
Definition sizeof_block : Z :=
  Eval vm_compute in Layout.struct_size Layout.stat_file_block.
Definition sizeof_stat_file : Z :=
  Eval vm_compute in Layout.struct_size Layout.stat_file.
(** [sizeof (block)] where [block] is declared [struct stat_file_block *]. *)
Definition sizeof_block_ptr : Z :=
  Eval vm_compute in Layout.csize Layout.pointer_t.

Definition off_magic : Z :=
  Eval vm_compute in Layout.offsetof Layout.stat_file_header "magic".
Definition off_version : Z :=
  Eval vm_compute in Layout.offsetof Layout.stat_file_header "version".
Definition off_create_time : Z :=
  Eval vm_compute in Layout.offsetof Layout.stat_file_header "create_time".
Definition off_revision : Z :=
  Eval vm_compute in Layout.offsetof Layout.stat_file_header "revision".
Definition off_rev_time : Z :=
  Eval vm_compute in Layout.offsetof Layout.stat_file_header "rev_time".
Definition off_used_blocks : Z :=
  Eval vm_compute in Layout.offsetof Layout.stat_file_header "used_blocks".
Definition off_total_blocks : Z :=
  Eval vm_compute in Layout.offsetof Layout.stat_file_header "total_blocks".
Definition off_code : Z :=
  Eval vm_compute in Layout.offsetof Layout.stat_file_section "code".
Definition off_length : Z :=
  Eval vm_compute in Layout.offsetof Layout.stat_file_section "length".
Definition off_hash1 : Z :=
  Eval vm_compute in Layout.offsetof Layout.stat_file_block "hash1".
Definition off_hash2 : Z :=
  Eval vm_compute in Layout.offsetof Layout.stat_file_block "hash2".
Definition off_value : Z :=
  Eval vm_compute in Layout.offsetof Layout.stat_file_block "value".
(** offsetof (struct stat_file, section) *)
Definition off_section : Z :=
  Eval vm_compute in Layout.offsetof Layout.stat_file "section".

Definition CHAIN_LENGTH : nat := 128.
Definition STATFILE_SECTION_COMMON : Z := 1.
Definition STATFILES_MAX : Z := 255.
Definition BACKUP_SUFFIX : string := ".old".

(** ** Doubles *)

(** The IEEE 754 binary64 value of a 64-bit pattern. *)
Definition double_of_bits (b : Z) : spec_float :=
  let s := Z.testbit b 63 in
  let e := (b / 2 ^ 52) mod 2 ^ 11 in
  let m := b mod 2 ^ 52 in
  if e =? 0 then
    if m =? 0 then S754_zero s else S754_finite s (Z.to_pos m) (-1074)
  else if e =? 2047 then
    if m =? 0 then S754_infinity s else S754_nan
  else S754_finite s (Z.to_pos (m + 2 ^ 52)) (e - 1075).

(** [DBL_MAX], the largest finite double. *)
Definition G_MAXDOUBLE : Z := 0x7FEFFFFFFFFFFFFF.

(** C's [a < b] and [a != b] on doubles given by their bit patterns. *)
Definition double_lt (a b : Z) : bool :=
  SFltb (double_of_bits a) (double_of_bits b).
Definition double_ne (a b : Z) : bool :=
  negb (SFeqb (double_of_bits a) (double_of_bits b)).

(** ** Results and the state monad *)

Inductive result (A : Type) : Type :=
| Ok (a : A)
| Fault.
Arguments Ok {A} a.
Arguments Fault {A}.

Definition ST (S A : Type) : Type := S -> result (A * S).

Definition ret {S A : Type} (a : A) : ST S A := fun s => Ok (a, s).

Definition bind {S A B : Type} (c : ST S A) (k : A -> ST S B) : ST S B :=
  fun s => match c s with
           | Ok (a, s') => k a s'
           | Fault => Fault
           end.

Declare Scope st_scope.
Delimit Scope st_scope with st.
Notation "x <- c ;; k" := (bind c (fun x => k))
  (at level 61, c at next level, right associativity) : st_scope.
Notation "c ;;; k" := (bind c (fun _ => k))
  (at level 61, right associativity) : st_scope.
Local Open Scope st_scope.

(** ** Mappings *)

(** A mapped region of [extent] bytes.  [probed] is ghost state: the offsets
    of the blocks the chain loops have inspected, most recent first. *)
Record mapping := {
  cells : Z -> Z;
  extent : Z;
  probed : list Z
}.

Definition upd (f : Z -> Z) (a v : Z) : Z -> Z :=
  fun x => if x =? a then v else f x.

Fixpoint load_le (n : nat) (f : Z -> Z) (a : Z) : Z :=
  match n with
  | O => 0
  | S k => f a mod 256 + 256 * load_le k f (a + 1)
  end.

Fixpoint store_le (n : nat) (f : Z -> Z) (a v : Z) : Z -> Z :=
  match n with
  | O => f
  | S k => store_le k (upd f a (v mod 256)) (a + 1) (v / 256)
  end.

Definition in_bounds (m : mapping) (a : Z) (n : nat) : bool :=
  (0 <=? a) && (a + Z.of_nat n <=? extent m).

Definition load (n : nat) (a : Z) : ST mapping Z :=
  fun m => if in_bounds m a n then Ok (load_le n (cells m) a, m) else Fault.

Definition store (n : nat) (a v : Z) : ST mapping unit :=
  fun m => if in_bounds m a n
           then Ok (tt, {| cells := store_le n (cells m) a v;
                           extent := extent m;
                           probed := probed m |})
           else Fault.

(** Ghost: record that the block at offset [c] is inspected. *)
Definition probe (c : Z) : ST mapping unit :=
  fun m => Ok (tt, {| cells := cells m; extent := extent m;
                      probed := c :: probed m |}).

Definition load_u32 := load 4.
Definition load_u64 := load 8.
Definition store_u32 := store 4.
Definition store_u64 := store 8.

(** ** Handles *)

Record stat_file_section := {
  code : Z;
  length : Z
}.

(** rspamd_mmaped_file_t; [map = None] is a NULL mapping.  The mutex is not
    modelled. *)
Record rspamd_mmaped_file_t := {
  filename : string;
  fd : Z;
  map : option mapping;
  seek_pos : Z;
  cur_section : stat_file_section;
  open_time : Z;
  access_time : Z;
  len : Z
}.

Definition set_access_time (file : rspamd_mmaped_file_t) (t : Z) :=
  {| filename := filename file; fd := fd file; map := map file;
     seek_pos := seek_pos file; cur_section := cur_section file;
     open_time := open_time file; access_time := t; len := len file |}.

Definition set_map (file : rspamd_mmaped_file_t) (m : option mapping) :=
  {| filename := filename file; fd := fd file; map := m;
     seek_pos := seek_pos file; cur_section := cur_section file;
     open_time := open_time file; access_time := access_time file;
     len := len file |}.

(** ** The block table *)

(** [block->hash1 == h1 && block->hash2 == h2] for the block at offset [c]. *)
Definition key_is (c h1 h2 : Z) : ST mapping bool :=
  x <- load_u32 (c + off_hash1) ;;
  if x =? h1 then
    y <- load_u32 (c + off_hash2) ;;
    ret (y =? h2)
  else ret false.

(** The loop of statfile_pool_get_block, [n] iterations left, at index [i]
    with [c] pointing to the block of slot [blocknum + i]. *)
Fixpoint get_chain (n : nat) (sect_len blocknum h1 h2 : Z) (i c : Z)
  : ST mapping Z :=
  match n with
  | O => ret 0
  | S n' =>
      if guint (i + blocknum) >=? sect_len then ret 0
      else
        probe c ;;;
        hit <- key_is c h1 h2 ;;
        if hit then load_u64 (c + off_value)
        else get_chain n' sect_len blocknum h1 h2 (i + 1) (c + sizeof_block)
  end.

(** statfile_pool_get_block: the value (bit pattern of the double) and the
    handle, whose access time is updated. *)
Definition statfile_pool_get_block (file : rspamd_mmaped_file_t)
  (h1 h2 now : Z) : result (Z * rspamd_mmaped_file_t) :=
  let file := set_access_time file now in
  match map file with
  | None => Ok (0, file)
  | Some m =>
      if length (cur_section file) =? 0 then Fault
      else
        let blocknum := guint (h1 mod length (cur_section file)) in
        let c := seek_pos file + blocknum * sizeof_block in
        match get_chain CHAIN_LENGTH (length (cur_section file)) blocknum
                h1 h2 0 c m with
        | Ok (v, m') => Ok (v, set_map file (Some m'))
        | Fault => Fault
        end
  end.

(** How the loop of statfile_pool_set_block_common ends: by one of its two
    [return]s, or by falling out with the candidate to expire. *)
Inductive chain_exit :=
| Returned
| Expire (to_expire : option Z).

Fixpoint set_chain (n : nat) (sect_len blocknum h1 h2 value : Z) (i c : Z)
  (to_expire : option Z) (min : Z) : ST mapping chain_exit :=
  match n with
  | O => ret (Expire to_expire)
  | S n' =>
      if guint (i + blocknum) >=? sect_len then ret (Expire to_expire)
      else
        probe c ;;;
        hit <- key_is c h1 h2 ;;
        if hit then
          store_u64 (c + off_value) value ;;;
          ret Returned
        else
          free <- key_is c 0 0 ;;
          if free then
            store_u32 (c + off_hash1) h1 ;;;
            store_u32 (c + off_hash2) h2 ;;;
            store_u64 (c + off_value) value ;;;
            used <- load_u64 off_used_blocks ;;
            store_u64 off_used_blocks (guint64 (used + 1)) ;;;
            ret Returned
          else
            v <- load_u64 (c + off_value) ;;
            if double_lt v min then
              set_chain n' sect_len blocknum h1 h2 value (i + 1)
                (c + sizeof_block) (Some c) v
            else
              set_chain n' sect_len blocknum h1 h2 value (i + 1)
                (c + sizeof_block) to_expire min
  end.

Definition write_block (c h1 h2 value : Z) : ST mapping unit :=
  store_u32 (c + off_hash1) h1 ;;;
  store_u32 (c + off_hash2) h2 ;;;
  store_u64 (c + off_value) value.

Definition set_block_body (sect_len seekpos h1 h2 value : Z)
  : ST mapping unit :=
  let blocknum := guint (h1 mod sect_len) in
  let c := seekpos + blocknum * sizeof_block in
  e <- set_chain CHAIN_LENGTH sect_len blocknum h1 h2 value 0 c None
         G_MAXDOUBLE ;;
  match e with
  | Returned => ret tt
  | Expire to_expire =>
      let block := match to_expire with
                   | Some b => b
                   | None => seekpos + blocknum * sizeof_block
                   end in
      write_block block h1 h2 value
  end.

(** statfile_pool_set_block_common *)
Definition statfile_pool_set_block_common (file : rspamd_mmaped_file_t)
  (h1 h2 t value : Z) (from_now : bool) : result rspamd_mmaped_file_t :=
  let file := if from_now then set_access_time file t else file in
  match map file with
  | None => Ok file
  | Some m =>
      if length (cur_section file) =? 0 then Fault
      else
        match set_block_body (length (cur_section file)) (seek_pos file)
                h1 h2 value m with
        | Ok (_, m') => Ok (set_map file (Some m'))
        | Fault => Fault
        end
  end.

(** statfile_pool_set_block *)
Definition statfile_pool_set_block (file : rspamd_mmaped_file_t)
  (h1 h2 now value : Z) : result rspamd_mmaped_file_t :=
  statfile_pool_set_block_common file h1 h2 now value true.

(** ** Header fields: revision and capacity *)

(** statfile_set_revision; [None] is a NULL handle. *)
Definition statfile_set_revision (file : option rspamd_mmaped_file_t)
  (rev time : Z) : result (bool * option rspamd_mmaped_file_t) :=
  match file with
  | None => Ok (false, None)
  | Some f =>
      match map f with
      | None => Ok (false, file)
      | Some m =>
          match (store_u64 off_revision rev ;;;
                 store_u64 off_rev_time (guint64 time)) m with
          | Ok (_, m') => Ok (true, Some (set_map f (Some m')))
          | Fault => Fault
          end
      end
  end.

(** statfile_get_revision with both out-parameters given: the pair
    [(revision, rev_time)], the latter as a [time_t]. *)
Definition statfile_get_revision (file : option rspamd_mmaped_file_t)
  : result (option (Z * Z)) :=
  match file with
  | None => Ok None
  | Some f =>
      match map f with
      | None => Ok None
      | Some m =>
          match (rev <- load_u64 off_revision ;;
                 time <- load_u64 off_rev_time ;;
                 ret (rev, to_long time)) m with
          | Ok (r, _) => Ok (Some r)
          | Fault => Fault
          end
      end
  end.

(** statfile_get_total_blocks *)
Definition statfile_get_total_blocks (file : option rspamd_mmaped_file_t)
  : result (Z * option rspamd_mmaped_file_t) :=
  match file with
  | None => Ok (guint64 (-1), None)
  | Some f =>
      match map f with
      | None => Ok (guint64 (-1), file)
      | Some m =>
          match (total <- load_u64 off_total_blocks ;;
                 if total =? 0 then
                   store_u64 off_total_blocks (length (cur_section f)) ;;;
                   load_u64 off_total_blocks
                 else load_u64 off_total_blocks) m with
          | Ok (r, m') => Ok (r, Some (set_map f (Some m')))
          | Fault => Fault
          end
      end
  end.

(** ** Sections *)

Definition set_cursor (file : rspamd_mmaped_file_t) (sec : stat_file_section)
  (pos : Z) : rspamd_mmaped_file_t :=
  {| filename := filename file; fd := fd file; map := map file;
     seek_pos := pos; cur_section := sec;
     open_time := open_time file; access_time := access_time file;
     len := len file |}.

(** How the loop of statfile_pool_set_section stands after some iterations. *)
Inductive walk :=
| Found (cur_offset sect_length : Z)
| NotFound
| Walking.

(** The loop of statfile_pool_set_section, cut after [fuel] iterations: the
    loop has no bound of its own. *)
Fixpoint section_walk (fuel : nat) (code file_len cur_offset : Z)
  : ST mapping walk :=
  match fuel with
  | O => ret Walking
  | S fuel' =>
      if cur_offset <? to_long file_len then
        sec_code <- load_u64 (cur_offset + off_code) ;;
        if sec_code =? code then
          sec_length <- load_u64 (cur_offset + off_length) ;;
          ret (Found cur_offset sec_length)
        else
          sec_length <- load_u64 (cur_offset + off_length) ;;
          section_walk fuel' code file_len (to_long (cur_offset + sec_length))
      else ret NotFound
  end.

(** statfile_pool_set_section: [None] while the walk has not ended within
    [fuel] iterations. *)
Definition statfile_pool_set_section (fuel : nat)
  (file : rspamd_mmaped_file_t) (code : Z) (from_begin : bool)
  : result (option (bool * rspamd_mmaped_file_t)) :=
  let cur_offset := if from_begin then sizeof_header
                    else to_long (seek_pos file - sizeof_section) in
  match map file with
  | None => Fault
  | Some m =>
      match section_walk fuel code (len file) cur_offset m with
      | Ok (Found off l, _) =>
          Ok (Some (true, set_cursor file {| code := code; length := l |}
                            (to_long (off + sizeof_section))))
      | Ok (NotFound, _) => Ok (Some (false, file))
      | Ok (Walking, _) => Ok None
      | Fault => Fault
      end
  end.

(** ** The pool and its environment *)

(** rspamd_mmaped_file_ctx: the array of handles, of which the first [opened]
    are in use.  A handle pointer is an index into [files]. *)
Record rspamd_mmaped_file_ctx := {
  files : list rspamd_mmaped_file_t;
  opened : Z;
  mlock_ok : bool
}.

Record disk_file := {
  contents : Z -> Z;
  fsize : Z
}.

(** The diagnostics of the pool-level functions. *)
Inductive message :=
| file_too_short
| invalid_stat_file
| invalid_version
| file_truncated
| too_small_to_carry (size : Z)
| cannot_rename
| cannot_create_new_file
| cannot_open_file
| cannot_mmap_file
| reached_limit (limit : Z)
| cannot_stat
| need_to_reindex (old_size new_size : Z)
| shrink_too_small (size : Z)
| cannot_open
| cannot_mmap
| mlock_failed
| already_opened
| cannot_create
| cannot_write.

(** The pool together with what the system calls act on: the files on disk,
    the clock read by [time], the next free descriptor, whether [mlock] is
    permitted, and the log written by the msg_ functions (latest first).
    System calls fail only for the reasons this state can express: a missing
    file, an empty mapping, a forbidden [mlock].  A mapping is held by value
    in its handle; writing it back to [disk] is not modelled. *)
Record system := {
  pool : rspamd_mmaped_file_ctx;
  disk : string -> option disk_file;
  clock : Z;
  next_fd : Z;
  mlock_allowed : bool;
  log : list message
}.

Definition with_pool (s : system) (p : rspamd_mmaped_file_ctx) : system :=
  {| pool := p; disk := disk s; clock := clock s; next_fd := next_fd s;
     mlock_allowed := mlock_allowed s; log := log s |}.

Definition with_disk (s : system) (d : string -> option disk_file) : system :=
  {| pool := pool s; disk := d; clock := clock s; next_fd := next_fd s;
     mlock_allowed := mlock_allowed s; log := log s |}.

Definition msg (e : message) : ST system unit :=
  fun s => Ok (tt, {| pool := pool s; disk := disk s; clock := clock s;
                      next_fd := next_fd s; mlock_allowed := mlock_allowed s;
                      log := e :: log s |}).

Definition time : ST system Z := fun s => Ok (clock s, s).

(** *** System calls *)

Definition sys_stat (path : string) : ST system (option Z) :=
  fun s => Ok (option_map fsize (disk s path), s).

(** open (path, O_RDWR) and open (path, O_RDONLY) *)
Definition sys_open (path : string) : ST system (option Z) :=
  fun s => match disk s path with
           | Some _ =>
               Ok (Some (next_fd s),
                   {| pool := pool s; disk := disk s; clock := clock s;
                      next_fd := next_fd s + 1;
                      mlock_allowed := mlock_allowed s; log := log s |})
           | None => Ok (None, s)
           end.

(** mmap (NULL, length, ..., MAP_SHARED, fd, 0) of the file at [path]. *)
Definition sys_mmap (path : string) (length : Z) : ST system (option mapping) :=
  fun s => match disk s path with
           | Some df =>
               if length <=? 0 then Ok (None, s)
               else Ok (Some {| cells := contents df; extent := length;
                                probed := [] |}, s)
           | None => Ok (None, s)
           end.

Definition sys_rename (old new : string) : ST system bool :=
  fun s => match disk s old with
           | Some df =>
               Ok (true,
                   with_disk s (fun p => if String.eqb p new then Some df
                                         else if String.eqb p old then None
                                         else disk s p))
           | None => Ok (false, s)
           end.

Definition sys_unlink (path : string) : ST system unit :=
  fun s => Ok (tt, with_disk s (fun p => if String.eqb p path then None
                                         else disk s p)).

(** open (path, O_RDWR | O_TRUNC | O_CREAT, ...) *)
Definition sys_creat (path : string) : ST system unit :=
  fun s => Ok (tt, with_disk s
                     (fun p => if String.eqb p path
                               then Some {| contents := fun _ => 0;
                                            fsize := 0 |}
                               else disk s p)).

(** write (fd, buf, n) at file offset [pos] of the file at [path]. *)
Definition file_write (df : disk_file) (pos n : Z) (buf : Z -> Z) : disk_file :=
  {| contents := fun x => if (pos <=? x) && (x <? pos + n)
                          then buf (x - pos) else contents df x;
     fsize := Z.max (fsize df) (pos + n) |}.

Definition sys_write (path : string) (pos n : Z) (buf : Z -> Z)
  : ST system bool :=
  fun s => match disk s path with
           | Some df =>
               Ok (true,
                   with_disk s (fun p => if String.eqb p path
                                         then Some (file_write df pos n buf)
                                         else disk s p))
           | None => Ok (false, s)
           end.

(** Modelled from the spec: rspamd_fallocate is not part of this file; it
    preallocates the byte range and leaves the contents alone. *)
Definition rspamd_fallocate (path : string) (offset length : Z)
  : ST system unit :=
  fun s => match disk s path with
           | Some df =>
               Ok (tt,
                   with_disk s
                     (fun p => if String.eqb p path
                               then Some {| contents := contents df;
                                            fsize := Z.max (fsize df)
                                                       (offset + length) |}
                               else disk s p))
           | None => Ok (tt, s)
           end.

(** *** The handle array *)

Fixpoint list_set {A : Type} (l : list A) (i : nat) (x : A) : list A :=
  match l, i with
  | [], _ => []
  | _ :: l', O => x :: l'
  | y :: l', S i' => y :: list_set l' i' x
  end.

Definition get_file (idx : nat) : ST system rspamd_mmaped_file_t :=
  fun s => match nth_error (files (pool s)) idx with
           | Some f => Ok (f, s)
           | None => Fault
           end.

Definition set_file (idx : nat) (f : rspamd_mmaped_file_t) : ST system unit :=
  fun s => if (idx <? List.length (files (pool s)))%nat
           then Ok (tt, with_pool s {| files := list_set (files (pool s)) idx f;
                                       opened := opened (pool s);
                                       mlock_ok := mlock_ok (pool s) |})
           else Fault.

Definition set_opened (n : Z) : ST system unit :=
  fun s => Ok (tt, with_pool s {| files := files (pool s); opened := n;
                                  mlock_ok := mlock_ok (pool s) |}).

Definition set_mlock_ok (b : bool) : ST system unit :=
  fun s => Ok (tt, with_pool s {| files := files (pool s);
                                  opened := opened (pool s);
                                  mlock_ok := b |}).

Definition get_pool : ST system rspamd_mmaped_file_ctx :=
  fun s => Ok (pool s, s).

(** Modelled from the spec: cmpstatfile is not part of this file; handles
    are keyed by path. *)
Definition cmpstatfile (name : string) (f : rspamd_mmaped_file_t) : bool :=
  String.eqb name (filename f).

(** lfind over the first [n] cells. *)
Fixpoint lfind (name : string) (l : list rspamd_mmaped_file_t) (n i : nat)
  : option nat :=
  match n, l with
  | S n', f :: l' =>
      if cmpstatfile name f then Some i else lfind name l' n' (S i)
  | _, _ => None
  end.

(** statfile_pool_is_open *)
Definition statfile_pool_is_open (p : rspamd_mmaped_file_ctx)
  (filename : string) : option nat :=
  lfind filename (files p) (Z.to_nat (opened p)) 0.

(** *** Creation *)

(** The bytes of the header that statfile_pool_create writes. *)
Definition header_bytes (nblocks create_time : Z) : Z -> Z :=
  store_le 8 (store_le 8 (store_le 8 (store_le 8 (store_le 8
    (store_le 1 (store_le 1 (store_le 1 (store_le 1 (store_le 1
      (fun _ => 0)
      off_magic 114) (off_magic + 1) 115) (off_magic + 2) 100)
      off_version 49) (off_version + 1) 50)
    off_total_blocks nblocks) off_used_blocks 0) off_rev_time 0)
    off_revision 0) off_create_time create_time.

Definition section_bytes (sect_code sect_length : Z) : Z -> Z :=
  store_le 8 (store_le 8 (fun _ => 0) off_code sect_code)
    off_length sect_length.

(** The block-writing loop of statfile_pool_create: 256 blocks at once while
    more than 256 remain, then one by one.  Returns the file offset reached. *)
Fixpoint write_blocks (fuel : nat) (path : string) (nblocks pos : Z)
  : ST system bool :=
  match fuel with
  | O => fun _ => Fault
  | S fuel' =>
      if nblocks =? 0 then ret true
      else if nblocks >? 256 then
        ok <- sys_write path pos (sizeof_block * 256) (fun _ => 0) ;;
        if ok then write_blocks fuel' path (guint (nblocks - 256))
                     (pos + sizeof_block * 256)
        else ret false
      else
        ok <- sys_write path pos sizeof_block (fun _ => 0) ;;
        if ok then write_blocks fuel' path (guint (nblocks - 1))
                     (pos + sizeof_block)
        else ret false
  end.

(** statfile_pool_create *)
Definition statfile_pool_create (filename : string) (size : Z)
  : ST system Z :=
  p <- get_pool ;;
  match statfile_pool_is_open p filename with
  | Some _ => msg already_opened ;;; ret 0
  | None =>
      if size <? sizeof_header + sizeof_section + sizeof_block then
        msg (too_small_to_carry size) ;;; ret (-1)
      else
        let nblocks :=
          guint ((size - sizeof_header - sizeof_section) / sizeof_block) in
        sys_creat filename ;;;
        rspamd_fallocate filename 0
          (sizeof_header + sizeof_section + sizeof_block * nblocks) ;;;
        now <- time ;;
        ok <- sys_write filename 0 sizeof_header (header_bytes nblocks now) ;;
        if negb ok then msg cannot_write ;;; ret (-1)
        else
          ok <- sys_write filename sizeof_header sizeof_section
                  (section_bytes STATFILE_SECTION_COMMON nblocks) ;;
          if negb ok then msg cannot_write ;;; ret (-1)
          else
            ok <- write_blocks (S (Z.to_nat nblocks)) filename nblocks
                    (sizeof_header + sizeof_section) ;;
            if negb ok then msg cannot_write ;;; ret (-1)
            else ret 0
  end.

(** *** Validation *)

Definition set_len_name_map (file : rspamd_mmaped_file_t) (name : string)
  (m : option mapping) (l : Z) : rspamd_mmaped_file_t :=
  {| filename := name; fd := fd file; map := m;
     seek_pos := seek_pos file; cur_section := cur_section file;
     open_time := open_time file; access_time := access_time file;
     len := l |}.

Definition set_fd (file : rspamd_mmaped_file_t) (d : Z) : rspamd_mmaped_file_t :=
  {| filename := filename file; fd := d; map := map file;
     seek_pos := seek_pos file; cur_section := cur_section file;
     open_time := open_time file; access_time := access_time file;
     len := len file |}.

Definition set_times (file : rspamd_mmaped_file_t) (t : Z) : rspamd_mmaped_file_t :=
  {| filename := filename file; fd := fd file; map := map file;
     seek_pos := seek_pos file; cur_section := cur_section file;
     open_time := t; access_time := t; len := len file |}.

(** A handle after bzero. *)
Definition zero_file : rspamd_mmaped_file_t :=
  {| filename := ""; fd := 0; map := None; seek_pos := 0;
     cur_section := {| code := 0; length := 0 |};
     open_time := 0; access_time := 0; len := 0 |}.

(** Run a computation on a mapping for its value. *)
Definition peek {A : Type} (m : mapping) (c : ST mapping A) : ST system A :=
  fun s => match c m with
           | Ok (a, _) => Ok (a, s)
           | Fault => Fault
           end.

Section Backend.

(** convert_statfile_10 is not part of this file: the legacy migrator, which
    rewrites the handle it is given or fails. *)
Variable convert_statfile_10 :
  rspamd_mmaped_file_t -> option rspamd_mmaped_file_t.

(** The magic and version test of rspamd_mmaped_file_check: whether the
    mapping is of the legacy version, of the valid one, or (with its
    diagnostic) of neither. *)
Inductive signature := Legacy | Current | Bad (e : message).

Definition read_signature : ST mapping signature :=
  c0 <- load 1 off_magic ;;
  if negb (c0 =? 114) then ret (Bad invalid_stat_file) else
  c1 <- load 1 (off_magic + 1) ;;
  if negb (c1 =? 115) then ret (Bad invalid_stat_file) else
  c2 <- load 1 (off_magic + 2) ;;
  if negb (c2 =? 100) then ret (Bad invalid_stat_file) else
  v0 <- load 1 off_version ;;
  v1 <- load 1 (off_version + 1) ;;
  if (v0 =? 1) && (v1 =? 0) then ret Legacy
  else if (v0 =? 49) && (v1 =? 50) then ret Current
  else ret (Bad invalid_version).

(** The last part of rspamd_mmaped_file_check: the first section becomes the
    current one. *)
Definition check_section (idx : nat) : ST system Z :=
  file <- get_file idx ;;
  match map file with
  | None => fun _ => Fault
  | Some m =>
      sec_code <- peek m (load_u64 (off_section + off_code)) ;;
      sec_length <- peek m (load_u64 (off_section + off_length)) ;;
      let file := set_cursor file {| code := sec_code; length := sec_length |}
                    (seek_pos file) in
      set_file idx file ;;;
      if guint64 (sec_length * sizeof_block) >? len file then
        msg file_truncated ;;; ret (-1)
      else
        set_file idx (set_cursor file (cur_section file)
                        (sizeof_stat_file - sizeof_block)) ;;;
        ret 0
  end.

(** rspamd_mmaped_file_check on the handle in cell [idx]. *)
Definition rspamd_mmaped_file_check (idx : nat) : ST system Z :=
  file <- get_file idx ;;
  match map file with
  | None => ret (-1)
  | Some m =>
      if len file <? sizeof_stat_file then
        msg file_too_short ;;; ret (-1)
      else
        sig <- peek m read_signature ;;
        match sig with
        | Bad e => msg e ;;; ret (-1)
        | Legacy =>
            match convert_statfile_10 file with
            | None => ret (-1)
            | Some file' => set_file idx file' ;;; check_section idx
            end
        | Current => check_section idx
        end
  end.

(** *** Opening *)

(** The part of statfile_pool_open after the reindex test: take the next
    cell, open and map the file, validate it. *)
Definition open_mapped (filename : string) (st_size : Z)
  : ST system (option nat) :=
  p <- get_pool ;;
  if opened p <? 0 then fun _ => Fault else
  let idx := Z.to_nat (opened p) in
  set_opened (opened p + 1) ;;;
  set_file idx zero_file ;;;
  d <- sys_open filename ;;
  match d with
  | None =>
      set_file idx (set_fd zero_file (-1)) ;;;
      msg cannot_open ;;;
      p <- get_pool ;;
      set_opened (opened p - 1) ;;;
      ret None
  | Some d =>
      set_file idx (set_fd zero_file d) ;;;
      m <- sys_mmap filename st_size ;;
      match m with
      | None =>
          msg cannot_mmap ;;;
          p <- get_pool ;;
          set_opened (opened p - 1) ;;;
          ret None
      | Some m =>
          set_file idx (set_len_name_map (set_fd zero_file d) filename
                          (Some m) st_size) ;;;
          p <- get_pool ;;
          (if mlock_ok p then
             fun s => if mlock_allowed s then Ok (tt, s)
                      else (msg mlock_failed ;;; set_mlock_ok false) s
           else ret tt) ;;;
          rc <- rspamd_mmaped_file_check idx ;;
          if rc =? -1 then
            p <- get_pool ;;
            set_opened (opened p - 1) ;;;
            ret None
          else
            now <- time ;;
            file <- get_file idx ;;
            set_file idx (set_times file now) ;;;
            p <- get_pool ;;
            ret (statfile_pool_is_open p filename)
      end
  end.

(** statfile_pool_open from its call of [stat] on, with the reindex
    procedure it calls left open. *)
Definition open_stat_and_map
  (reindex : string -> Z -> Z -> ST system (option nat))
  (filename : string) (size : Z) (forced : bool) : ST system (option nat) :=
  st <- sys_stat filename ;;
  match st with
  | None => msg cannot_stat ;;; ret None
  | Some st_size =>
      if negb forced
         && (labs (to_long (size - st_size)) >? sizeof_stat_file * 2)
         && (size >? sizeof_stat_file)
      then
        msg (need_to_reindex st_size size) ;;;
        reindex filename st_size size
      else
        (if size <? sizeof_stat_file then msg (shrink_too_small size)
         else ret tt) ;;;
        open_mapped filename st_size
  end.

(** statfile_pool_open, with the reindex procedure it calls left open. *)
Definition statfile_pool_open_with
  (reindex : string -> Z -> Z -> ST system (option nat))
  (filename : string) (size : Z) (forced : bool) : ST system (option nat) :=
  p <- get_pool ;;
  match statfile_pool_is_open p filename with
  | Some idx => ret (Some idx)
  | None =>
      if opened p >=? STATFILES_MAX - 1 then
        msg (reached_limit STATFILES_MAX) ;;; ret None
      else open_stat_and_map reindex filename size forced
  end.

(** statfile_pool_open (..., TRUE), as rspamd_mmaped_file_reindex calls it:
    with [forced] set the reindex procedure is never entered. *)
Definition statfile_pool_open_forced (filename : string) (size : Z)
  : ST system (option nat) :=
  statfile_pool_open_with (fun _ _ _ => ret None) filename size true.

(** *** Reindexing *)

(** The copy loop of rspamd_mmaped_file_reindex over the mapping [old] of
    the backup, at offset [pos], writing into the handle [new]. *)
Fixpoint reindex_copy (fuel : nat) (old : mapping) (old_size pos : Z)
  (new : rspamd_mmaped_file_t) : result rspamd_mmaped_file_t :=
  match fuel with
  | O => Fault
  | S fuel' =>
      if guint64 (old_size - pos) >=? sizeof_block then
        match (h1 <- load_u32 (pos + off_hash1) ;;
               h2 <- load_u32 (pos + off_hash2) ;;
               v <- load_u64 (pos + off_value) ;;
               ret (h1, h2, v)) old with
        | Ok ((h1, h2, v), _) =>
            if negb (h1 =? 0) && double_ne v 0 then
              match statfile_pool_set_block_common new h1 h2 0 v false with
              | Ok new' =>
                  reindex_copy fuel' old old_size (pos + sizeof_block_ptr) new'
              | Fault => Fault
              end
            else reindex_copy fuel' old old_size (pos + sizeof_block_ptr) new
        | Fault => Fault
        end
      else Ok new
  end.

Definition lift {A : Type} (r : result A) : ST system A :=
  fun s => match r with
           | Ok a => Ok (a, s)
           | Fault => Fault
           end.

(** rspamd_mmaped_file_reindex *)
Definition rspamd_mmaped_file_reindex (filename : string)
  (old_size size : Z) : ST system (option nat) :=
  if size <? sizeof_header + sizeof_section + sizeof_block_ptr then
    msg (too_small_to_carry size) ;;; ret None
  else
    let backup := (filename ++ BACKUP_SUFFIX)%string in
    renamed <- sys_rename filename backup ;;
    if negb renamed then msg cannot_rename ;;; ret None
    else
      rc <- statfile_pool_create filename size ;;
      if negb (rc =? 0) then msg cannot_create_new_file ;;; ret None
      else
        d <- sys_open backup ;;
        new <- statfile_pool_open_forced filename size ;;
        match d, new with
        | Some _, Some idx =>
            old <- sys_mmap backup old_size ;;
            match old with
            | None => msg cannot_mmap_file ;;; ret None
            | Some old =>
                file <- get_file idx ;;
                file <- lift (reindex_copy (Z.to_nat old_size) old old_size
                                (sizeof_stat_file - sizeof_block) file) ;;
                set_file idx file ;;;
                revision <- peek old (load_u64 off_revision) ;;
                rev_time <- peek old (load_u64 off_rev_time) ;;
                r <- lift (statfile_set_revision (Some file) revision
                             (to_long rev_time)) ;;
                match snd r with
                | Some file => set_file idx file
                | None => ret tt
                end ;;;
                sys_unlink backup ;;;
                ret (Some idx)
            end
        | _, _ => msg cannot_open_file ;;; ret None
        end.

(** statfile_pool_open *)
Definition statfile_pool_open (filename : string) (size : Z) (forced : bool)
  : ST system (option nat) :=
  statfile_pool_open_with rspamd_mmaped_file_reindex filename size forced.

End Backend.

(** ** Vocabulary of the statements *)

(** The key and the value of the block at offset [c] of the bytes [f]. *)
Definition hash1_at (f : Z -> Z) (c : Z) : Z := load_le 4 f (c + off_hash1).
Definition hash2_at (f : Z -> Z) (c : Z) : Z := load_le 4 f (c + off_hash2).
Definition value_at (f : Z -> Z) (c : Z) : Z := load_le 8 f (c + off_value).

Definition key_eqb (f : Z -> Z) (c h1 h2 : Z) : bool :=
  (hash1_at f c =? h1) && (hash2_at f c =? h2).

(** The offsets of [k] consecutive blocks from offset [c]. *)
Definition slot_offsets (c : Z) (k : nat) : list Z :=
  List.map (fun j => c + sizeof_block * Z.of_nat j) (seq 0 k).

(** The bytes after the three stores that fill a block. *)
Definition block_written (f : Z -> Z) (c h1 h2 value : Z) : Z -> Z :=
  store_le 8 (store_le 4 (store_le 4 f (c + off_hash1) h1)
                (c + off_hash2) h2) (c + off_value) value.

(** The bytes after [header->used_blocks++]. *)
Definition used_incremented (f : Z -> Z) : Z -> Z :=
  store_le 8 f off_used_blocks (guint64 (load_le 8 f off_used_blocks + 1)).

(** The candidate to expire and the minimum after [k] occupied blocks from
    offset [c] have been passed, starting from [(to_expire, min)]. *)
Fixpoint expire_scan (k : nat) (f : Z -> Z) (c : Z) (to_expire : option Z)
  (min : Z) : option Z * Z :=
  match k with
  | O => (to_expire, min)
  | S k' =>
      if double_lt (value_at f c) min
      then expire_scan k' f (c + sizeof_block) (Some c) (value_at f c)
      else expire_scan k' f (c + sizeof_block) to_expire min
  end.

(** The block at offset [c] is neither the block of the key [(h1, h2)] nor
    a free one: the chain loop of set goes past it. *)
Definition occupied_by_other (f : Z -> Z) (c h1 h2 : Z) : bool :=
  negb (key_eqb f c h1 h2) && negb (key_eqb f c 0 0).

(** The bytes [f'] hold the block [(h1, h2, v)] at offset [c] and differ
    from [f] at most there and in the used_blocks field of the header. *)
Definition stored_at (f f' : Z -> Z) (c h1 h2 v : Z) : Prop :=
  hash1_at f' c = h1 /\ hash2_at f' c = h2 /\ value_at f' c = v /\
  forall x, x < c \/ c + sizeof_block <= x ->
            x < off_used_blocks \/ off_used_blocks + 8 <= x ->
            f' x = f x.

(** What set does to the bytes [f] of a mapping, for the chain of [K]
    blocks at offset [base]: it inspects the first [k] blocks and leaves the
    new block in the [j]-th, all blocks before it being occupied by other
    keys.  That block is the first that held the key (its value is
    updated), the first free one (the block is inserted and used_blocks
    incremented) or, when the whole chain is occupied by other keys, the
    one chosen by the expire scan, or the first of the chain when the scan
    chose none. *)
Definition set_effect (f : Z -> Z) (base : Z) (K : nat) (h1 h2 value : Z)
  (k j : nat) (f' : Z -> Z) : Prop :=
  let blk := fun j : nat => base + sizeof_block * Z.of_nat j in
  (1 <= k <= K)%nat /\ (j < k)%nat /\
  (forall j', (j' < j)%nat -> occupied_by_other f (blk j') h1 h2 = true) /\
  stored_at f f' (blk j) h1 h2 value /\
  ((k = S j /\ key_eqb f (blk j) h1 h2 = true /\
    f' = store_le 8 f (blk j + off_value) value)
   \/
   (k = S j /\ key_eqb f (blk j) h1 h2 = false /\
    key_eqb f (blk j) 0 0 = true /\
    f' = used_incremented (block_written f (blk j) h1 h2 value))
   \/
   (k = K /\
    (forall j', (j' < K)%nat -> occupied_by_other f (blk j') h1 h2 = true) /\
    f' = block_written f (blk j) h1 h2 value /\
    ((fst (expire_scan K f base None G_MAXDOUBLE) = Some (blk j) /\
      double_lt (value_at f (blk j)) G_MAXDOUBLE = true /\
      forall j', (j' < K)%nat ->
        double_lt (value_at f (blk j')) (value_at f (blk j)) = false)
     \/
     (fst (expire_scan K f base None G_MAXDOUBLE) = None /\
      j = O /\
      forall j', (j' < K)%nat ->
        double_lt (value_at f (blk j')) G_MAXDOUBLE = false)))).

(** What get finds in the bytes [f] for the chain of [K] blocks at offset
    [base]: it inspects [k] blocks and returns the value of the last one,
    the first whose key matches, or it inspects the whole chain without a
    match and returns 0. *)
Definition get_result (f : Z -> Z) (base : Z) (K : nat) (h1 h2 : Z)
  (k : nat) (v : Z) : Prop :=
  let blk := fun j : nat => base + sizeof_block * Z.of_nat j in
  (k <= K)%nat /\
  ((exists k', k = S k' /\
      (forall j, (j < k')%nat -> key_eqb f (blk j) h1 h2 = false) /\
      key_eqb f (blk k') h1 h2 = true /\
      v = value_at f (blk k'))
   \/
   ((forall j, (j < k)%nat -> key_eqb f (blk j) h1 h2 = false) /\
    v = 0 /\ k = K)).

(** The mapping [m] with [k] more blocks from offset [c] inspected. *)
Definition inspected (m : mapping) (c : Z) (k : nat) : mapping :=
  {| cells := cells m; extent := extent m;
     probed := rev (slot_offsets c k) ++ probed m |}.

(** The first slot of the chain of [h1], its offset, and the number of
    slots of the chain: at most CHAIN_LENGTH, cut at the end of the
    section. *)
Definition slot0 (file : rspamd_mmaped_file_t) (h1 : Z) : Z :=
  h1 mod length (cur_section file).
Definition chain_base (file : rspamd_mmaped_file_t) (h1 : Z) : Z :=
  seek_pos file + slot0 file h1 * sizeof_block.
Definition chain_slots (file : rspamd_mmaped_file_t) (h1 : Z) : nat :=
  Z.to_nat (Z.min (Z.of_nat CHAIN_LENGTH)
              (length (cur_section file) - slot0 file h1)).

(** The offset of the [j]-th block of the chain of [h1]. *)
Definition chain_block (file : rspamd_mmaped_file_t) (h1 : Z) (j : nat) : Z :=
  chain_base file h1 + sizeof_block * Z.of_nat j.

(** A handle as statfile_pool_create and statfile_pool_open leave it: mapped
    by [m], with a section of at least one and fewer than 2^32 blocks that
    lies behind the header and inside the mapping. *)
Definition valid_handle (file : rspamd_mmaped_file_t) (m : mapping) : Prop :=
  map file = Some m /\
  0 < length (cur_section file) < 2 ^ 32 /\
  sizeof_header + sizeof_section <= seek_pos file /\
  seek_pos file + length (cur_section file) * sizeof_block <= extent m.

Definition is_guint32 (x : Z) : Prop := 0 <= x < 2 ^ 32.
Definition is_guint64 (x : Z) : Prop := 0 <= x < 2 ^ 64.

(** The chain of [K] blocks at offset [base] still has the key [(h1, h2)]
    or a free block. *)
Definition chain_has_room (f : Z -> Z) (base : Z) (K : nat) (h1 h2 : Z)
  : Prop :=
  exists j, (j < K)%nat /\
    (key_eqb f (base + sizeof_block * Z.of_nat j) h1 h2 = true \/
     key_eqb f (base + sizeof_block * Z.of_nat j) 0 0 = true).

(** [file'] is reached from [file] by calls of set for keys other than
    [(h1, h2)], each made while the chain of its key still has the key or a
    free block. *)
Inductive other_sets (h1 h2 : Z)
  : rspamd_mmaped_file_t -> rspamd_mmaped_file_t -> Prop :=
| other_sets_none (file : rspamd_mmaped_file_t) : other_sets h1 h2 file file
| other_sets_more (file file' file'' : rspamd_mmaped_file_t) (m : mapping)
    (k1 k2 t value : Z) (from_now : bool) :
    map file = Some m ->
    is_guint32 k1 -> is_guint32 k2 -> is_guint64 value ->
    (k1, k2) <> (h1, h2) ->
    chain_has_room (cells m) (chain_base file k1) (chain_slots file k1)
      k1 k2 ->
    statfile_pool_set_block_common file k1 k2 t value from_now = Ok file' ->
    other_sets h1 h2 file' file'' ->
    other_sets h1 h2 file file''.

(** Every block of the chain is occupied by a key other than [(h1, h2)]. *)
Definition chain_full (f : Z -> Z) (base : Z) (K : nat) (h1 h2 : Z) : Prop :=
  forall j, (j < K)%nat ->
    occupied_by_other f (base + sizeof_block * Z.of_nat j) h1 h2 = true.

(** The eviction rule as the specification words it: the block overwritten
    is one that holds the minimum value of the chain. *)
Definition evicts_minimum (file : rspamd_mmaped_file_t) (m : mapping)
  (h1 h2 t value : Z) (from_now : bool) : Prop :=
  chain_full (cells m) (chain_base file h1) (chain_slots file h1) h1 h2 ->
  exists (j : nat) (file' : rspamd_mmaped_file_t) (m' : mapping),
    statfile_pool_set_block_common file h1 h2 t value from_now = Ok file' /\
    map file' = Some m' /\
    (j < chain_slots file h1)%nat /\
    (forall j', (j' < chain_slots file h1)%nat ->
       double_lt (value_at (cells m) (chain_block file h1 j'))
         (value_at (cells m) (chain_block file h1 j)) = false) /\
    stored_at (cells m) (cells m') (chain_block file h1 j) h1 h2 value.

(** The state [s'] differs from [s] only in the file at [path], which is
    [df]. *)
Definition disk_updated (s s' : system) (path : string) (df : disk_file)
  : Prop :=
  pool s' = pool s /\ clock s' = clock s /\ next_fd s' = next_fd s /\
  mlock_allowed s' = mlock_allowed s /\ log s' = log s /\
  disk s' path = Some df /\
  forall p, p <> path -> disk s' p = disk s p.

(** The file that statfile_pool_create writes for [nblocks] blocks at time
    [now]: header, one section header, zeroed blocks. *)
Definition created_file (df : disk_file) (nblocks now : Z) : Prop :=
  fsize df = sizeof_header + sizeof_section + sizeof_block * nblocks /\
  (forall x, 0 <= x < sizeof_header ->
     contents df x = header_bytes nblocks now x) /\
  (forall x, sizeof_header <= x < sizeof_header + sizeof_section ->
     contents df x =
     section_bytes STATFILE_SECTION_COMMON nblocks (x - sizeof_header)) /\
  (forall x, sizeof_header + sizeof_section <= x -> contents df x = 0).

(** A file on disk that statfile_pool_open accepts: the magic and the
    version of the header, and a first section of [n] blocks, with code
    [sect_code], that fits in the file. *)
Definition statfile_image (df : disk_file) (sect_code n : Z) : Prop :=
  load_le 1 (contents df) off_magic = 114 /\
  load_le 1 (contents df) (off_magic + 1) = 115 /\
  load_le 1 (contents df) (off_magic + 2) = 100 /\
  load_le 1 (contents df) off_version = 49 /\
  load_le 1 (contents df) (off_version + 1) = 50 /\
  load_le 8 (contents df) (off_section + off_code) = sect_code /\
  load_le 8 (contents df) (off_section + off_length) = n /\
  0 < n < 2 ^ 32 /\
  sizeof_header + sizeof_section + sizeof_block * n <= fsize df.

(** The handle that statfile_pool_open leaves for the file [df] at [path],
    opened with descriptor [d] at time [now]. *)
Definition opened_handle (path : string) (df : disk_file) (d now : Z)
  (sect_code n : Z) : rspamd_mmaped_file_t :=
  {| filename := path; fd := d;
     map := Some {| cells := contents df; extent := fsize df; probed := [] |};
     seek_pos := sizeof_stat_file - sizeof_block;
     cur_section := {| code := sect_code; length := n |};
     open_time := now; access_time := now;
     len := fsize df |}.

(** The pool can take one more handle. *)
Definition pool_has_room (p : rspamd_mmaped_file_ctx) : Prop :=
  0 <= opened p < STATFILES_MAX - 1 /\
  (Z.to_nat (opened p) < List.length (files p))%nat.

(** The capacity formula as the specification words it, with a header of
    256 bytes. *)
Definition capacity_formula_as_stated (s : system) (path : string)
  (size : Z) : Prop :=
  forall (s' : system) (df : disk_file),
    statfile_pool_create path size s = Ok (0, s') ->
    disk s' path = Some df ->
    load_le 8 (contents df) off_total_blocks = (size - 256 - 16) / 16.

(** The reindex test as the specification words it, with the size of the
    header as the threshold. *)
Definition reindex_trigger_as_stated
  (convert_statfile_10 : rspamd_mmaped_file_t -> option rspamd_mmaped_file_t)
  (path : string) (size : Z) (s : system) : Prop :=
  forall df : disk_file,
    disk s path = Some df ->
    statfile_pool_open convert_statfile_10 path size false s =
      if (Z.abs (fsize df - size) >? 2 * sizeof_header)
         && (size >? sizeof_header)
      then (msg (need_to_reindex (fsize df) size) ;;;
            rspamd_mmaped_file_reindex convert_statfile_10 path (fsize df)
              size) s
      else ((if size <? sizeof_stat_file then msg (shrink_too_small size)
             else ret tt) ;;;
            open_mapped convert_statfile_10 path (fsize df)) s.

(** The pool limit as the specification words it: below STATFILES_MAX open
    handles, statfile_pool_open goes on to open the file. *)
Definition pool_limit_as_stated
  (convert_statfile_10 : rspamd_mmaped_file_t -> option rspamd_mmaped_file_t)
  (path : string) (size : Z) (forced : bool) (s : system) : Prop :=
  statfile_pool_is_open (pool s) path = None ->
  opened (pool s) < STATFILES_MAX ->
  statfile_pool_open convert_statfile_10 path size forced s =
    open_stat_and_map convert_statfile_10
      (rspamd_mmaped_file_reindex convert_statfile_10) path size forced s.

(** The walk over the section headers as the specification words it:
    from one section header to the next by the byte span of the section,
    its blocks and its header. *)
Fixpoint section_walk_by_span (fuel : nat) (code file_len cur_offset : Z)
  : ST mapping walk :=
  match fuel with
  | O => ret Walking
  | S fuel' =>
      if cur_offset <? to_long file_len then
        sec_code <- load_u64 (cur_offset + off_code) ;;
        sec_length <- load_u64 (cur_offset + off_length) ;;
        if sec_code =? code then ret (Found cur_offset sec_length)
        else section_walk_by_span fuel' code file_len
               (to_long (cur_offset + sec_length * sizeof_block
                         + sizeof_section))
      else ret NotFound
  end.

(** ** Sample data *)

(** Bit patterns of the doubles 1.0, 1.5, 2.5 and +infinity. *)
Definition double_1_0 : Z := 0x3FF0000000000000.
Definition double_1_5 : Z := 0x3FF8000000000000.
Definition double_2_5 : Z := 0x4004000000000000.
Definition double_inf : Z := 0x7FF0000000000000.

(** A handle on a mapping with the bytes [f] and one section of [n] blocks
    right behind the header. *)
Definition sample_mapping (f : Z -> Z) (n : Z) : mapping :=
  {| cells := f; extent := sizeof_header + sizeof_section + sizeof_block * n;
     probed := [] |}.

Definition sample_file (f : Z -> Z) (n : Z) : rspamd_mmaped_file_t :=
  {| filename := "sample"; fd := 3;
     map := Some (sample_mapping f n);
     seek_pos := sizeof_header + sizeof_section;
     cur_section := {| code := STATFILE_SECTION_COMMON; length := n |};
     open_time := 0; access_time := 0;
     len := sizeof_header + sizeof_section + sizeof_block * n |}.

(** The bytes of a section of two blocks after set of [(2, 7)] to [v1] and
    of [(6, 9)] to [v2] on an empty mapping: both blocks are inserted in
    the chain of slot 0. *)
Definition two_blocks (v1 v2 : Z) : Z -> Z :=
  used_incremented
    (block_written
       (used_incremented
          (block_written (fun _ => 0) (sizeof_header + sizeof_section)
             2 7 v1))
       (sizeof_header + sizeof_section + sizeof_block) 6 9 v2).

(** The values +infinity and DBL_MAX. *)
Definition two_large_blocks : Z -> Z := two_blocks double_inf G_MAXDOUBLE.

(** The values 2.5 and 1.5. *)
Definition two_small_blocks : Z -> Z := two_blocks double_2_5 double_1_5.

(** A pool of STATFILES_MAX cells with the first [n] in use, no file on
    disk. *)
Definition boot (n : Z) : system :=
  {| pool := {| files := repeat zero_file (Z.to_nat STATFILES_MAX);
                opened := n; mlock_ok := true |};
     disk := fun _ => None;
     clock := 1000; next_fd := 3; mlock_allowed := true; log := [] |}.

(** A migrator that converts nothing. *)
Definition no_conversion (file : rspamd_mmaped_file_t)
  : option rspamd_mmaped_file_t := None.

(** The state [s] after statfile_pool_create of "stat" with [size]. *)
Definition with_statfile (size : Z) (s : system) : system :=
  match statfile_pool_create "stat" size s with
  | Ok (_, s') => s'
  | Fault => s
  end.

(** A statfile of two blocks with revision 7 and rev_time 1234.  The key
    of its first block, [(1, 0x3FF00000)], is made of the two halves of the
    value of that block, the double 0x3FF0000000000001. *)
Definition old_statfile : disk_file :=
  {| contents :=
       block_written
         (block_written
            (fun x => if x <? sizeof_header
                      then store_le 8 (store_le 8 (header_bytes 2 500)
                                         off_revision 7) off_rev_time 1234 x
                      else section_bytes STATFILE_SECTION_COMMON 2
                             (x - sizeof_header))
            (sizeof_header + sizeof_section)
            1 0x3FF00000 0x3FF0000000000001)
         (sizeof_header + sizeof_section + sizeof_block)
         2 0x40000000 double_1_5;
     fsize := sizeof_header + sizeof_section + sizeof_block * 2 |}.

(** A pool with room and [old_statfile] on disk as "stat". *)
Definition old_statfile_on_disk : system :=
  {| pool := {| files := repeat zero_file (Z.to_nat STATFILES_MAX);
                opened := 0; mlock_ok := true |};
     disk := fun p => if String.eqb p "stat" then Some old_statfile else None;
     clock := 1000; next_fd := 3; mlock_allowed := true; log := [] |}.

(** The value that get finds for the key [(h1, h2)] in the handle that
    statfile_pool_open returns. *)
Definition value_after_open (size : Z) (s : system) (h1 h2 : Z) : option Z :=
  match statfile_pool_open no_conversion "stat" size false s with
  | Ok (Some idx, s') =>
      match nth_error (files (pool s')) idx with
      | Some file =>
          match statfile_pool_get_block file h1 h2 0 with
          | Ok (v, _) => Some v
          | Fault => None
          end
      | None => None
      end
  | _ => None
  end.

(** A statfile of two sections: one of two blocks with code 1, the first
    block being [(5, 6, 1.5)], and one of one block with code 2. *)
Definition two_sections : Z -> Z :=
  store_le 8
    (store_le 8
       (block_written
          (fun x => if x <? sizeof_header then header_bytes 3 500 x
                    else section_bytes STATFILE_SECTION_COMMON 2
                           (x - sizeof_header))
          (sizeof_header + sizeof_section) 5 6 double_1_5)
       (sizeof_header + sizeof_section + sizeof_block * 2 + off_code) 2)
    (sizeof_header + sizeof_section + sizeof_block * 2 + off_length) 1.

Definition two_sections_file : rspamd_mmaped_file_t :=
  {| filename := "sections"; fd := 3;
     map := Some {| cells := two_sections;
                    extent := sizeof_header + 2 * sizeof_section
                              + 3 * sizeof_block;
                    probed := [] |};
     seek_pos := sizeof_header + sizeof_section;
     cur_section := {| code := STATFILE_SECTION_COMMON; length := 2 |};
     open_time := 0; access_time := 0;
     len := sizeof_header + 2 * sizeof_section + 3 * sizeof_block |}.

(** ** Further functions of the backend *)

(** statfile_inc_revision *)
Definition statfile_inc_revision (file : option rspamd_mmaped_file_t)
  : result (bool * option rspamd_mmaped_file_t) :=
  match file with
  | None => Ok (false, None)
  | Some f =>
      match map f with
      | None => Ok (false, file)
      | Some m =>
          match (rev <- load_u64 off_revision ;;
                 store_u64 off_revision (guint64 (rev + 1))) m with
          | Ok (_, m') => Ok (true, Some (set_map f (Some m')))
          | Fault => Fault
          end
      end
  end.

(** statfile_get_used_blocks *)
Definition statfile_get_used_blocks (file : option rspamd_mmaped_file_t)
  : result Z :=
  match file with
  | None => Ok (guint64 (-1))
  | Some f =>
      match map f with
      | None => Ok (guint64 (-1))
      | Some m =>
          match load_u64 off_used_blocks m with
          | Ok (used, _) => Ok used
          | Fault => Fault
          end
      end
  end.

(** statfile_pool_get_section: the code of the current section, converted
    to the guint32 that the function returns. *)
Definition statfile_pool_get_section (file : rspamd_mmaped_file_t) : Z :=
  guint (code (cur_section file)).

(** *** Closing

    The functions below act on more than the state of [system]: they flush
    and release mappings and descriptors, and they have diagnostics of
    their own.  The calls and the diagnostics are recorded, latest
    first. *)
Inductive event :=
| msync_called (name : string) (length : Z)
| munmap_called (name : string) (length : Z)
| close_called (fd : Z)
| fsync_called (fd : Z)
| mempool_deleted
| not_opened (name : string)
| syncing (name : string)
| cannot_lseek (name : string)
| cannot_write_block (name : string)
| invalid_input_arguments
| cannot_find_statfile (symbol : string)
| cannot_open_statfile (path : string)
| cannot_create_statfile (path : string)
| cannot_open_after_creation (path : string).

Record world := {
  sys : system;
  events : list event
}.

Definition in_system {A : Type} (c : ST system A) : ST world A :=
  fun w => match c (sys w) with
           | Ok (a, s') => Ok (a, {| sys := s'; events := events w |})
           | Fault => Fault
           end.

Definition emit (e : event) : ST world unit :=
  fun w => Ok (tt, {| sys := sys w; events := e :: events w |}).

(** The mappings are MAP_SHARED: the bytes of a mapping are the bytes of
    the file, as far as the file reaches.  A handle holds them by value, so
    they are given back to the file when the mapping is released.  The file
    of a handle is the file at its path. *)
Definition write_back (df : disk_file) (m : mapping) : disk_file :=
  {| contents := fun x => if (0 <=? x) && (x <? extent m) && (x <? fsize df)
                          then cells m x else contents df x;
     fsize := fsize df |}.

(** munmap (map, length) of the mapping [m] of the file at [path]. *)
Definition sys_munmap (path : string) (m : mapping) (length : Z)
  : ST world unit :=
  in_system
    (fun s => Ok (tt, with_disk s
                        (fun p => if String.eqb p path
                                  then option_map (fun df => write_back df m)
                                         (disk s p)
                                  else disk s p))) ;;;
  emit (munmap_called path length).

(** memmove of [count] cells from cell [pos + 1] to cell [pos]. *)
Definition memmove_cells {A : Type} (l : list A) (pos count : nat) : list A :=
  firstn pos l ++ firstn count (skipn (S pos) l) ++ skipn (pos + count) l.

(** The last statement of statfile_pool_close: the count of open handles
    is decremented and the handles behind cell [pos] move down by one.  A
    negative count, as a size_t, or cells beyond the array are outside of
    what memmove may touch. *)
Definition move_down (pos : nat) : ST system unit :=
  fun s =>
    let p := pool s in
    let n := opened p - 1 in
    let count := n - Z.of_nat pos in
    if count <? 0 then Fault
    else if (count =? 0)
            || (pos + 1 + Z.to_nat count <=? List.length (files p))%nat
    then Ok (tt, with_pool s {| files := memmove_cells (files p) pos
                                           (Z.to_nat count);
                                opened := n;
                                mlock_ok := mlock_ok p |})
    else Fault.

(** statfile_pool_close of the handle in cell [idx]. *)
Definition statfile_pool_close (idx : nat) (keep_sorted : bool)
  : ST world Z :=
  file <- in_system (get_file idx) ;;
  p <- in_system get_pool ;;
  match statfile_pool_is_open p (filename file) with
  | None => emit (not_opened (filename file)) ;;; ret (-1)
  | Some pos =>
      match map file with
      | Some m =>
          emit (syncing (filename file)) ;;;
          emit (msync_called (filename file) (len file)) ;;;
          sys_munmap (filename file) m (len file)
      | None => ret tt
      end ;;;
      (if negb (fd file =? -1) then emit (close_called (fd file))
       else ret tt) ;;;
      in_system (move_down pos) ;;;
      ret 0
  end.

(** The loop of statfile_pool_delete at index [i]; it ends within as many
    iterations as there are open handles. *)
Fixpoint delete_loop (fuel : nat) (i : Z) : ST world unit :=
  match fuel with
  | O => fun _ => Fault
  | S fuel' =>
      p <- in_system get_pool ;;
      if i <? opened p then
        statfile_pool_close (Z.to_nat i) false ;;;
        delete_loop fuel' (i + 1)
      else ret tt
  end.

(** statfile_pool_delete *)
Definition statfile_pool_delete : ST world unit :=
  p <- in_system get_pool ;;
  delete_loop (S (Z.to_nat (opened p))) 0 ;;;
  emit mempool_deleted.

(** *** Adding a section *)

Definition set_len_map (file : rspamd_mmaped_file_t) (l : Z)
  (m : option mapping) : rspamd_mmaped_file_t :=
  {| filename := filename file; fd := fd file; map := m;
     seek_pos := seek_pos file; cur_section := cur_section file;
     open_time := open_time file; access_time := access_time file;
     len := l |}.

(** MAP_FAILED: a pointer that is not NULL and through which nothing can
    be accessed. *)
Definition MAP_FAILED : mapping :=
  {| cells := fun _ => 0; extent := 0; probed := [] |}.

(** The loop [while (length--)] of statfile_pool_add_section, writing at
    file offset [pos]: whether every write succeeded, and [length] as the
    loop leaves it. *)
Fixpoint add_blocks (fuel : nat) (path : string) (length pos : Z)
  : ST system (bool * Z) :=
  match fuel with
  | O => fun _ => Fault
  | S fuel' =>
      if length =? 0 then ret (true, guint64 (length - 1))
      else
        ok <- sys_write path pos sizeof_block (fun _ => 0) ;;
        if ok then add_blocks fuel' path (guint64 (length - 1))
                     (pos + sizeof_block)
        else ret (false, guint64 (length - 1))
  end.

(** statfile_pool_add_section on the handle [file]; the mutex is not
    modelled.  The descriptor of a handle is followed by the path of the
    handle, so lseek fails where the file is missing. *)
Definition statfile_pool_add_section (file : rspamd_mmaped_file_t)
  (code length : Z) : ST world (bool * rspamd_mmaped_file_t) :=
  end_pos <- in_system (sys_stat (filename file)) ;;
  match end_pos with
  | None => emit (cannot_lseek (filename file)) ;;; ret (false, file)
  | Some end_pos =>
      ok <- in_system (sys_write (filename file) end_pos sizeof_section
                         (section_bytes code length)) ;;
      if negb ok then
        emit (cannot_write_block (filename file)) ;;; ret (false, file)
      else
        r <- in_system (add_blocks (S (Z.to_nat length)) (filename file)
                          length (end_pos + sizeof_section)) ;;
        if negb (fst r) then
          emit (cannot_write_block (filename file)) ;;; ret (false, file)
        else
          match map file with
          | Some m => sys_munmap (filename file) m (len file)
          | None => emit (munmap_called (filename file) (len file))
          end ;;;
          emit (fsync_called (fd file)) ;;;
          let len' := guint64 (len file + snd r) in
          m' <- in_system (sys_mmap (filename file) len') ;;
          ret (true,
               set_len_map file len'
                 (Some match m' with
                       | Some m' => m'
                       | None => MAP_FAILED
                       end))
  end.

(** *** Handles by symbol *)

(** The fields of struct rspamd_statfile_config that this file reads. *)
Record rspamd_statfile_config := {
  symbol : string;
  path : string;
  size : Z
}.

(** The search of get_statfile_by_symbol through ccf->statfiles; [st] is
    what the out-parameter holds. *)
Fixpoint find_symbol (sym : string) (cur : list rspamd_statfile_config)
  (st : option rspamd_statfile_config) : option rspamd_statfile_config :=
  match cur with
  | [] => st
  | c :: rest =>
      if String.eqb sym (symbol c) then Some c
      else find_symbol sym rest None
  end.

Section Symbols.

Variable convert_statfile_10 :
  rspamd_mmaped_file_t -> option rspamd_mmaped_file_t.

(** get_statfile_by_symbol; the pool is the one of the state.  [ccf] and
    [sym] are [None] for NULL; [st] is what the caller left in the
    out-parameter.  The result is the handle and the out-parameter. *)
Definition get_statfile_by_symbol
  (ccf : option (list rspamd_statfile_config)) (sym : option string)
  (st : option rspamd_statfile_config) (try_create : bool)
  : ST world (option nat * option rspamd_statfile_config) :=
  match ccf, sym with
  | Some statfiles, Some sym =>
      match find_symbol sym statfiles st with
      | None => emit (cannot_find_statfile sym) ;;; ret (None, None)
      | Some c =>
          p <- in_system get_pool ;;
          match statfile_pool_is_open p (path c) with
          | Some idx => ret (Some idx, Some c)
          | None =>
              res <- in_system (statfile_pool_open convert_statfile_10
                                  (path c) (size c) false) ;;
              match res with
              | Some idx => ret (Some idx, Some c)
              | None =>
                  emit (cannot_open_statfile (path c)) ;;;
                  if try_create then
                    rc <- in_system (statfile_pool_create (path c) (size c)) ;;
                    if rc =? -1 then
                      emit (cannot_create_statfile (path c)) ;;;
                      ret (None, Some c)
                    else
                      res <- in_system
                               (statfile_pool_open convert_statfile_10
                                  (path c) (size c) false) ;;
                      match res with
                      | None =>
                          emit (cannot_open_after_creation (path c)) ;;;
                          ret (None, Some c)
                      | Some idx => ret (Some idx, Some c)
                      end
                  else ret (None, Some c)
              end
          end
      end
  | _, _ => emit invalid_input_arguments ;;; ret (None, st)
  end.

End Symbols.

(** *** Handles as cells of the pool *)

(** statfile_pool_set_block and statfile_pool_get_block on the handle in
    cell [idx]: a handle is its cell, so what a call changes in the handle
    is changed in the pool. *)
Definition pool_set_block (idx : nat) (h1 h2 now value : Z)
  : ST system unit :=
  file <- get_file idx ;;
  file' <- lift (statfile_pool_set_block file h1 h2 now value) ;;
  set_file idx file'.

Definition pool_get_block (idx : nat) (h1 h2 now : Z) : ST system Z :=
  file <- get_file idx ;;
  r <- lift (statfile_pool_get_block file h1 h2 now) ;;
  set_file idx (snd r) ;;;
  ret (fst r).

(** ** Further vocabulary *)

(** The number of blocks that are not free among the [n] blocks from
    offset [c]. *)
Fixpoint occupied_blocks (f : Z -> Z) (c : Z) (n : nat) : Z :=
  match n with
  | O => 0
  | S n' => (if key_eqb f c 0 0 then 0 else 1)
            + occupied_blocks f (c + sizeof_block) n'
  end.

(** The used_blocks field of the header counts the occupied blocks of the
    current section of the handle [file], mapped by [m]. *)
Definition used_blocks_exact (file : rspamd_mmaped_file_t) (m : mapping)
  : Prop :=
  statfile_get_used_blocks (Some file) =
    Ok (occupied_blocks (cells m) (seek_pos file)
          (Z.to_nat (length (cur_section file)))).

(** The file of [n] zeroed blocks that statfile_pool_create writes at time
    [now]. *)
Definition fresh_statfile (n now : Z) : disk_file :=
  {| contents := fun x =>
       if x <? sizeof_header then header_bytes n now x
       else if x <? sizeof_header + sizeof_section
            then section_bytes STATFILE_SECTION_COMMON n (x - sizeof_header)
            else 0;
     fsize := sizeof_header + sizeof_section + sizeof_block * n |}.

(** The handle after statfile_pool_set_block of [(h1, h2)] to [value] at
    time 0. *)
Definition after_set (file : rspamd_mmaped_file_t) (h1 h2 value : Z)
  : rspamd_mmaped_file_t :=
  match statfile_pool_set_block file h1 h2 0 value with
  | Ok file' => file'
  | Fault => file
  end.

(** rspamd_mmaped_file_init: the context is allocated zeroed, so the array
    of handles is NULL (it has no cell) and no handle is open; the mlock
    policy is the one of the configuration.  The mutex is not modelled. *)
Definition rspamd_mmaped_file_init (mlock_statfile_pool : bool)
  : rspamd_mmaped_file_ctx :=
  {| files := []; opened := 0; mlock_ok := mlock_statfile_pool |}.

(** A file on disk that passes the tests of rspamd_mmaped_file_check: it
    is as long as struct stat_file, has the magic and the current version,
    and its first section, of code [sect_code] and length [n], has
    n * sizeof (struct stat_file_block), taken modulo 2^64, no larger than
    the length of the file. *)
Definition passes_check (df : disk_file) (sect_code n : Z) : Prop :=
  sizeof_stat_file <= fsize df /\
  load_le 1 (contents df) off_magic = 114 /\
  load_le 1 (contents df) (off_magic + 1) = 115 /\
  load_le 1 (contents df) (off_magic + 2) = 100 /\
  load_le 1 (contents df) off_version = 49 /\
  load_le 1 (contents df) (off_version + 1) = 50 /\
  load_le 8 (contents df) (off_section + off_code) = sect_code /\
  load_le 8 (contents df) (off_section + off_length) = n /\
  guint64 (n * sizeof_block) <= fsize df.

(** The file of [fresh_statfile] with the length of its section set to
    [n'], the file itself as long as before. *)
Definition with_section_length (df : disk_file) (n' : Z) : disk_file :=
  {| contents := store_le 8 (contents df) (off_section + off_length) n';
     fsize := fsize df |}.

(** A pool with room and the file [df] on disk as "stat". *)
Definition statfile_on_disk (df : disk_file) : system :=
  {| pool := pool (boot 0);
     disk := fun p => if String.eqb p "stat" then Some df else None;
     clock := 1000; next_fd := 3; mlock_allowed := true; log := [] |}.

(** The state [s'] has the disk of [s] and its array of handles, but for
    the cell [idx]. *)
Definition cell_frame (idx : nat) (s s' : system) : Prop :=
  disk s' = disk s /\
  List.length (files (pool s')) = List.length (files (pool s)) /\
  forall i, i <> idx ->
    nth_error (files (pool s')) i = nth_error (files (pool s)) i.

(** The cell [idx] of [s'] holds a handle with the name of the handle in
    that cell of [s]. *)
Definition name_kept (idx : nat) (s s' : system) : Prop :=
  forall f, nth_error (files (pool s)) idx = Some f ->
    exists f', nth_error (files (pool s')) idx = Some f' /\
               filename f' = filename f.

(** The legacy migrator, where it converts a handle, leaves its name. *)
Definition keeps_name
  (convert_statfile_10 : rspamd_mmaped_file_t -> option rspamd_mmaped_file_t)
  : Prop :=
  forall f f' : rspamd_mmaped_file_t,
    convert_statfile_10 f = Some f' -> filename f' = filename f.

(** The state in which a computation ends. *)
Definition state_after {A : Type} (c : ST system A) (s : system) : system :=
  match c s with
  | Ok (_, s') => s'
  | Fault => s
  end.

(** The state after statfile_pool_open ("stat", 400, TRUE) with the file
    [df] on disk as "stat". *)
Definition after_forced_open (df : disk_file) : system :=
  state_after (statfile_pool_open no_conversion "stat" 400 true)
    (statfile_on_disk df).


(** The context of rspamd_mmaped_file_init with the file [df] on disk as
    "stat". *)
Definition initial_context (df : disk_file) : system :=
  {| pool := rspamd_mmaped_file_init true;
     disk := fun p => if String.eqb p "stat" then Some df else None;
     clock := 1000; next_fd := 3; mlock_allowed := true; log := [] |}.

(** The handles that are open, in the order of their cells, and their
    names. *)
Definition open_handles (p : rspamd_mmaped_file_ctx)
  : list rspamd_mmaped_file_t :=
  firstn (Z.to_nat (opened p)) (files p).

Definition open_names (p : rspamd_mmaped_file_ctx) : list string :=
  List.map filename (open_handles p).

(** A pool whose open handles have room in the array and names of their
    own. *)
Definition pool_ok (p : rspamd_mmaped_file_ctx) : Prop :=
  0 <= opened p /\
  (Z.to_nat (opened p) <= List.length (files p))%nat /\
  NoDup (open_names p).

(** The list without its element at position [i]. *)
Definition without {A : Type} (i : nat) (l : list A) : list A :=
  firstn i l ++ skipn (S i) l.

(** The elements at the positions 1, 3, 5, ... of a list, and those at the
    positions 0, 2, 4, ... *)
Fixpoint every_second {A : Type} (l : list A) : list A :=
  match l with
  | _ :: b :: r => b :: every_second r
  | _ => []
  end.

Fixpoint every_other {A : Type} (l : list A) : list A :=
  match l with
  | a :: _ :: r => a :: every_other r
  | l => l
  end.

(** A handle named [name] with descriptor [d] on a mapping of [l] zero
    bytes. *)
Definition plain_handle (name : string) (d l : Z) : rspamd_mmaped_file_t :=
  {| filename := name; fd := d;
     map := Some {| cells := fun _ => 0; extent := l; probed := [] |};
     seek_pos := sizeof_header + sizeof_section;
     cur_section := {| code := STATFILE_SECTION_COMMON; length := 1 |};
     open_time := 0; access_time := 0; len := l |}.

(** A pool of eight cells with five handles open, and nothing on disk. *)
Definition five_open : world :=
  {| sys :=
       {| pool :=
            {| files := [plain_handle "a" 3 320; plain_handle "b" 4 320;
                         plain_handle "c" 5 320; plain_handle "d" 6 320;
                         plain_handle "e" 7 320;
                         zero_file; zero_file; zero_file];
               opened := 5; mlock_ok := true |};
          disk := fun _ => None;
          clock := 1000; next_fd := 8; mlock_allowed := true; log := [] |};
     events := [] |}.

(** What statfile_pool_close records for the handle [f], latest first. *)
Definition close_events (f : rspamd_mmaped_file_t) : list event :=
  (if fd f =? -1 then [] else [close_called (fd f)]) ++
  match map f with
  | Some _ => [munmap_called (filename f) (len f);
               msync_called (filename f) (len f);
               syncing (filename f)]
  | None => []
  end.

(** Two statfile configurations. *)
Definition ham_config : rspamd_statfile_config :=
  {| symbol := "HAM"; path := "ham.stat"; size := 1000 |}.

Definition spam_config : rspamd_statfile_config :=
  {| symbol := "SPAM"; path := "spam.stat"; size := 2000 |}.

(** * Properties *)

(** Arithmetic on the sizes and offsets of the layout. *)
Ltac layout_lia :=
  unfold sizeof_stat_file, sizeof_header, sizeof_section, sizeof_block,
    sizeof_block_ptr, off_used_blocks, off_rev_time, off_revision,
    off_total_blocks in *;
  lia.

Lemma sizes :
  sizeof_header = 288 /\ sizeof_section = 16 /\ sizeof_block = 16 /\
  sizeof_stat_file = 320 /\ off_used_blocks = 32 /\ off_total_blocks = 40 /\
  off_revision = 16 /\ off_rev_time = 24 /\ off_section = 288.
Proof. repeat split; reflexivity. Qed.

(** ** Little-endian loads and stores *)

Lemma load_le_range (n : nat) (f : Z -> Z) (a : Z) :
  0 <= load_le n f a < 256 ^ Z.of_nat n.
Proof.
  revert a; induction n as [|k IH]; intro a.
  - simpl. lia.
  - rewrite Nat2Z.inj_succ, Z.pow_succ_r by lia.
    cbn [load_le].
    specialize (IH (a + 1)).
    pose proof (Z.mod_pos_bound (f a) 256). lia.
Qed.

Lemma store_le_outside (n : nat) :
  forall (f : Z -> Z) (a v x : Z),
    x < a \/ a + Z.of_nat n <= x -> store_le n f a v x = f x.
Proof.
  induction n as [|k IH]; intros f a v x H.
  - reflexivity.
  - cbn [store_le]. rewrite IH by lia.
    unfold upd. destruct (Z.eqb_spec x a); [lia | reflexivity].
Qed.

Lemma load_le_ext (n : nat) :
  forall (f g : Z -> Z) (a : Z),
    (forall x, a <= x < a + Z.of_nat n -> f x = g x) ->
    load_le n f a = load_le n g a.
Proof.
  induction n as [|k IH]; intros f g a H.
  - reflexivity.
  - cbn [load_le]. rewrite (H a) by lia.
    rewrite (IH f g (a + 1)); [reflexivity |].
    intros x Hx. apply H. lia.
Qed.

Lemma load_store_same (n : nat) :
  forall (f : Z -> Z) (a v : Z),
    load_le n (store_le n f a v) a = v mod 256 ^ Z.of_nat n.
Proof.
  induction n as [|k IH]; intros f a v.
  - simpl. now rewrite Z.mod_1_r.
  - rewrite Nat2Z.inj_succ, Z.pow_succ_r by lia.
    cbn [load_le store_le].
    rewrite IH.
    rewrite store_le_outside by lia.
    unfold upd. rewrite Z.eqb_refl.
    rewrite Z.mod_mod by lia.
    rewrite Z.rem_mul_r by lia. reflexivity.
Qed.

Lemma load_store_other (n n' : nat) (f : Z -> Z) (a a' v : Z) :
  a' + Z.of_nat n' <= a \/ a + Z.of_nat n <= a' ->
  load_le n' (store_le n f a v) a' = load_le n' f a'.
Proof.
  intro H. apply load_le_ext. intros x Hx.
  apply store_le_outside. lia.
Qed.

(** ** Doubles: the order is strict *)

Lemma SFltb_irrefl (x : spec_float) : SFltb x x = false.
Proof.
  unfold SFltb. destruct x as [s|s| |s m e]; cbn; try reflexivity.
  - now destruct s.
  - destruct s; rewrite Z.compare_refl;
      change (Pos.compare_cont Eq m m) with (Pos.compare m m);
      now rewrite Pos.compare_refl.
Qed.

Lemma SFltb_trans (x y z : spec_float) :
  SFltb x y = true -> SFltb y z = true -> SFltb x z = true.
Proof.
  unfold SFltb.
  destruct x as [sx|sx| |sx mx ex], y as [sy|sy| |sy my ey],
    z as [sz|sz| |sz mz ez]; cbn;
    try discriminate; try (destruct sx, sy, sz; cbn; congruence).
  change (Pos.compare_cont Eq mx my) with (Pos.compare mx my).
  change (Pos.compare_cont Eq my mz) with (Pos.compare my mz).
  change (Pos.compare_cont Eq mx mz) with (Pos.compare mx mz).
  destruct sx, sy, sz; cbn; try congruence;
    destruct (Z.compare_spec ex ey), (Z.compare_spec ey ez),
      (Z.compare_spec ex ez); try lia; try congruence;
    destruct (Pos.compare_spec mx my), (Pos.compare_spec my mz),
      (Pos.compare_spec mx mz); cbn; try lia; try congruence.
Qed.

Lemma double_lt_irrefl (a : Z) : double_lt a a = false.
Proof. apply SFltb_irrefl. Qed.

Lemma double_lt_trans (a b c : Z) :
  double_lt a b = true -> double_lt b c = true -> double_lt a c = true.
Proof. apply SFltb_trans. Qed.

(** ** The state monad *)

Lemma guint_small (x : Z) : 0 <= x < 2 ^ 32 -> guint x = x.
Proof. intro H. unfold guint. now apply Z.mod_small. Qed.

Lemma load_ok (n : nat) (a : Z) (m : mapping) :
  0 <= a -> a + Z.of_nat n <= extent m ->
  load n a m = Ok (load_le n (cells m) a, m).
Proof.
  intros H1 H2. unfold load, in_bounds.
  destruct (Z.leb_spec 0 a); [|lia].
  destruct (Z.leb_spec (a + Z.of_nat n) (extent m)); [|lia].
  reflexivity.
Qed.

Lemma store_ok (n : nat) (a v : Z) (m : mapping) :
  0 <= a -> a + Z.of_nat n <= extent m ->
  store n a v m = Ok (tt, {| cells := store_le n (cells m) a v;
                             extent := extent m; probed := probed m |}).
Proof.
  intros H1 H2. unfold store, in_bounds.
  destruct (Z.leb_spec 0 a); [|lia].
  destruct (Z.leb_spec (a + Z.of_nat n) (extent m)); [|lia].
  reflexivity.
Qed.

Lemma key_is_ok (c h1 h2 : Z) (m : mapping) :
  0 <= c -> c + sizeof_block <= extent m ->
  key_is c h1 h2 m = Ok (key_eqb (cells m) c h1 h2, m).
Proof.
  intros H1 H2. unfold key_is, bind, load_u32, key_eqb, hash1_at, hash2_at.
  unfold sizeof_block, off_hash1, off_hash2 in *.
  rewrite load_ok by (simpl; lia).
  destruct (load_le 4 (cells m) (c + 0) =? h1).
  - rewrite load_ok by (simpl; lia). reflexivity.
  - reflexivity.
Qed.

Lemma slot_offsets_S (c : Z) (k : nat) :
  slot_offsets c (S k) = c :: slot_offsets (c + sizeof_block) k.
Proof.
  unfold slot_offsets. cbn [seq List.map]. f_equal.
  - unfold sizeof_block. lia.
  - rewrite <- seq_shift, map_map. apply map_ext.
    intro j. unfold sizeof_block. lia.
Qed.

Lemma probed_step (c : Z) (k : nat) (l : list Z) :
  rev (slot_offsets (c + sizeof_block) k) ++ c :: l =
  rev (slot_offsets c (S k)) ++ l.
Proof.
  rewrite slot_offsets_S. cbn [rev]. now rewrite <- app_assoc.
Qed.

(** ** The chain loops *)

Section Chain.

Variables sect_len blocknum h1 h2 : Z.
Hypothesis blocknum_nonneg : 0 <= blocknum.
Hypothesis sect_len_guint : sect_len < 2 ^ 32.

(** The loop of get: it inspects [k] consecutive blocks and either returns
    the value of the last one, the first whose key matches, or returns 0
    having found no match up to the end of the chain. *)
Lemma get_chain_post (n : nat) :
  forall (i c : Z) (m : mapping),
    0 <= i -> i + blocknum <= sect_len ->
    0 <= c -> c + sizeof_block * (sect_len - (i + blocknum)) <= extent m ->
    exists (k : nat) (v : Z),
      (k <= n)%nat /\ i + blocknum + Z.of_nat k <= sect_len /\
      get_chain n sect_len blocknum h1 h2 i c m =
        Ok (v, {| cells := cells m; extent := extent m;
                  probed := rev (slot_offsets c k) ++ probed m |}) /\
      ((exists k', k = S k' /\
          (forall j, (j < k')%nat ->
             key_eqb (cells m) (c + sizeof_block * Z.of_nat j) h1 h2 = false) /\
          key_eqb (cells m) (c + sizeof_block * Z.of_nat k') h1 h2 = true /\
          v = value_at (cells m) (c + sizeof_block * Z.of_nat k'))
       \/
       ((forall j, (j < k)%nat ->
           key_eqb (cells m) (c + sizeof_block * Z.of_nat j) h1 h2 = false) /\
        v = 0 /\
        (k = n \/ i + blocknum + Z.of_nat k = sect_len))).
Proof.
  induction n as [|n' IH]; intros i c m Hi Hib Hc Hext.
  - exists O, 0. cbn. repeat split; try lia.
    + destruct m; reflexivity.
    + right. repeat split; try lia.
  - cbn [get_chain].
    rewrite guint_small by lia.
    rewrite Z.geb_leb.
    destruct (Z.leb_spec sect_len (i + blocknum)) as [Hge|Hlt].
    + exists O, 0. cbn. repeat split; try lia.
      * destruct m; reflexivity.
      * right. repeat split; try lia.
    + unfold bind at 1. unfold probe at 1.
      unfold bind at 1.
      rewrite key_is_ok by (cbn [extent]; layout_lia).
      cbn [cells].
      destruct (key_eqb (cells m) c h1 h2) eqn:Hkey.
      * exists 1%nat, (value_at (cells m) c).
        repeat split; try lia.
        -- unfold load_u64. rewrite load_ok
             by (cbn [extent]; unfold sizeof_block, off_value in *;
                 simpl Z.of_nat; lia).
           rewrite <- probed_step. reflexivity.
        -- left. exists O. repeat split.
           ++ intros j Hj. lia.
           ++ now replace (c + sizeof_block * Z.of_nat 0) with c
                by (unfold sizeof_block; lia).
           ++ now replace (c + sizeof_block * Z.of_nat 0) with c
                by (unfold sizeof_block; lia).
      * match goal with
        | |- context [get_chain n' _ _ _ _ _ _ ?m1] =>
            destruct (IH (i + 1) (c + sizeof_block) m1) as
              (k & v & Hk & Hin & Heq & Hres)
        end; try (cbn [extent]; layout_lia).
        exists (S k), v.
        split; [lia|]. split; [lia|]. split.
        -- rewrite Heq. cbn [cells extent probed].
           now rewrite probed_step.
        -- cbn [cells] in Hres.
           destruct Hres as [(k' & Hk' & Hbefore & Hhit & Hv)
                            |(Hnone & Hv & Hend)].
           ++ left. exists (S k'). split; [now subst|].
              replace (c + sizeof_block * Z.of_nat (S k'))
                with (c + sizeof_block + sizeof_block * Z.of_nat k')
                by (unfold sizeof_block; lia).
              repeat split; try assumption.
              intros j Hj. destruct j as [|j].
              ** now replace (c + sizeof_block * Z.of_nat 0) with c
                   by (unfold sizeof_block; lia).
              ** replace (c + sizeof_block * Z.of_nat (S j))
                   with (c + sizeof_block + sizeof_block * Z.of_nat j)
                   by (unfold sizeof_block; lia).
                 apply Hbefore. lia.
           ++ right. repeat split; try assumption; try lia.
              intros j Hj. destruct j as [|j].
              ** now replace (c + sizeof_block * Z.of_nat 0) with c
                   by (unfold sizeof_block; lia).
              ** replace (c + sizeof_block * Z.of_nat (S j))
                   with (c + sizeof_block + sizeof_block * Z.of_nat j)
                   by (unfold sizeof_block; lia).
                 apply Hnone. lia.
Qed.


Variable value : Z.

Lemma shift_block (c : Z) (j : nat) :
  c + sizeof_block * Z.of_nat (S j) =
  c + sizeof_block + sizeof_block * Z.of_nat j.
Proof. unfold sizeof_block. lia. Qed.

Lemma first_block (c : Z) : c + sizeof_block * Z.of_nat 0 = c.
Proof. unfold sizeof_block. lia. Qed.

Lemma all_shift (P : Z -> Prop) (c : Z) (k : nat) :
  P c ->
  (forall j, (j < k)%nat -> P (c + sizeof_block + sizeof_block * Z.of_nat j)) ->
  forall j, (j < S k)%nat -> P (c + sizeof_block * Z.of_nat j).
Proof.
  intros H0 Hs j Hj. destruct j as [|j].
  - now rewrite first_block.
  - rewrite shift_block. apply Hs. lia.
Qed.

(** The loop of set: it inspects [k] consecutive blocks; it returns at the
    first one that holds the key or is free, having written there, or it
    falls out of the chain with the candidate to expire, having written
    nothing. *)
Lemma set_chain_post (n : nat) :
  forall (i c : Z) (to_expire : option Z) (min : Z) (m : mapping),
    0 <= i -> i + blocknum <= sect_len ->
    off_used_blocks + 8 <= c ->
    c + sizeof_block * (sect_len - (i + blocknum)) <= extent m ->
    exists (k : nat) (e : chain_exit) (m' : mapping),
      (k <= n)%nat /\ i + blocknum + Z.of_nat k <= sect_len /\
      set_chain n sect_len blocknum h1 h2 value i c to_expire min m =
        Ok (e, m') /\
      extent m' = extent m /\
      probed m' = rev (slot_offsets c k) ++ probed m /\
      match e with
      | Returned =>
          exists k', k = S k' /\
            (forall j, (j < k')%nat ->
               occupied_by_other (cells m)
                 (c + sizeof_block * Z.of_nat j) h1 h2 = true) /\
            ((key_eqb (cells m) (c + sizeof_block * Z.of_nat k') h1 h2 = true /\
              cells m' =
                store_le 8 (cells m)
                  (c + sizeof_block * Z.of_nat k' + off_value) value)
             \/
             (key_eqb (cells m) (c + sizeof_block * Z.of_nat k') h1 h2 = false /\
              key_eqb (cells m) (c + sizeof_block * Z.of_nat k') 0 0 = true /\
              cells m' =
                used_incremented
                  (block_written (cells m)
                     (c + sizeof_block * Z.of_nat k') h1 h2 value)))
      | Expire te =>
          cells m' = cells m /\
          (forall j, (j < k)%nat ->
             occupied_by_other (cells m)
               (c + sizeof_block * Z.of_nat j) h1 h2 = true) /\
          (k = n \/ i + blocknum + Z.of_nat k = sect_len) /\
          te = fst (expire_scan k (cells m) c to_expire min)
      end.
Proof.
  induction n as [|n' IH]; intros i c te min m Hi Hib Hc Hext.
  - exists O, (Expire te), m. cbn.
    repeat split; try lia.
  - cbn [set_chain].
    rewrite guint_small by lia.
    rewrite Z.geb_leb.
    destruct (Z.leb_spec sect_len (i + blocknum)) as [Hge|Hlt].
    + exists O, (Expire te), m. cbn.
      repeat split; try lia.
    + assert (Hin : c + sizeof_block <= extent m)
        by (layout_lia).
      assert (Hc0 : 0 <= c) by (unfold off_used_blocks in Hc; lia).
      unfold bind at 1. unfold probe at 1.
      unfold bind at 1.
      rewrite key_is_ok by (cbn [extent]; assumption).
      cbn [cells].
      destruct (key_eqb (cells m) c h1 h2) eqn:Hkey.
      * (* the key is here *)
        unfold bind at 1. unfold store_u64.
        rewrite store_ok
          by (cbn [extent]; unfold sizeof_block, off_value in *;
              simpl Z.of_nat; lia).
        eexists 1%nat, Returned, _.
        split; [lia|]. split; [lia|]. split; [reflexivity|].
        cbn [extent cells probed]. split; [reflexivity|].
        split; [now rewrite <- probed_step|].
        exists O. split; [reflexivity|]. split; [intros j Hj; lia|].
        left. rewrite first_block. now split.
      * unfold bind at 1.
        rewrite key_is_ok by (cbn [extent]; assumption).
        cbn [cells].
        destruct (key_eqb (cells m) c 0 0) eqn:Hfree.
        -- (* a free block *)
           unfold bind at 1. unfold store_u32.
           rewrite store_ok
             by (cbn [extent]; unfold sizeof_block, off_hash1 in *;
                 simpl Z.of_nat; lia).
           unfold bind at 1.
           rewrite store_ok
             by (cbn [extent]; unfold sizeof_block, off_hash2 in *;
                 simpl Z.of_nat; lia).
           unfold bind at 1. unfold store_u64.
           rewrite store_ok
             by (cbn [extent]; unfold sizeof_block, off_value in *;
                 simpl Z.of_nat; lia).
           unfold bind at 1. unfold load_u64.
           rewrite load_ok
             by (cbn [extent]; unfold sizeof_block, off_used_blocks in *;
                 simpl Z.of_nat; lia).
           unfold bind at 1.
           rewrite store_ok
             by (cbn [extent]; unfold sizeof_block, off_used_blocks in *;
                 simpl Z.of_nat; lia).
           eexists 1%nat, Returned, _.
           split; [lia|]. split; [lia|]. split; [reflexivity|].
           cbn [extent cells probed]. split; [reflexivity|].
           split; [now rewrite <- probed_step|].
           exists O. split; [reflexivity|]. split; [intros j Hj; lia|].
           right. rewrite first_block. repeat split; assumption.
        -- (* an occupied block *)
           assert (Hocc : occupied_by_other (cells m) c h1 h2 = true)
             by (unfold occupied_by_other; now rewrite Hkey, Hfree).
           unfold bind at 1. unfold load_u64.
           rewrite load_ok
             by (cbn [extent]; unfold sizeof_block, off_value in *;
                 simpl Z.of_nat; lia).
           cbn [cells].
           change (load_le 8 (cells m) (c + off_value))
             with (value_at (cells m) c).
           destruct (double_lt (value_at (cells m) c) min) eqn:Hdl;
             match goal with
             | |- context [set_chain n' _ _ _ _ _ _ _ ?t ?mn ?m1] =>
                 destruct (IH (i + 1) (c + sizeof_block) t mn m1)
                   as (k & e & m' & Hk & Hik & Heq & Hex & Hpr & Hpost);
                 try (cbn [extent]; layout_lia)
             end;
             (exists (S k), e, m';
              split; [lia|]; split; [lia|]; split; [exact Heq|];
              split; [exact Hex|];
              split; [rewrite Hpr; cbn [probed]; apply probed_step|];
              cbn [cells] in Hpost;
              destruct e as [|te'];
              [ destruct Hpost as (k' & Hk' & Hbefore & Hcase);
                exists (S k'); split; [now subst|];
                split;
                  [exact (all_shift
                            (fun x => occupied_by_other (cells m) x h1 h2 = true)
                            c k' Hocc Hbefore)|];
                rewrite shift_block; exact Hcase
              | destruct Hpost as (Hcells & Hall & Hend & Hte);
                split; [exact Hcells|];
                split;
                  [exact (all_shift
                            (fun x => occupied_by_other (cells m) x h1 h2 = true)
                            c k Hocc Hall)|];
                split; [lia|];
                cbn [expire_scan]; rewrite Hdl; exact Hte ]).
Qed.

End Chain.

(** ** The candidate to expire *)

Lemma double_lt_asym (a b : Z) :
  double_lt a b = true -> double_lt b a = false.
Proof.
  intro H. destruct (double_lt b a) eqn:E; [|reflexivity].
  pose proof (double_lt_trans _ _ _ H E) as Hc.
  rewrite double_lt_irrefl in Hc. discriminate.
Qed.

(** After the scan no passed block has a value below the minimum kept, the
    minimum kept is not above the initial one, and either nothing was
    chosen or the chosen block holds the minimum kept, which is below the
    initial one. *)
Lemma expire_scan_min (k : nat) :
  forall (f : Z -> Z) (c : Z) (te : option Z) (min : Z),
    (forall j, (j < k)%nat ->
       double_lt (value_at f (c + sizeof_block * Z.of_nat j))
         (snd (expire_scan k f c te min)) = false) /\
    double_lt min (snd (expire_scan k f c te min)) = false /\
    ((fst (expire_scan k f c te min) = te /\
      snd (expire_scan k f c te min) = min)
     \/
     (exists j, (j < k)%nat /\
        fst (expire_scan k f c te min) =
          Some (c + sizeof_block * Z.of_nat j) /\
        snd (expire_scan k f c te min) =
          value_at f (c + sizeof_block * Z.of_nat j) /\
        double_lt (snd (expire_scan k f c te min)) min = true)).
Proof.
  induction k as [|k IH]; intros f c te min.
  - cbn. split; [intros j Hj; lia|]. split; [apply double_lt_irrefl|].
    now left.
  - cbn [expire_scan].
    destruct (double_lt (value_at f c) min) eqn:Hlt.
    + destruct (IH f (c + sizeof_block) (Some c) (value_at f c))
        as (Hlow & Hle & Hsel).
      set (r := expire_scan k f (c + sizeof_block) (Some c) (value_at f c))
        in *.
      split; [|split].
      * exact (all_shift (fun x => double_lt (value_at f x) (snd r) = false)
                 c k Hle Hlow).
      * destruct Hsel as [(_ & Hs)|(j & _ & _ & _ & Hs)].
        -- rewrite Hs. now apply double_lt_asym.
        -- apply double_lt_asym.
           exact (double_lt_trans _ _ _ Hs Hlt).
      * right. destruct Hsel as [(Hf & Hs)|(j & Hj & Hf & Hs & Hb)].
        -- exists O. split; [lia|]. rewrite first_block.
           rewrite Hf, Hs. now repeat split.
        -- exists (S j). split; [lia|]. rewrite shift_block.
           split; [exact Hf|]. split; [exact Hs|].
           exact (double_lt_trans _ _ _ Hb Hlt).
    + destruct (IH f (c + sizeof_block) te min) as (Hlow & Hle & Hsel).
      set (r := expire_scan k f (c + sizeof_block) te min) in *.
      assert (H0 : double_lt (value_at f c) (snd r) = false).
      { destruct Hsel as [(_ & Hs)|(j & _ & _ & _ & Hs)].
        - now rewrite Hs.
        - destruct (double_lt (value_at f c) (snd r)) eqn:E; [|reflexivity].
          rewrite (double_lt_trans _ _ _ E Hs) in Hlt. discriminate. }
      split; [|split].
      * exact (all_shift (fun x => double_lt (value_at f x) (snd r) = false)
                 c k H0 Hlow).
      * exact Hle.
      * destruct Hsel as [Hsame|(j & Hj & Hf & Hs & Hb)].
        -- now left.
        -- right. exists (S j). split; [lia|]. rewrite shift_block.
           now repeat split.
Qed.

(** ** What a write of a block leaves behind *)

Lemma block_written_hash1 (f : Z -> Z) (c h1 h2 v : Z) :
  is_guint32 h1 -> hash1_at (block_written f c h1 h2 v) c = h1.
Proof.
  intro H. unfold hash1_at, block_written, off_hash1, off_hash2, off_value.
  rewrite !load_store_other by (simpl Z.of_nat; lia).
  rewrite load_store_same. apply Z.mod_small. exact H.
Qed.

Lemma block_written_hash2 (f : Z -> Z) (c h1 h2 v : Z) :
  is_guint32 h2 -> hash2_at (block_written f c h1 h2 v) c = h2.
Proof.
  intro H. unfold hash2_at, block_written, off_hash1, off_hash2, off_value.
  rewrite !load_store_other by (simpl Z.of_nat; lia).
  rewrite load_store_same. apply Z.mod_small. exact H.
Qed.

Lemma block_written_value (f : Z -> Z) (c h1 h2 v : Z) :
  is_guint64 v -> value_at (block_written f c h1 h2 v) c = v.
Proof.
  intro H. unfold value_at, block_written.
  rewrite load_store_same. apply Z.mod_small. exact H.
Qed.

Lemma block_written_outside (f : Z -> Z) (c h1 h2 v x : Z) :
  x < c \/ c + sizeof_block <= x -> block_written f c h1 h2 v x = f x.
Proof.
  intro H. unfold block_written, sizeof_block, off_hash1, off_hash2,
    off_value in *.
  rewrite !store_le_outside by (simpl Z.of_nat; lia). reflexivity.
Qed.

Lemma stored_at_evicted (f : Z -> Z) (c h1 h2 v : Z) :
  is_guint32 h1 -> is_guint32 h2 -> is_guint64 v ->
  stored_at f (block_written f c h1 h2 v) c h1 h2 v.
Proof.
  intros H1 H2 Hv. unfold stored_at.
  rewrite block_written_hash1, block_written_hash2, block_written_value
    by assumption.
  repeat split. intros x Hx _. now apply block_written_outside.
Qed.

Lemma stored_at_inserted (f : Z -> Z) (c h1 h2 v : Z) :
  is_guint32 h1 -> is_guint32 h2 -> is_guint64 v ->
  off_used_blocks + 8 <= c ->
  stored_at f (used_incremented (block_written f c h1 h2 v)) c h1 h2 v.
Proof.
  intros H1 H2 Hv Hc.
  destruct (stored_at_evicted f c h1 h2 v H1 H2 Hv) as (E1 & E2 & E3 & E4).
  unfold stored_at, used_incremented, hash1_at, hash2_at, value_at in *.
  unfold off_hash1, off_hash2, off_value, off_used_blocks, sizeof_block in *.
  rewrite !load_store_other by (simpl Z.of_nat; lia).
  repeat split; try assumption.
  intros x Hx Hh. rewrite store_le_outside by (simpl Z.of_nat; lia).
  apply E4; lia.
Qed.

Lemma stored_at_updated (f : Z -> Z) (c h1 h2 v : Z) :
  is_guint64 v -> key_eqb f c h1 h2 = true ->
  stored_at f (store_le 8 f (c + off_value) v) c h1 h2 v.
Proof.
  intros Hv Hkey. unfold key_eqb in Hkey.
  apply andb_prop in Hkey. destruct Hkey as [K1 K2].
  apply Z.eqb_eq in K1, K2.
  unfold stored_at, hash1_at, hash2_at, value_at in *.
  unfold off_hash1, off_hash2, off_value, sizeof_block in *.
  rewrite !load_store_other by (simpl Z.of_nat; lia).
  rewrite load_store_same.
  repeat split; try assumption.
  - apply Z.mod_small. exact Hv.
  - intros x Hx _. apply store_le_outside. simpl Z.of_nat. lia.
Qed.

(** A block away from the written one and from the header is unchanged. *)
Lemma stored_at_other (f f' : Z -> Z) (c h1 h2 v c' k1 k2 : Z) :
  stored_at f f' c h1 h2 v ->
  off_used_blocks + 8 <= c' ->
  c' + sizeof_block <= c \/ c + sizeof_block <= c' ->
  key_eqb f' c' k1 k2 = key_eqb f c' k1 k2 /\
  value_at f' c' = value_at f c'.
Proof.
  intros (_ & _ & _ & Hframe) Hc' Hdis.
  unfold key_eqb, hash1_at, hash2_at, value_at.
  unfold off_hash1, off_hash2, off_value, off_used_blocks, sizeof_block in *.
  rewrite (load_le_ext 4 f' f (c' + 0)),
          (load_le_ext 4 f' f (c' + 4)),
          (load_le_ext 8 f' f (c' + 8));
    try (intros x Hx; apply Hframe; simpl Z.of_nat in Hx; lia).
  now split.
Qed.

(** ** The effect of set on a mapping *)

Lemma write_block_ok (c h1 h2 v : Z) (m : mapping) :
  0 <= c -> c + sizeof_block <= extent m ->
  write_block c h1 h2 v m =
    Ok (tt, {| cells := block_written (cells m) c h1 h2 v;
               extent := extent m; probed := probed m |}).
Proof.
  intros H0 H1. unfold write_block, store_u32, store_u64.
  unfold sizeof_block, off_hash1, off_hash2, off_value in *.
  unfold bind.
  rewrite store_ok by (simpl Z.of_nat; lia).
  rewrite store_ok by (cbn [extent]; simpl Z.of_nat; lia).
  rewrite store_ok by (cbn [extent]; simpl Z.of_nat; lia).
  reflexivity.
Qed.

(** The body of set on a section of [sect_len] blocks at [seekpos]. *)
Lemma set_block_body_post (sect_len seekpos h1 h2 value : Z) (m : mapping) :
  0 < sect_len < 2 ^ 32 ->
  off_used_blocks + 8 <= seekpos ->
  seekpos + sect_len * sizeof_block <= extent m ->
  is_guint32 h1 -> is_guint32 h2 -> is_guint64 value ->
  let base := seekpos + h1 mod sect_len * sizeof_block in
  let K := Z.to_nat (Z.min (Z.of_nat CHAIN_LENGTH)
                       (sect_len - h1 mod sect_len)) in
  exists (k j : nat) (m' : mapping),
    set_block_body sect_len seekpos h1 h2 value m = Ok (tt, m') /\
    extent m' = extent m /\
    probed m' = rev (slot_offsets base k) ++ probed m /\
    set_effect (cells m) base K h1 h2 value k j (cells m').
Proof.
  intros Hlen Hseek Hext H1 H2 Hv base K. unfold set_effect.
  set (blk := fun j : nat => base + sizeof_block * Z.of_nat j).
  pose proof (Z.mod_pos_bound h1 sect_len ltac:(lia)) as Hmod.
  assert (HK : Z.of_nat K = Z.min 128 (sect_len - h1 mod sect_len))
    by (subst K; unfold CHAIN_LENGTH; rewrite Z2Nat.id; lia).
  unfold set_block_body.
  rewrite guint_small by lia.
  fold base.
  destruct (set_chain_post sect_len (h1 mod sect_len) h1 h2
              ltac:(lia) ltac:(lia) value CHAIN_LENGTH 0 base None
              G_MAXDOUBLE m)
    as (k & e & m1 & Hk & Hik & Heq & Hex & Hpr & Hpost);
    try (subst base; layout_lia).
  unfold bind at 1. rewrite Heq.
  assert (HkK : (k <= K)%nat) by (unfold CHAIN_LENGTH in Hk; lia).
  destruct e as [|te].
  - destruct Hpost as (j & Hkj & Hbefore & Hcase).
    exists k, j, m1.
    split; [reflexivity|]. split; [exact Hex|]. split; [exact Hpr|].
    split; [lia|]. split; [lia|]. split; [exact Hbefore|].
    destruct Hcase as [(Hkey & Hcells)|(Hkey & Hfree & Hcells)].
    + split.
      * rewrite Hcells. now apply stored_at_updated.
      * left. now repeat split.
    + split.
      * rewrite Hcells. apply stored_at_inserted; try assumption.
        subst blk base; cbv beta.
        layout_lia.
      * right; left. now repeat split.
  - destruct Hpost as (Hcells & Hall & Hend & Hte).
    assert (HkK' : k = K) by (unfold CHAIN_LENGTH in *; lia).
    subst k.
    destruct (expire_scan_min K (cells m) base None G_MAXDOUBLE)
      as (Hlow & _ & Hsel).
    assert (Hwrite : forall j : nat, (j < K)%nat ->
              write_block (blk j) h1 h2 value m1 =
                Ok (tt, {| cells := block_written (cells m) (blk j) h1 h2 value;
                           extent := extent m1; probed := probed m1 |})).
    { intros j Hj. rewrite write_block_ok.
      - now rewrite Hcells.
      - subst blk base. cbv beta.
        layout_lia.
      - rewrite Hex. subst blk base. cbv beta.
        layout_lia. }
    destruct Hsel as [(Hf & Hs)|(j & Hj & Hf & Hs & Hb)].
    + (* nothing chosen: the first block of the chain *)
      rewrite Hte, Hf.
      assert (H0 : (0 < K)%nat) by lia.
      exists K, O. eexists.
      split.
      { replace base with (blk O) at 1
          by (subst blk; cbv beta; apply first_block).
        apply (Hwrite O H0). }
      cbn [extent probed cells].
      split; [exact Hex|]. split; [exact Hpr|].
      split; [lia|]. split; [lia|].
      split; [intros j' Hj'; lia|].
      split; [now apply stored_at_evicted|].
      right; right. split; [reflexivity|]. split; [exact Hall|].
      split; [reflexivity|].
      right. split; [reflexivity|]. split; [reflexivity|].
      intros j' Hj'. specialize (Hlow j' Hj'). now rewrite Hs in Hlow.
    + rewrite Hte, Hf.
      exists K, j. eexists.
      split; [apply (Hwrite j Hj)|].
      cbn [extent probed cells].
      split; [exact Hex|]. split; [exact Hpr|].
      split; [lia|]. split; [lia|].
      split; [intros j' Hj'; apply Hall; lia|].
      split; [now apply stored_at_evicted|].
      right; right. split; [reflexivity|]. split; [exact Hall|].
      split; [reflexivity|].
      left. split; [reflexivity|].
      split; [rewrite Hs in Hb; exact Hb|].
      intros j' Hj'. specialize (Hlow j' Hj'). now rewrite Hs in Hlow.
Qed.

(** ** get and set on a valid handle *)

Lemma get_block_post (file : rspamd_mmaped_file_t) (m : mapping)
  (h1 h2 now : Z) :
  valid_handle file m ->
  exists (k : nat) (v : Z),
    statfile_pool_get_block file h1 h2 now =
      Ok (v, set_map (set_access_time file now)
               (Some (inspected m (chain_base file h1) k))) /\
    get_result (cells m) (chain_base file h1) (chain_slots file h1) h1 h2 k v.
Proof.
  intros (Hmap & Hlen & Hseek & Hext).
  pose proof (Z.mod_pos_bound h1 (length (cur_section file)) ltac:(lia))
    as Hmod.
  unfold statfile_pool_get_block. cbn [map set_access_time cur_section seek_pos].
  rewrite Hmap.
  destruct (Z.eqb_spec (length (cur_section file)) 0) as [E|_]; [lia|].
  rewrite guint_small by lia.
  destruct (get_chain_post (length (cur_section file))
              (h1 mod length (cur_section file)) h1 h2
              ltac:(lia) ltac:(lia) CHAIN_LENGTH 0
              (seek_pos file + h1 mod length (cur_section file) * sizeof_block)
              m)
    as (k & v & Hk & Hik & Heq & Hres);
    try (layout_lia).
  rewrite Heq. exists k, v. split; [reflexivity|].
  unfold get_result, chain_base, chain_slots, slot0, CHAIN_LENGTH in *.
  split; [lia|].
  destruct Hres as [Hhit|(Hnone & Hv & Hend)].
  - now left.
  - right. repeat split; try assumption. lia.
Qed.

Lemma set_block_common_post (file : rspamd_mmaped_file_t) (m : mapping)
  (h1 h2 t value : Z) (from_now : bool) :
  valid_handle file m ->
  is_guint32 h1 -> is_guint32 h2 -> is_guint64 value ->
  exists (k j : nat) (m' : mapping),
    statfile_pool_set_block_common file h1 h2 t value from_now =
      Ok (set_map (if from_now then set_access_time file t else file)
            (Some m')) /\
    extent m' = extent m /\
    probed m' = rev (slot_offsets (chain_base file h1) k) ++ probed m /\
    set_effect (cells m) (chain_base file h1) (chain_slots file h1)
      h1 h2 value k j (cells m').
Proof.
  intros (Hmap & Hlen & Hseek & Hext) H1 H2 Hv.
  destruct (set_block_body_post (length (cur_section file)) (seek_pos file)
              h1 h2 value m)
    as (k & j & m' & Heq & Hex & Hpr & Heff);
    try assumption;
    try (layout_lia).
  exists k, j, m'.
  split; [|split; [exact Hex|split; [exact Hpr|exact Heff]]].
  unfold statfile_pool_set_block_common.
  destruct from_now; cbn [map set_access_time cur_section seek_pos];
    rewrite Hmap;
    (destruct (Z.eqb_spec (length (cur_section file)) 0) as [E|_]; [lia|]);
    now rewrite Heq.
Qed.

Lemma valid_handle_set_map (file : rspamd_mmaped_file_t) (m m' : mapping) :
  valid_handle file m -> extent m' = extent m ->
  valid_handle (set_map file (Some m')) m'.
Proof.
  intros (Hmap & Hlen & Hseek & Hext) Hex.
  unfold valid_handle. cbn [map set_map cur_section seek_pos].
  rewrite Hex. now repeat split.
Qed.

Lemma valid_handle_set_access_time (file : rspamd_mmaped_file_t)
  (m : mapping) (t : Z) :
  valid_handle file m -> valid_handle (set_access_time file t) m.
Proof. intro H. exact H. Qed.

Lemma occupied_not_key (f : Z -> Z) (c h1 h2 : Z) :
  occupied_by_other f c h1 h2 = true -> key_eqb f c h1 h2 = false.
Proof.
  unfold occupied_by_other. intro H. apply andb_prop in H.
  destruct H as [H _]. now apply negb_true_iff in H.
Qed.

Lemma occupied_not_free (f : Z -> Z) (c h1 h2 : Z) :
  occupied_by_other f c h1 h2 = true -> key_eqb f c 0 0 = false.
Proof.
  unfold occupied_by_other. intro H. apply andb_prop in H.
  destruct H as [_ H]. now apply negb_true_iff in H.
Qed.

Lemma stored_at_key (f f' : Z -> Z) (c h1 h2 v : Z) :
  stored_at f f' c h1 h2 v -> key_eqb f' c h1 h2 = true.
Proof.
  intros (E1 & E2 & _). unfold key_eqb. rewrite E1, E2.
  now rewrite !Z.eqb_refl.
Qed.

(** After set, get finds the value set. *)
Lemma get_result_after_set (f f' : Z -> Z) (base : Z) (K : nat)
  (h1 h2 value : Z) (k j k' : nat) (v : Z) :
  off_used_blocks + 8 <= base ->
  set_effect f base K h1 h2 value k j f' ->
  get_result f' base K h1 h2 k' v ->
  v = value.
Proof.
  intros Hbase (Hk & Hj & Hbefore & Hst & _) (Hk' & Hres).
  assert (Hkey : key_eqb f' (base + sizeof_block * Z.of_nat j) h1 h2 = true)
    by exact (stored_at_key _ _ _ _ _ _ Hst).
  assert (Hold : forall j', (j' < j)%nat ->
            key_eqb f' (base + sizeof_block * Z.of_nat j') h1 h2 = false).
  { intros j' Hj'.
    destruct (stored_at_other f f' _ h1 h2 value
                (base + sizeof_block * Z.of_nat j') h1 h2 Hst) as [E _].
    - unfold sizeof_block. lia.
    - left. unfold sizeof_block. lia.
    - rewrite E. apply occupied_not_key. now apply Hbefore. }
  destruct Hres as [(k'' & Hk'' & Hnone & Hhit & Hv)|(Hnone & _ & HK)].
  - destruct (Nat.lt_trichotomy k'' j) as [Hlt|[Heq|Hgt]].
    + rewrite (Hold k'' Hlt) in Hhit. discriminate.
    + subst k''. rewrite Hv. now destruct Hst as (_ & _ & E & _).
    + rewrite (Hnone j Hgt) in Hkey. discriminate.
  - rewrite (Hnone j ltac:(lia)) in Hkey. discriminate.
Qed.

Lemma get_after_set (file : rspamd_mmaped_file_t) (m : mapping)
  (h1 h2 t value now : Z) (from_now : bool) :
  valid_handle file m ->
  is_guint32 h1 -> is_guint32 h2 -> is_guint64 value ->
  exists file' file'' : rspamd_mmaped_file_t,
    statfile_pool_set_block_common file h1 h2 t value from_now = Ok file' /\
    statfile_pool_get_block file' h1 h2 now = Ok (value, file'').
Proof.
  intros Hvalid H1 H2 Hv.
  destruct (set_block_common_post file m h1 h2 t value from_now
              Hvalid H1 H2 Hv)
    as (k & j & m' & Hset & Hex & _ & Heff).
  set (file0 := if from_now then set_access_time file t else file) in *.
  assert (Hvalid0 : valid_handle file0 m) by (subst file0; now destruct from_now).
  pose proof (valid_handle_set_map file0 m m' Hvalid0 Hex) as Hvalid'.
  destruct (get_block_post _ m' h1 h2 now Hvalid') as (k' & v & Hget & Hres).
  assert (Hsame : chain_base (set_map file0 (Some m')) h1 = chain_base file h1
                  /\ chain_slots (set_map file0 (Some m')) h1 =
                     chain_slots file h1)
    by (subst file0; now destruct from_now).
  destruct Hsame as [Eb Es]. rewrite Eb, Es in Hres.
  assert (v = value).
  { eapply get_result_after_set; [|exact Heff|exact Hres].
    destruct Hvalid as (_ & Hlen & Hseek & _).
    pose proof (Z.mod_pos_bound h1 (length (cur_section file)) ltac:(lia)).
    unfold chain_base, slot0, sizeof_header, sizeof_section, sizeof_block,
      off_used_blocks in *. lia. }
  subst v. eexists _, _. split; [exact Hset|exact Hget].
Qed.

(** ** The block table: round trip, chain bound, eviction *)

(** C1.  Round trip: on a valid handle, after set of a non-zero key
    [(h1, h2)] to [value], with the key or a free block still in its chain,
    get of the same key returns exactly [value].  (By [get_after_set] the
    two conditions on the key and the chain are not needed for this.) *)
Theorem roundtrip (file : rspamd_mmaped_file_t) (m : mapping)
  (h1 h2 t value now : Z) (from_now : bool) :
  valid_handle file m ->
  is_guint32 h1 -> is_guint32 h2 -> is_guint64 value ->
  (h1, h2) <> (0, 0) ->
  chain_has_room (cells m) (chain_base file h1) (chain_slots file h1) h1 h2 ->
  exists file' file'' : rspamd_mmaped_file_t,
    statfile_pool_set_block_common file h1 h2 t value from_now = Ok file' /\
    statfile_pool_get_block file' h1 h2 now = Ok (value, file'').
Proof.
  intros Hvalid H1 H2 Hv _ _. now apply (get_after_set file m).
Qed.

Lemma sample_file_valid (f : Z -> Z) (n : Z) :
  0 < n < 2 ^ 32 -> valid_handle (sample_file f n) (sample_mapping f n).
Proof.
  intro Hn. unfold valid_handle, sample_file, sample_mapping.
  cbn [map cur_section length seek_pos extent].
  unfold sizeof_block. repeat split; try reflexivity; lia.
Defined.

Lemma roundtrip_witness :
  valid_handle (sample_file (fun _ => 0) 4079)
    (sample_mapping (fun _ => 0) 4079) /\
  chain_has_room (fun _ => 0)
    (chain_base (sample_file (fun _ => 0) 4079) 0x11111111)
    (chain_slots (sample_file (fun _ => 0) 4079) 0x11111111)
    0x11111111 0x22222222 /\
  exists file' file'' : rspamd_mmaped_file_t,
    statfile_pool_set_block_common (sample_file (fun _ => 0) 4079)
      0x11111111 0x22222222 0 double_1_5 true = Ok file' /\
    statfile_pool_get_block file' 0x11111111 0x22222222 0 =
      Ok (double_1_5, file'').
Proof.
  assert (Hv : valid_handle (sample_file (fun _ => 0) 4079)
                 (sample_mapping (fun _ => 0) 4079))
    by (apply sample_file_valid; lia).
  assert (Hr : chain_has_room (fun _ => 0)
                 (chain_base (sample_file (fun _ => 0) 4079) 0x11111111)
                 (chain_slots (sample_file (fun _ => 0) 4079) 0x11111111)
                 0x11111111 0x22222222)
    by (exists O; split; [vm_compute; lia | right; reflexivity]).
  split; [exact Hv|]. split; [exact Hr|].
  apply (roundtrip _ _ 0x11111111 0x22222222 0 double_1_5 0 true Hv);
    try (unfold is_guint32, is_guint64, double_1_5; lia);
    [discriminate | exact Hr].
Defined.

Lemma slot_offsets_nth (k : nat) :
  forall (c : Z) (j : nat),
    (j < k)%nat -> nth j (slot_offsets c k) 0 = c + sizeof_block * Z.of_nat j.
Proof.
  induction k as [|k IH]; intros c j H; [lia|].
  rewrite slot_offsets_S. destruct j as [|j]; cbn [nth].
  - now rewrite first_block.
  - rewrite IH by lia. now rewrite shift_block.
Qed.

(** C2.  Chain bound: on a valid handle both get and set return, having
    inspected [k] blocks with k <= 128 and slot0 + k <= section_length,
    where slot0 = h1 mod section_length: the blocks of the consecutive
    slots slot0, slot0 + 1, ..., slot0 + k - 1, in this order. *)
Theorem chain_bound (file : rspamd_mmaped_file_t) (m : mapping)
  (h1 h2 t value now : Z) (from_now : bool) :
  valid_handle file m ->
  is_guint32 h1 -> is_guint32 h2 -> is_guint64 value ->
  (exists (k : nat) (v : Z) (file' : rspamd_mmaped_file_t) (m' : mapping),
     statfile_pool_get_block file h1 h2 now = Ok (v, file') /\
     map file' = Some m' /\
     probed m' = rev (slot_offsets (chain_base file h1) k) ++ probed m /\
     (k <= CHAIN_LENGTH)%nat /\
     slot0 file h1 + Z.of_nat k <= length (cur_section file) /\
     forall j, (j < k)%nat ->
       nth j (slot_offsets (chain_base file h1) k) 0 =
       seek_pos file + (slot0 file h1 + Z.of_nat j) * sizeof_block)
  /\
  (exists (k : nat) (file' : rspamd_mmaped_file_t) (m' : mapping),
     statfile_pool_set_block_common file h1 h2 t value from_now = Ok file' /\
     map file' = Some m' /\
     probed m' = rev (slot_offsets (chain_base file h1) k) ++ probed m /\
     (k <= CHAIN_LENGTH)%nat /\
     slot0 file h1 + Z.of_nat k <= length (cur_section file) /\
     forall j, (j < k)%nat ->
       nth j (slot_offsets (chain_base file h1) k) 0 =
       seek_pos file + (slot0 file h1 + Z.of_nat j) * sizeof_block).
Proof.
  intros Hvalid H1 H2 Hv.
  assert (Hslots : forall k : nat, (k <= chain_slots file h1)%nat ->
            (k <= CHAIN_LENGTH)%nat /\
            slot0 file h1 + Z.of_nat k <= length (cur_section file)).
  { intros k Hk. destruct Hvalid as (_ & Hlen & _).
    pose proof (Z.mod_pos_bound h1 (length (cur_section file)) ltac:(lia)).
    unfold chain_slots, slot0, CHAIN_LENGTH in *. lia. }
  assert (Hnth : forall k j : nat, (j < k)%nat ->
            nth j (slot_offsets (chain_base file h1) k) 0 =
            seek_pos file + (slot0 file h1 + Z.of_nat j) * sizeof_block).
  { intros k j Hj. rewrite slot_offsets_nth by exact Hj.
    unfold chain_base, sizeof_block. lia. }
  split.
  - destruct (get_block_post file m h1 h2 now Hvalid)
      as (k & v & Hget & Hk & _).
    exists k, v. eexists _, _. split; [exact Hget|].
    split; [reflexivity|]. split; [reflexivity|].
    destruct (Hslots k Hk). repeat split; try assumption. now apply Hnth.
  - destruct (set_block_common_post file m h1 h2 t value from_now
                Hvalid H1 H2 Hv)
      as (k & j & m' & Hset & _ & Hpr & (Hk & _)).
    exists k. eexists _, m'. split; [exact Hset|].
    split; [reflexivity|]. split; [exact Hpr|].
    destruct (Hslots k ltac:(lia)). repeat split; try assumption.
    now apply Hnth.
Qed.

Lemma chain_bound_witness :
  valid_handle (sample_file two_small_blocks 2)
    (sample_mapping two_small_blocks 2) /\
  (exists (k : nat) (v : Z) (file' : rspamd_mmaped_file_t) (m' : mapping),
     statfile_pool_get_block (sample_file two_small_blocks 2) 6 9 0 =
       Ok (v, file') /\
     map file' = Some m' /\
     probed m' =
       rev (slot_offsets (chain_base (sample_file two_small_blocks 2) 6) k)
       ++ [] /\
     (k <= CHAIN_LENGTH)%nat /\
     slot0 (sample_file two_small_blocks 2) 6 + Z.of_nat k <= 2).
Proof.
  assert (Hv : valid_handle (sample_file two_small_blocks 2)
                 (sample_mapping two_small_blocks 2))
    by (apply sample_file_valid; lia).
  split; [exact Hv|].
  destruct (chain_bound _ _ 6 9 0 double_1_0 0 false Hv)
    as [(k & v & file' & m' & Hget & Hmap & Hpr & Hk & Hs & _) _];
    try (unfold is_guint32, is_guint64, double_1_0; lia).
  exists k, v, file', m'. repeat split; assumption.
Defined.

(** C3 (as amended).  Eviction on a full chain: when every block of the
    chain of [h1] is occupied by another key, set overwrites one block of
    the chain with [(h1, h2, value)] and changes nothing else.  If some
    block of the chain has a value below G_MAXDOUBLE, the block overwritten
    holds a minimum value of the chain; otherwise it is the first block of
    the chain.  Afterwards get finds the new key, and the block overwritten
    no longer holds its former key.  The chain always has a first block to
    inspect, since slot0 < section_length. *)
Theorem eviction (file : rspamd_mmaped_file_t) (m : mapping)
  (h1 h2 t value now : Z) (from_now : bool) :
  valid_handle file m ->
  is_guint32 h1 -> is_guint32 h2 -> is_guint64 value ->
  chain_full (cells m) (chain_base file h1) (chain_slots file h1) h1 h2 ->
  (0 < chain_slots file h1)%nat /\
  exists (j : nat) (file' file'' : rspamd_mmaped_file_t) (m' : mapping),
    statfile_pool_set_block_common file h1 h2 t value from_now = Ok file' /\
    map file' = Some m' /\
    (j < chain_slots file h1)%nat /\
    cells m' = block_written (cells m) (chain_block file h1 j) h1 h2 value /\
    ((double_lt (value_at (cells m) (chain_block file h1 j)) G_MAXDOUBLE
        = true /\
      forall j', (j' < chain_slots file h1)%nat ->
        double_lt (value_at (cells m) (chain_block file h1 j'))
          (value_at (cells m) (chain_block file h1 j)) = false)
     \/
     (j = O /\
      forall j', (j' < chain_slots file h1)%nat ->
        double_lt (value_at (cells m) (chain_block file h1 j'))
          G_MAXDOUBLE = false)) /\
    statfile_pool_get_block file' h1 h2 now = Ok (value, file'') /\
    key_eqb (cells m) (chain_block file h1 j) h1 h2 = false /\
    key_eqb (cells m') (chain_block file h1 j) h1 h2 = true /\
    forall x, x < chain_block file h1 j \/
              chain_block file h1 j + sizeof_block <= x ->
              cells m' x = cells m x.
Proof.
  intros Hvalid H1 H2 Hv Hfull.
  destruct (set_block_common_post file m h1 h2 t value from_now
              Hvalid H1 H2 Hv)
    as (k & j & m' & Hset & Hex & _ & (Hk & Hj & _ & Hst & Hcase)).
  destruct (get_after_set file m h1 h2 t value now from_now Hvalid H1 H2 Hv)
    as (file1 & file'' & Hset1 & Hget).
  rewrite Hset in Hset1. injection Hset1 as <-.
  split; [lia|].
  assert (Hocc : occupied_by_other (cells m) (chain_block file h1 j) h1 h2
                 = true) by (apply Hfull; lia).
  destruct Hcase as [(_ & Hkey & _)|[(_ & _ & Hfree & _)|
                     (HkK & _ & Hcells & Hsel)]].
  - unfold chain_block in Hocc.
    rewrite (occupied_not_key _ _ _ _ Hocc) in Hkey. discriminate.
  - unfold chain_block in Hocc.
    rewrite (occupied_not_free _ _ _ _ Hocc) in Hfree. discriminate.
  - exists j. eexists _, file'', m'.
    split; [exact Hset|]. split; [reflexivity|]. split; [lia|].
    split; [exact Hcells|].
    split.
    { destruct Hsel as [(_ & Hlt & Hmin)|(_ & Hj0 & Hall)].
      - left. now split.
      - right. now split. }
    split; [exact Hget|].
    split; [now apply occupied_not_key|].
    split; [exact (stored_at_key _ _ _ _ _ _ Hst)|].
    intros x Hx. rewrite Hcells. now apply block_written_outside.
Qed.

(** The sample chains are what two calls of set leave in an empty section
    of two blocks. *)
Lemma two_small_blocks_by_set :
  exists (file1 file2 : rspamd_mmaped_file_t) (p : list Z),
    statfile_pool_set_block (sample_file (fun _ => 0) 2) 2 7 0 double_2_5
      = Ok file1 /\
    statfile_pool_set_block file1 6 9 0 double_1_5 = Ok file2 /\
    map file2 = Some {| cells := two_small_blocks;
                        extent := extent (sample_mapping (fun _ => 0) 2);
                        probed := p |}.
Proof.
  eexists. eexists. eexists.
  split; [vm_compute; reflexivity|].
  split; vm_compute; reflexivity.
Qed.

Lemma two_large_blocks_by_set :
  exists (file1 file2 : rspamd_mmaped_file_t) (p : list Z),
    statfile_pool_set_block (sample_file (fun _ => 0) 2) 2 7 0 double_inf
      = Ok file1 /\
    statfile_pool_set_block file1 6 9 0 G_MAXDOUBLE = Ok file2 /\
    map file2 = Some {| cells := two_large_blocks;
                        extent := extent (sample_mapping (fun _ => 0) 2);
                        probed := p |}.
Proof.
  eexists. eexists. eexists.
  split; [vm_compute; reflexivity|].
  split; vm_compute; reflexivity.
Qed.

Lemma two_small_blocks_full :
  chain_full two_small_blocks
    (chain_base (sample_file two_small_blocks 2) 8)
    (chain_slots (sample_file two_small_blocks 2) 8) 8 1.
Proof.
  intros j Hj. destruct j as [|[|j]]; [reflexivity | reflexivity |].
  vm_compute in Hj. lia.
Defined.

Lemma eviction_witness :
  valid_handle (sample_file two_small_blocks 2)
    (sample_mapping two_small_blocks 2) /\
  chain_full two_small_blocks
    (chain_base (sample_file two_small_blocks 2) 8)
    (chain_slots (sample_file two_small_blocks 2) 8) 8 1 /\
  exists (j : nat) (file' : rspamd_mmaped_file_t) (m' : mapping),
    statfile_pool_set_block_common (sample_file two_small_blocks 2)
      8 1 0 double_1_0 false = Ok file' /\
    map file' = Some m' /\
    cells m' =
      block_written two_small_blocks
        (chain_block (sample_file two_small_blocks 2) 8 j) 8 1 double_1_0.
Proof.
  assert (Hv : valid_handle (sample_file two_small_blocks 2)
                 (sample_mapping two_small_blocks 2))
    by (apply sample_file_valid; lia).
  split; [exact Hv|]. split; [exact two_small_blocks_full|].
  destruct (eviction _ _ 8 1 0 double_1_0 0 false Hv)
    as (_ & j & file' & _ & m' & Hset & Hmap & _ & Hcells & _);
    try (unfold is_guint32, is_guint64, double_1_0; lia);
    [exact two_small_blocks_full|].
  exists j, file', m'. repeat split; assumption.
Defined.

Lemma two_large_blocks_full :
  chain_full two_large_blocks
    (chain_base (sample_file two_large_blocks 2) 8)
    (chain_slots (sample_file two_large_blocks 2) 8) 8 1.
Proof.
  intros j Hj. destruct j as [|[|j]]; [reflexivity | reflexivity |].
  vm_compute in Hj. lia.
Qed.

(** C3 as stated fails.  In a chain of the two blocks [(2, 7, +infinity)]
    and [(6, 9, DBL_MAX)] no value is below G_MAXDOUBLE, so set of the key
    [(8, 1)] overwrites the first block, while the minimum value of the
    chain is that of the second, which stays. *)
Lemma eviction_not_minimum :
  ~ evicts_minimum (sample_file two_large_blocks 2)
      (sample_mapping two_large_blocks 2) 8 1 0 double_1_0 false.
Proof.
  intro H.
  destruct (H two_large_blocks_full)
    as (j & file' & m' & Hset & Hmap & Hj & Hmin & Hst).
  assert (Hrun : statfile_pool_set_block_common
                   (sample_file two_large_blocks 2) 8 1 0 double_1_0 false =
                 Ok (set_map (sample_file two_large_blocks 2)
                       (Some {| cells := block_written two_large_blocks
                                           (sizeof_header + sizeof_section)
                                           8 1 double_1_0;
                                extent := extent
                                  (sample_mapping two_large_blocks 2);
                                probed := [320; 304] |})))
    by reflexivity.
  rewrite Hrun in Hset. injection Hset as <-.
  cbn [map set_map] in Hmap. injection Hmap as <-.
  destruct j as [|[|j]].
  - specialize (Hmin 1%nat ltac:(vm_compute; lia)).
    vm_compute in Hmin. discriminate Hmin.
  - destruct Hst as (E1 & _). vm_compute in E1. discriminate E1.
  - vm_compute in Hj. lia.
Qed.

(** ** Round trip across other keys *)

Lemma key_eqb_true (f : Z -> Z) (c h1 h2 : Z) :
  key_eqb f c h1 h2 = true <-> hash1_at f c = h1 /\ hash2_at f c = h2.
Proof.
  unfold key_eqb. rewrite andb_true_iff, !Z.eqb_eq. reflexivity.
Qed.

Lemma key_eqb_other (f : Z -> Z) (c h1 h2 k1 k2 : Z) :
  key_eqb f c k1 k2 = true -> (k1, k2) <> (h1, h2) ->
  key_eqb f c h1 h2 = false.
Proof.
  intros Hk Hneq. destruct (key_eqb f c h1 h2) eqn:E; [|reflexivity].
  apply key_eqb_true in Hk, E. exfalso. apply Hneq.
  destruct Hk as [<- <-], E as [<- <-]. reflexivity.
Qed.

(** What get finds is determined by the keys and the values of the blocks
    of the chain. *)
Lemma get_result_ext (f f' : Z -> Z) (base : Z) (K : nat) (h1 h2 : Z)
  (k : nat) (v : Z) :
  (forall j, (j < K)%nat ->
     key_eqb f' (base + sizeof_block * Z.of_nat j) h1 h2 =
     key_eqb f (base + sizeof_block * Z.of_nat j) h1 h2) ->
  (forall j, (j < K)%nat ->
     key_eqb f (base + sizeof_block * Z.of_nat j) h1 h2 = true ->
     value_at f' (base + sizeof_block * Z.of_nat j) =
     value_at f (base + sizeof_block * Z.of_nat j)) ->
  get_result f base K h1 h2 k v -> get_result f' base K h1 h2 k v.
Proof.
  intros Hkey Hval (Hk & Hres). split; [exact Hk|].
  destruct Hres as [(k' & -> & Hnone & Hhit & ->)|(Hnone & -> & ->)].
  - left. exists k'. split; [reflexivity|]. split; [|split].
    + intros j Hj. rewrite Hkey by lia. now apply Hnone.
    + rewrite Hkey by lia. exact Hhit.
    + symmetry. apply Hval; [lia | exact Hhit].
  - right. split; [|now split].
    intros j Hj. rewrite Hkey by lia. now apply Hnone.
Qed.

Lemma get_result_unique (f : Z -> Z) (base : Z) (K : nat) (h1 h2 : Z)
  (k k' : nat) (v v' : Z) :
  get_result f base K h1 h2 k v -> get_result f base K h1 h2 k' v' -> v = v'.
Proof.
  intros (Hk & Hres) (Hk' & Hres').
  destruct Hres as [(a & -> & Hnone & Hhit & ->)|(Hnone & -> & ->)],
           Hres' as [(b & -> & Hnone' & Hhit' & ->)|(Hnone' & -> & ->)].
  - destruct (Nat.lt_trichotomy a b) as [Hlt|[->|Hgt]].
    + rewrite (Hnone' a Hlt) in Hhit. discriminate.
    + reflexivity.
    + rewrite (Hnone b Hgt) in Hhit'. discriminate.
  - rewrite (Hnone' a ltac:(lia)) in Hhit. discriminate.
  - rewrite (Hnone b ltac:(lia)) in Hhit'. discriminate.
  - reflexivity.
Qed.

(** Two blocks of the section are the same block or do not overlap. *)
Lemma section_blocks_apart (seek s s' : Z) :
  seek + s * sizeof_block = seek + s' * sizeof_block \/
  seek + s * sizeof_block + sizeof_block <= seek + s' * sizeof_block \/
  seek + s' * sizeof_block + sizeof_block <= seek + s * sizeof_block.
Proof. unfold sizeof_block. lia. Qed.

(** set of another key, made while its chain has the key or a free block,
    leaves what get finds for a non-zero key as it was. *)
Lemma get_after_other_set (file : rspamd_mmaped_file_t) (m : mapping)
  (h1 h2 k1 k2 t value now : Z) (from_now : bool) :
  valid_handle file m ->
  is_guint32 k1 -> is_guint32 k2 -> is_guint64 value ->
  (h1, h2) <> (0, 0) -> (k1, k2) <> (h1, h2) ->
  chain_has_room (cells m) (chain_base file k1) (chain_slots file k1) k1 k2 ->
  exists (file' : rspamd_mmaped_file_t) (m' : mapping),
    statfile_pool_set_block_common file k1 k2 t value from_now = Ok file' /\
    valid_handle file' m' /\
    forall (v : Z) (file1 : rspamd_mmaped_file_t),
      statfile_pool_get_block file h1 h2 now = Ok (v, file1) ->
      exists file2 : rspamd_mmaped_file_t,
        statfile_pool_get_block file' h1 h2 now = Ok (v, file2).
Proof.
  intros Hvalid K1 K2 Hv Hnz Hneq (jr & Hjr & Hroom).
  destruct (set_block_common_post file m k1 k2 t value from_now
              Hvalid K1 K2 Hv)
    as (k & j & m' & Hset & Hex & _ & (Hk & Hj & Hbefore & Hst & Hcase)).
  set (file0 := if from_now then set_access_time file t else file) in *.
  assert (Hvalid0 : valid_handle file0 m)
    by (subst file0; now destruct from_now).
  pose proof (valid_handle_set_map file0 m m' Hvalid0 Hex) as Hvalid'.
  exists (set_map file0 (Some m')), m'.
  split; [exact Hset|]. split; [exact Hvalid'|].
  intros v file1 Hget.
  destruct (get_block_post file m h1 h2 now Hvalid) as (ka & va & Hga & Hra).
  rewrite Hga in Hget. injection Hget as <- _.
  destruct (get_block_post _ m' h1 h2 now Hvalid') as (kb & vb & Hgb & Hrb).
  assert (Hsame : chain_base (set_map file0 (Some m')) h1 = chain_base file h1
                  /\ chain_slots (set_map file0 (Some m')) h1 =
                     chain_slots file h1)
    by (subst file0; now destruct from_now).
  destruct Hsame as [Eb Es]. rewrite Eb, Es in Hrb.
  (* the block written does not hold the key sought, before or after *)
  set (cw := chain_base file k1 + sizeof_block * Z.of_nat j) in *.
  assert (Hwas : key_eqb (cells m) cw h1 h2 = false).
  { destruct Hcase as [(_ & Hkey & _)|[(_ & _ & Hfree & _)|(_ & Hfull & _)]].
    - exact (key_eqb_other _ _ _ _ _ _ Hkey Hneq).
    - apply (key_eqb_other _ _ _ _ 0 0 Hfree). congruence.
    - exfalso.
      assert (Hocc := Hfull jr Hjr).
      destruct Hroom as [Hr|Hr].
      + rewrite (occupied_not_key _ _ _ _ Hocc) in Hr. discriminate.
      + rewrite (occupied_not_free _ _ _ _ Hocc) in Hr. discriminate. }
  assert (Hnow : key_eqb (cells m') cw h1 h2 = false)
    by exact (key_eqb_other _ _ _ _ _ _ (stored_at_key _ _ _ _ _ _ Hst) Hneq).
  destruct Hvalid as (_ & Hlen & Hseek & _).
  pose proof (Z.mod_pos_bound h1 (length (cur_section file)) ltac:(lia)).
  pose proof (Z.mod_pos_bound k1 (length (cur_section file)) ltac:(lia)).
  assert (Hblocks : forall jg : nat,
            let c := chain_base file h1 + sizeof_block * Z.of_nat jg in
            key_eqb (cells m') c h1 h2 = key_eqb (cells m) c h1 h2 /\
            (key_eqb (cells m) c h1 h2 = true ->
             value_at (cells m') c = value_at (cells m) c)).
  { intros jg c.
    destruct (section_blocks_apart (seek_pos file)
                (slot0 file h1 + Z.of_nat jg) (slot0 file k1 + Z.of_nat j))
      as [Heq|Hapart].
    - assert (Hc : c = cw)
        by (subst c cw; unfold chain_base, slot0, sizeof_block in *; lia).
      rewrite Hc, Hwas, Hnow. split; [reflexivity | discriminate].
    - destruct (stored_at_other (cells m) (cells m') cw k1 k2 value c h1 h2
                  Hst) as [Ek Ev].
      + subst c. unfold chain_base, slot0 in *. layout_lia.
      + subst c cw. unfold chain_base, slot0, sizeof_block in *. lia.
      + split; [exact Ek | intros _; exact Ev]. }
  assert (Hrb' : get_result (cells m') (chain_base file h1)
                   (chain_slots file h1) h1 h2 ka va).
  { apply (get_result_ext (cells m) (cells m')); [| |exact Hra].
    - intros jg _. apply Hblocks.
    - intros jg _. apply Hblocks. }
  rewrite (get_result_unique _ _ _ _ _ _ _ _ _ Hrb' Hrb).
  eexists. exact Hgb.
Qed.

(** X2.  The round trip for a sequence of calls: after set of a non-zero
    key to [value] and then any calls of set for other keys that find room
    in their chains, get returns [value]. *)
Lemma roundtrip_sequence (h1 h2 value now : Z) :
  is_guint32 h1 -> is_guint32 h2 -> is_guint64 value -> (h1, h2) <> (0, 0) ->
  forall (file : rspamd_mmaped_file_t) (m : mapping) (t : Z) (from_now : bool)
         (file' file'' : rspamd_mmaped_file_t),
    valid_handle file m ->
    statfile_pool_set_block_common file h1 h2 t value from_now = Ok file' ->
    other_sets h1 h2 file' file'' ->
    exists file3 : rspamd_mmaped_file_t,
      statfile_pool_get_block file'' h1 h2 now = Ok (value, file3).
Proof.
  intros H1 H2 Hv Hnz file m t from_now file' file'' Hvalid Hset Hothers.
  destruct (get_after_set file m h1 h2 t value now from_now Hvalid H1 H2 Hv)
    as (fa & fb & Hset' & Hget).
  rewrite Hset in Hset'. injection Hset' as <-.
  destruct (set_block_common_post file m h1 h2 t value from_now
              Hvalid H1 H2 Hv) as (k & j & m' & Hset2 & Hex & _).
  rewrite Hset in Hset2. injection Hset2 as Hfile'.
  assert (Hvalid' : exists m1, valid_handle file' m1).
  { exists m'. rewrite Hfile'. apply valid_handle_set_map with (m := m);
      [now destruct from_now | exact Hex]. }
  clear Hset Hfile' Hvalid Hex.
  revert fb Hget Hvalid'.
  induction Hothers as [f|f f' f'' mo k1 k2 to vo fno Hmap K1 K2 Vo Hneq
                          Hroom Hput Hrest IH];
    intros fb Hget (m1 & Hvalid1).
  - now exists fb.
  - assert (m1 = mo) as -> by (destruct Hvalid1 as (E & _); congruence).
    destruct (get_after_other_set f mo h1 h2 k1 k2 to vo now fno
                Hvalid1 K1 K2 Vo Hnz Hneq Hroom)
      as (f1 & m2 & Hput' & Hvalid2 & Hkeep).
    rewrite Hput in Hput'. injection Hput' as <-.
    destruct (Hkeep value fb Hget) as (f2 & Hget2).
    apply (IH f2 Hget2). now exists m2.
Qed.

(** ** The handle array *)

Lemma list_set_length {A : Type} (l : list A) :
  forall (i : nat) (x : A), List.length (list_set l i x) = List.length l.
Proof.
  induction l as [|y l IH]; intros [|i] x; cbn; try reflexivity.
  now rewrite IH.
Qed.

Lemma list_set_same {A : Type} (l : list A) :
  forall (i : nat) (x : A),
    (i < List.length l)%nat -> nth_error (list_set l i x) i = Some x.
Proof.
  induction l as [|y l IH]; intros [|i] x H; cbn in *; try lia.
  - reflexivity.
  - apply IH. lia.
Qed.

Lemma list_set_other {A : Type} (l : list A) :
  forall (i j : nat) (x : A),
    i <> j -> nth_error (list_set l i x) j = nth_error l j.
Proof.
  induction l as [|y l IH]; intros [|i] [|j] x H; cbn; try reflexivity.
  - contradiction.
  - apply IH. congruence.
Qed.

Lemma list_set_set {A : Type} (l : list A) :
  forall (i : nat) (x y : A),
    list_set (list_set l i x) i y = list_set l i y.
Proof.
  induction l as [|z l IH]; intros [|i] x y; cbn; try reflexivity.
  now rewrite IH.
Qed.

Lemma lfind_list_set (name : string) (x : rspamd_mmaped_file_t)
  (l : list rspamd_mmaped_file_t) :
  forall (n i : nat),
    (n < List.length l)%nat ->
    lfind name l n i = None ->
    cmpstatfile name x = true ->
    lfind name (list_set l n x) (S n) i = Some (i + n)%nat.
Proof.
  induction l as [|y l IH]; intros n i Hn Hfind Hx; cbn in Hn; [lia|].
  destruct n as [|n].
  - cbn. rewrite Hx. f_equal. lia.
  - cbn [list_set]. cbn [lfind] in *.
    destruct (cmpstatfile name y); [discriminate|].
    rewrite IH; try assumption; try lia. f_equal. lia.
Qed.

(** ** Creation *)

Lemma disk_updated_trans (s s1 s2 : system) (path : string)
  (df1 df2 : disk_file) :
  disk_updated s s1 path df1 -> disk_updated s1 s2 path df2 ->
  disk_updated s s2 path df2.
Proof.
  intros (P1 & C1 & N1 & M1 & L1 & _ & O1) (P2 & C2 & N2 & M2 & L2 & D2 & O2).
  unfold disk_updated. rewrite P2, C2, N2, M2, L2.
  repeat split; try assumption.
  intros p Hp. rewrite O2, O1 by assumption. reflexivity.
Qed.

Lemma sys_write_post (path : string) (pos n : Z) (buf : Z -> Z) (s : system)
  (df : disk_file) :
  disk s path = Some df ->
  exists s', sys_write path pos n buf s = Ok (true, s') /\
             disk_updated s s' path (file_write df pos n buf).
Proof.
  intro Hd. unfold sys_write. rewrite Hd. eexists. split; [reflexivity|].
  unfold disk_updated, with_disk. cbn.
  rewrite String.eqb_refl. repeat split.
  intros p Hp. apply String.eqb_neq in Hp. now rewrite Hp.
Qed.

(** The block-writing loop ends, with fuel to spare, having appended
    [nblocks] zeroed blocks. *)
Lemma write_blocks_post (path : string) (fuel : nat) :
  forall (nblocks pos : Z) (s : system) (df : disk_file),
    disk s path = Some df ->
    0 <= nblocks < 2 ^ 32 -> (Z.to_nat nblocks < fuel)%nat ->
    pos <= fsize df ->
    (forall x, pos <= x -> contents df x = 0) ->
    exists (s' : system) (df' : disk_file),
      write_blocks fuel path nblocks pos s = Ok (true, s') /\
      disk_updated s s' path df' /\
      fsize df' = Z.max (fsize df) (pos + sizeof_block * nblocks) /\
      (forall x, x < pos -> contents df' x = contents df x) /\
      (forall x, pos <= x -> contents df' x = 0).
Proof.
  induction fuel as [|fuel IH]; intros nblocks pos s df Hd Hn Hfuel Hpos Hzero;
    [lia|].
  cbn [write_blocks].
  destruct (Z.eqb_spec nblocks 0) as [E|E].
  - exists s, df. subst nblocks. split; [reflexivity|].
    split; [unfold disk_updated; now repeat split|].
    split; [unfold sizeof_block; lia|]. now split.
  - assert (Hstep : forall b, 0 < b <= nblocks ->
              exists (s' : system) (df' : disk_file),
                (ok <- sys_write path pos (sizeof_block * b) (fun _ => 0) ;;
                 if ok then write_blocks fuel path (guint (nblocks - b))
                              (pos + sizeof_block * b)
                 else ret false) s = Ok (true, s') /\
                disk_updated s s' path df' /\
                fsize df' = Z.max (fsize df) (pos + sizeof_block * nblocks) /\
                (forall x, x < pos -> contents df' x = contents df x) /\
                (forall x, pos <= x -> contents df' x = 0)).
    { intros b Hb.
      destruct (sys_write_post path pos (sizeof_block * b) (fun _ => 0) s df Hd)
        as (s1 & Hw & Hu1).
      unfold bind. rewrite Hw.
      rewrite guint_small by lia.
      destruct (IH (nblocks - b) (pos + sizeof_block * b) s1
                  (file_write df pos (sizeof_block * b) (fun _ => 0)))
        as (s2 & df2 & Hrec & Hu2 & Hsize & Hlow & Hhigh).
      - now destruct Hu1 as (_ & _ & _ & _ & _ & D & _).
      - lia.
      - lia.
      - cbn [fsize file_write]. lia.
      - intros x Hx. cbn [contents file_write].
        destruct ((pos <=? x) && (x <? pos + sizeof_block * b));
          [reflexivity|]. apply Hzero. layout_lia.
      - exists s2, df2. split; [exact Hrec|].
        split; [exact (disk_updated_trans _ _ _ _ _ _ Hu1 Hu2)|].
        split; [|split].
        + rewrite Hsize. cbn [fsize file_write]. unfold sizeof_block. lia.
        + intros x Hx. rewrite Hlow by (unfold sizeof_block; lia).
          cbn [contents file_write].
          destruct (Z.leb_spec pos x); [lia|reflexivity].
        + intros x Hx.
          destruct (Z.lt_ge_cases x (pos + sizeof_block * b)) as [Hl|Hg].
          * rewrite Hlow by exact Hl. cbn [contents file_write].
            destruct ((pos <=? x) && (x <? pos + sizeof_block * b));
              [reflexivity|]. now apply Hzero.
          * now apply Hhigh. }
    destruct (Z.gtb_spec nblocks 256) as [Hgt|Hle].
    + apply (Hstep 256). lia.
    + replace sizeof_block with (sizeof_block * 1) at 1 2
        by (unfold sizeof_block; lia).
      apply (Hstep 1). lia.
Qed.

Lemma sys_creat_post (path : string) (s : system) :
  exists s', sys_creat path s = Ok (tt, s') /\
             disk_updated s s' path {| contents := fun _ => 0; fsize := 0 |}.
Proof.
  eexists. split; [reflexivity|].
  unfold disk_updated, with_disk. cbn.
  rewrite String.eqb_refl. repeat split.
  intros p Hp. apply String.eqb_neq in Hp. now rewrite Hp.
Qed.

Lemma rspamd_fallocate_post (path : string) (offset length : Z) (s : system)
  (df : disk_file) :
  disk s path = Some df ->
  exists s', rspamd_fallocate path offset length s = Ok (tt, s') /\
             disk_updated s s' path
               {| contents := contents df;
                  fsize := Z.max (fsize df) (offset + length) |}.
Proof.
  intro Hd. unfold rspamd_fallocate. rewrite Hd.
  eexists. split; [reflexivity|].
  unfold disk_updated, with_disk. cbn.
  rewrite String.eqb_refl. repeat split.
  intros p Hp. apply String.eqb_neq in Hp. now rewrite Hp.
Qed.

Lemma disk_updated_file (s s' : system) (path : string) (df : disk_file) :
  disk_updated s s' path df -> disk s' path = Some df.
Proof. now intros (_ & _ & _ & _ & _ & D & _). Qed.

(** statfile_pool_create of a file that is not open, with a size of at
    least one block behind the headers, returns 0 and leaves the file
    written. *)
Lemma create_post (filename : string) (size : Z) (s : system) :
  statfile_pool_is_open (pool s) filename = None ->
  sizeof_header + sizeof_section + sizeof_block <= size ->
  exists (s' : system) (df : disk_file),
    statfile_pool_create filename size s = Ok (0, s') /\
    disk_updated s s' filename df /\
    created_file df
      (guint ((size - sizeof_header - sizeof_section) / sizeof_block))
      (clock s).
Proof.
  intros Hopen Hsize.
  set (n := guint ((size - sizeof_header - sizeof_section) / sizeof_block)).
  assert (Hn : 0 <= n < 2 ^ 32) by (apply Z.mod_pos_bound; lia).
  unfold statfile_pool_create. unfold bind at 1. unfold get_pool.
  rewrite Hopen.
  destruct (Z.ltb_spec size (sizeof_header + sizeof_section + sizeof_block))
    as [Hlt|_]; [lia|].
  fold n.
  destruct (sys_creat_post filename s) as (s1 & E1 & U1).
  unfold bind at 1. rewrite E1.
  destruct (rspamd_fallocate_post filename 0
              (sizeof_header + sizeof_section + sizeof_block * n) s1 _
              (disk_updated_file _ _ _ _ U1)) as (s2 & E2 & U2).
  unfold bind at 1. rewrite E2.
  unfold bind at 1. unfold time at 1.
  destruct (sys_write_post filename 0 sizeof_header
              (header_bytes n (clock s2)) s2 _
              (disk_updated_file _ _ _ _ U2)) as (s3 & E3 & U3).
  unfold bind at 1. rewrite E3. cbn [negb].
  destruct (sys_write_post filename sizeof_header sizeof_section
              (section_bytes STATFILE_SECTION_COMMON n) s3 _
              (disk_updated_file _ _ _ _ U3)) as (s4 & E4 & U4).
  unfold bind at 1. rewrite E4. cbn [negb].
  destruct (write_blocks_post filename (S (Z.to_nat n)) n
              (sizeof_header + sizeof_section) s4 _
              (disk_updated_file _ _ _ _ U4) Hn ltac:(lia))
    as (s5 & df & E5 & U5 & Hsz & Hlow & Hhigh).
  - cbn [fsize file_write contents].
    unfold sizeof_header, sizeof_section, sizeof_block. lia.
  - intros x Hx. cbn [fsize file_write contents].
    unfold sizeof_header, sizeof_section in *.
    destruct (Z.leb_spec 288 x); [|lia].
    destruct (Z.ltb_spec x (288 + 16)); [lia|]. cbn [andb].
    destruct (Z.leb_spec 0 x); [|lia].
    destruct (Z.ltb_spec x (0 + 288)); [lia|]. reflexivity.
  - unfold bind at 1. rewrite E5. cbn [negb].
    exists s5, df. split; [reflexivity|].
    split.
    + exact (disk_updated_trans _ _ _ _ _ _ U1
               (disk_updated_trans _ _ _ _ _ _ U2
                  (disk_updated_trans _ _ _ _ _ _ U3
                     (disk_updated_trans _ _ _ _ _ _ U4 U5)))).
    + assert (Hclock : clock s2 = clock s).
      { destruct U1 as (_ & C1 & _), U2 as (_ & C2 & _). congruence. }
      rewrite Hclock in *.
      unfold created_file.
      unfold sizeof_header, sizeof_section, sizeof_block in *.
      split; [|split; [|split]].
      * rewrite Hsz. cbn [fsize file_write contents]. lia.
      * intros x Hx. rewrite Hlow by lia.
        cbn [fsize file_write contents].
        destruct (Z.leb_spec 288 x); [lia|]. cbn [andb].
        destruct (Z.leb_spec 0 x); [|lia].
        destruct (Z.ltb_spec x (0 + 288)); [|lia]. cbn [andb].
        now rewrite Z.sub_0_r.
      * intros x Hx. rewrite Hlow by lia.
        cbn [fsize file_write contents].
        destruct (Z.leb_spec 288 x); [|lia].
        destruct (Z.ltb_spec x (288 + 16)); [|lia]. reflexivity.
      * intros x Hx. now apply Hhigh.
Qed.

(** ** Validation and opening *)

Lemma load_le_shift (k : nat) (f : Z -> Z) (d : Z) :
  forall a, load_le k (fun x => f (x - d)) (d + a) = load_le k f a.
Proof.
  induction k as [|k IH]; intro a; [reflexivity|].
  cbn [load_le].
  replace (d + a + 1) with (d + (a + 1)) by lia.
  rewrite IH. now replace (d + a - d) with a by lia.
Qed.

Lemma created_file_image (df : disk_file) (n now : Z) :
  created_file df n now -> 0 < n < 2 ^ 32 ->
  statfile_image df STATFILE_SECTION_COMMON n.
Proof.
  intros (Hsz & Hhead & Hsect & _) Hn.
  assert (Hh : forall (k : nat) (a : Z),
            0 <= a -> a + Z.of_nat k <= sizeof_header ->
            load_le k (contents df) a = load_le k (header_bytes n now) a).
  { intros k a H0 H1. apply load_le_ext. intros x Hx. apply Hhead. lia. }
  assert (Hs : forall (k : nat) (a : Z),
            0 <= a -> a + Z.of_nat k <= sizeof_section ->
            load_le k (contents df) (sizeof_header + a) =
            load_le k (section_bytes STATFILE_SECTION_COMMON n) a).
  { intros k a H0 H1.
    rewrite (load_le_ext k (contents df)
               (fun x => section_bytes STATFILE_SECTION_COMMON n
                           (x - sizeof_header))).
    - apply load_le_shift.
    - intros x Hx. apply Hsect. lia. }
  unfold statfile_image.
  unfold off_magic, off_version, off_section, off_code, off_length in *.
  rewrite !Hh by (unfold sizeof_header; simpl Z.of_nat; lia).
  change 288 with sizeof_header.
  rewrite !Hs by (unfold sizeof_section; simpl Z.of_nat; lia).
  repeat split; try reflexivity; try lia.
  unfold section_bytes, off_code, off_length.
  rewrite load_store_same. apply Z.mod_small. simpl Z.of_nat. lia.
Qed.

Lemma statfile_image_signature (df : disk_file) (c n : Z) (l : Z) (p : list Z) :
  statfile_image df c n -> 5 <= l ->
  read_signature {| cells := contents df; extent := l; probed := p |} =
    Ok (Current, {| cells := contents df; extent := l; probed := p |}).
Proof.
  intros (M0 & M1 & M2 & V0 & V1 & _) Hl.
  unfold read_signature, off_magic, off_version in *.
  unfold bind.
  rewrite load_ok by (cbn [extent]; simpl Z.of_nat; lia).
  cbn [cells]. rewrite M0. cbn [Z.eqb Pos.eqb negb].
  rewrite load_ok by (cbn [extent]; simpl Z.of_nat; lia).
  cbn [cells]. rewrite M1. cbn [Z.eqb Pos.eqb negb].
  rewrite load_ok by (cbn [extent]; simpl Z.of_nat; lia).
  cbn [cells]. rewrite M2. cbn [Z.eqb Pos.eqb negb].
  rewrite load_ok by (cbn [extent]; simpl Z.of_nat; lia).
  cbn [cells]. rewrite V0.
  rewrite load_ok by (cbn [extent]; simpl Z.of_nat; lia).
  cbn [cells]. rewrite V1. reflexivity.
Qed.

Section Opening.

Variable convert_statfile_10 :
  rspamd_mmaped_file_t -> option rspamd_mmaped_file_t.

Lemma open_mapped_post (path : string) (s : system) (df : disk_file)
  (c n : Z) :
  pool_has_room (pool s) ->
  statfile_pool_is_open (pool s) path = None ->
  disk s path = Some df ->
  statfile_image df c n ->
  exists s' : system,
    open_mapped convert_statfile_10 path (fsize df) s =
      Ok (Some (Z.to_nat (opened (pool s))), s') /\
    files (pool s') =
      list_set (files (pool s)) (Z.to_nat (opened (pool s)))
        (opened_handle path df (next_fd s) (clock s) c n) /\
    opened (pool s') = opened (pool s) + 1 /\
    disk s' = disk s /\ clock s' = clock s /\
    next_fd s' = next_fd s + 1 /\
    mlock_allowed s' = mlock_allowed s /\
    (forall e, In e (log s') -> In e (log s) \/ e = mlock_failed).
Proof.
  intros ((Hop0 & Hop1) & Hroom) Hopen Hd Himg.
  pose proof Himg as (_ & _ & _ & _ & _ & Hcode & Hlen & Hn & Hfit).
  set (idx := Z.to_nat (opened (pool s))) in *.
  assert (Hltb : (idx <? List.length (files (pool s)))%nat = true)
    by now apply Nat.ltb_lt.
  assert (Hidx : (idx < List.length (files (pool s)))%nat) by exact Hroom.
  set (m := {| cells := contents df; extent := fsize df; probed := [] |}).
  assert (Hshort : (fsize df <? sizeof_stat_file) = false).
  { apply Z.ltb_ge.
    layout_lia. }
  assert (Hsig : read_signature m = Ok (Current, m)).
  { apply (statfile_image_signature df c n); [exact Himg|].
    layout_lia. }
  assert (Hlc : load_u64 (off_section + off_code) m = Ok (c, m)).
  { unfold load_u64. rewrite load_ok.
    - cbn [cells m]. now rewrite Hcode.
    - unfold off_section, off_code. lia.
    - cbn [extent m]. simpl Z.of_nat.
      unfold off_section, off_code, sizeof_header, sizeof_section,
        sizeof_block in *. lia. }
  assert (Hll : load_u64 (off_section + off_length) m = Ok (n, m)).
  { unfold load_u64. rewrite load_ok.
    - cbn [cells m]. now rewrite Hlen.
    - unfold off_section, off_length. lia.
    - cbn [extent m]. simpl Z.of_nat.
      unfold off_section, off_length, sizeof_header, sizeof_section,
        sizeof_block in *. lia. }
  assert (Htr : (guint64 (n * sizeof_block) >? fsize df) = false).
  { unfold guint64. rewrite Z.mod_small by (unfold sizeof_block; lia).
    rewrite Z.gtb_ltb. apply Z.ltb_ge.
    layout_lia. }
  assert (Hfind : forall b : bool, statfile_pool_is_open
                    {| files := list_set (files (pool s)) idx
                                  (opened_handle path df (next_fd s)
                                     (clock s) c n);
                       opened := opened (pool s) + 1;
                       mlock_ok := b |} path = Some idx).
  { intro b. unfold statfile_pool_is_open. cbn [files opened].
    replace (Z.to_nat (opened (pool s) + 1)) with (S idx) by (subst idx; lia).
    rewrite lfind_list_set; try assumption.
    - reflexivity.
    - unfold cmpstatfile, opened_handle. cbn [filename].
      apply String.eqb_refl. }
  unfold open_mapped.
  cbv [bind get_pool set_opened set_file sys_open sys_mmap msg time get_file
       set_mlock_ok ret with_pool rspamd_mmaped_file_check check_section peek].
  cbn [pool files opened mlock_ok disk clock next_fd mlock_allowed log].
  destruct (Z.ltb_spec (opened (pool s)) 0) as [Hneg|_]; [lia|].
  fold idx.
  destruct (Z.leb_spec (fsize df) 0) as [Hle|_];
    [unfold sizeof_header, sizeof_section, sizeof_block in Hfit; lia|].
  subst m. unfold opened_handle in Hfind.
  destruct (mlock_ok (pool s)) eqn:Hmok, (mlock_allowed s) eqn:Hmal.
  all: repeat first
    [ rewrite Hltb | rewrite Hd | rewrite Hmok | rewrite Hmal
    | rewrite Hfind | progress change (0 =? -1) with false
    | rewrite Hshort | rewrite Hsig | rewrite Hlc | rewrite Hll | rewrite Htr
    | rewrite list_set_length
    | rewrite list_set_set
    | rewrite list_set_same by (rewrite ?list_set_length; exact Hidx)
    | progress cbn [pool files opened mlock_ok disk clock next_fd
                    mlock_allowed log map len set_len_name_map set_fd
                    set_cursor set_times zero_file seek_pos cur_section
                    filename fd open_time access_time]
    | progress cbv beta iota ].
  all: eexists; (split; [reflexivity|]);
    cbn [pool files opened mlock_ok disk clock next_fd mlock_allowed log];
    repeat (split; [reflexivity|]);
    intros e He; cbn [In] in He;
    first [ now left
          | destruct He as [He|He]; [right; now symmetry | now left] ].
Qed.



Lemma opened_handle_valid (path : string) (df : disk_file) (d now c n : Z) :
  statfile_image df c n ->
  valid_handle (opened_handle path df d now c n)
    {| cells := contents df; extent := fsize df; probed := [] |}.
Proof.
  intros (_ & _ & _ & _ & _ & _ & _ & Hn & Hfit).
  unfold valid_handle, opened_handle.
  cbn [map cur_section length seek_pos extent].
  unfold sizeof_stat_file, sizeof_header, sizeof_section, sizeof_block in *.
  repeat split; try reflexivity; lia.
Qed.

(** A file written by statfile_pool_create for at least one block, once
    opened, gives a valid handle. *)
Lemma created_file_opens_valid (path : string) (df : disk_file)
  (d now at_time n : Z) :
  created_file df n at_time -> 0 < n < 2 ^ 32 ->
  valid_handle (opened_handle path df d now STATFILE_SECTION_COMMON n)
    {| cells := contents df; extent := fsize df; probed := [] |}.
Proof.
  intros Hfile Hn. apply opened_handle_valid.
  exact (created_file_image df n at_time Hfile Hn).
Qed.

Lemma labs_to_long_small (x : Z) :
  - 2 ^ 63 < x < 2 ^ 63 -> labs (to_long x) = Z.abs x.
Proof.
  intro H. unfold labs, to_long.
  assert (E : (if x mod 2 ^ 64 <? 2 ^ 63 then x mod 2 ^ 64
               else x mod 2 ^ 64 - 2 ^ 64) = x).
  { destruct (Z.lt_ge_cases x 0) as [Hneg|Hpos].
    - replace (x mod 2 ^ 64) with (x + 2 ^ 64)
        by (apply Z.mod_unique with (q := -1); lia).
      destruct (Z.ltb_spec (x + 2 ^ 64) (2 ^ 63)); lia.
    - rewrite Z.mod_small by lia.
      destruct (Z.ltb_spec x (2 ^ 63)); lia. }
  cbv zeta. rewrite E.
  rewrite Z.mod_small by lia.
  destruct (Z.ltb_spec (Z.abs x) (2 ^ 63)); lia.
Qed.

(** statfile_pool_open on a file that exists and is not open, in a pool
    below its limit: the reindex test decides between the two paths. *)
Lemma open_decision (path : string) (size : Z) (forced : bool) (s : system)
  (df : disk_file) :
  statfile_pool_is_open (pool s) path = None ->
  opened (pool s) < STATFILES_MAX - 1 ->
  disk s path = Some df ->
  statfile_pool_open convert_statfile_10 path size forced s =
    if negb forced
       && (labs (to_long (size - fsize df)) >? sizeof_stat_file * 2)
       && (size >? sizeof_stat_file)
    then (msg (need_to_reindex (fsize df) size) ;;;
          rspamd_mmaped_file_reindex convert_statfile_10 path (fsize df) size)
           s
    else ((if size <? sizeof_stat_file then msg (shrink_too_small size)
           else ret tt) ;;;
          open_mapped convert_statfile_10 path (fsize df)) s.
Proof.
  intros Hopen Hroom Hd.
  unfold statfile_pool_open, statfile_pool_open_with.
  unfold bind at 1. unfold get_pool. rewrite Hopen.
  destruct (Z.geb_spec (opened (pool s)) (STATFILES_MAX - 1)); [lia|].
  unfold open_stat_and_map. unfold bind at 1. unfold sys_stat.
  rewrite Hd. cbn [option_map].
  now destruct (negb forced
                && (labs (to_long (size - fsize df)) >? sizeof_stat_file * 2)
                && (size >? sizeof_stat_file)).
Qed.

Lemma open_forced_decision (path : string) (size : Z) (s : system)
  (df : disk_file) :
  statfile_pool_is_open (pool s) path = None ->
  opened (pool s) < STATFILES_MAX - 1 ->
  disk s path = Some df ->
  sizeof_stat_file <= size ->
  statfile_pool_open_forced convert_statfile_10 path size s =
    open_mapped convert_statfile_10 path (fsize df) s.
Proof.
  intros Hopen Hroom Hd Hsize.
  unfold statfile_pool_open_forced, statfile_pool_open_with.
  unfold bind at 1. unfold get_pool. rewrite Hopen.
  destruct (Z.geb_spec (opened (pool s)) (STATFILES_MAX - 1)); [lia|].
  unfold open_stat_and_map. unfold bind at 1. unfold sys_stat.
  rewrite Hd. cbn [option_map negb andb].
  destruct (Z.ltb_spec size sizeof_stat_file); [lia|].
  reflexivity.
Qed.

(** With [forced] set statfile_pool_open never enters the reindex
    procedure: it is statfile_pool_open_forced. *)
Lemma open_forced_eq (path : string) (size : Z) (s : system) :
  statfile_pool_open convert_statfile_10 path size true s =
  statfile_pool_open_forced convert_statfile_10 path size s.
Proof.
  unfold statfile_pool_open, statfile_pool_open_forced,
    statfile_pool_open_with, open_stat_and_map, bind.
  destruct (get_pool s) as [[p s0]|]; [|reflexivity].
  destruct (statfile_pool_is_open p path); [reflexivity|].
  destruct (opened p >=? STATFILES_MAX - 1); [reflexivity|].
  destruct (sys_stat path s0) as [[[st|] s1]|]; reflexivity.
Qed.

Lemma created_file_total_blocks (df : disk_file) (n now : Z) :
  created_file df n now -> 0 <= n < 2 ^ 64 ->
  load_le 8 (contents df) off_total_blocks = n.
Proof.
  intros (_ & Hhead & _) Hn.
  rewrite (load_le_ext 8 (contents df) (header_bytes n now)).
  - unfold header_bytes, off_total_blocks, off_create_time, off_revision,
      off_rev_time, off_used_blocks.
    rewrite !load_store_other by (simpl Z.of_nat; lia).
    rewrite load_store_same. apply Z.mod_small. simpl Z.of_nat. lia.
  - intros x Hx. apply Hhead.
    unfold off_total_blocks, sizeof_header in *. simpl Z.of_nat in Hx. lia.
Qed.

Lemma get_total_blocks_nonzero (file : rspamd_mmaped_file_t) (m : mapping)
  (n : Z) :
  map file = Some m -> off_total_blocks + 8 <= extent m ->
  load_le 8 (cells m) off_total_blocks = n -> n <> 0 ->
  statfile_get_total_blocks (Some file) = Ok (n, Some (set_map file (Some m))).
Proof.
  intros Hmap Hext Hload Hn.
  unfold statfile_get_total_blocks. rewrite Hmap.
  unfold bind, load_u64.
  rewrite load_ok by (unfold off_total_blocks in *; simpl Z.of_nat; lia).
  rewrite Hload.
  destruct (Z.eqb_spec n 0); [contradiction|].
  rewrite load_ok by (unfold off_total_blocks in *; simpl Z.of_nat; lia).
  now rewrite Hload.
Qed.

(** C4 (as amended).  Capacity: statfile_pool_create of a file that is not
    open, with a size S of at least sizeof (struct stat_file) = 320 bytes,
    writes a header whose total_blocks is (S - 288 - 16) / 16 truncated to
    32 bits, 288 being sizeof (struct stat_file_header).  For S below
    2^36 + 304 nothing is truncated, and opening the file back, in a pool
    with room, gives a handle whose section length and whose
    statfile_get_total_blocks are this same count. *)
Theorem capacity (path : string) (size : Z) (s : system) :
  statfile_pool_is_open (pool s) path = None ->
  sizeof_stat_file <= size ->
  exists (s1 : system) (df : disk_file),
    statfile_pool_create path size s = Ok (0, s1) /\
    disk s1 path = Some df /\
    load_le 8 (contents df) off_total_blocks =
      guint ((size - sizeof_header - sizeof_section) / sizeof_block) /\
    (size < 2 ^ 36 + sizeof_header + sizeof_section ->
     pool_has_room (pool s) ->
     load_le 8 (contents df) off_total_blocks =
       (size - sizeof_header - sizeof_section) / sizeof_block /\
     exists (idx : nat) (s2 : system) (file : rspamd_mmaped_file_t)
            (file' : option rspamd_mmaped_file_t),
       statfile_pool_open convert_statfile_10 path size false s1 =
         Ok (Some idx, s2) /\
       nth_error (files (pool s2)) idx = Some file /\
       length (cur_section file) =
         (size - sizeof_header - sizeof_section) / sizeof_block /\
       statfile_get_total_blocks (Some file) =
         Ok ((size - sizeof_header - sizeof_section) / sizeof_block, file')).
Proof.
  intros Hopen Hsize.
  destruct (create_post path size s Hopen) as (s1 & df & Hcr & Hup & Hfile).
  { layout_lia. }
  set (n := guint ((size - sizeof_header - sizeof_section) / sizeof_block))
    in *.
  assert (Hn : 0 <= n < 2 ^ 32) by (apply Z.mod_pos_bound; lia).
  exists s1, df. split; [exact Hcr|].
  split; [exact (disk_updated_file _ _ _ _ Hup)|].
  split; [apply (created_file_total_blocks df n (clock s) Hfile); lia|].
  intros Hbig Hroom.
  assert (Hq : 1 <= (size - sizeof_header - sizeof_section) / sizeof_block
               < 2 ^ 32).
  { unfold sizeof_stat_file, sizeof_header, sizeof_section, sizeof_block in *.
    split.
    - apply Z.div_le_lower_bound; lia.
    - apply Z.div_lt_upper_bound; lia. }
  assert (En : n = (size - sizeof_header - sizeof_section) / sizeof_block)
    by (subst n; apply guint_small; lia).
  rewrite <- En.
  split; [apply (created_file_total_blocks df n (clock s) Hfile); lia|].
  pose proof (created_file_image df n (clock s) Hfile ltac:(lia)) as Himg.
  destruct Hup as (Hpool & _ & _ & _ & _ & Hd & _).
  destruct Hfile as (Hfs & _).
  assert (Hmod : 0 <= size - fsize df < 16).
  { rewrite Hfs, En.
    unfold sizeof_header, sizeof_section, sizeof_block in *.
    pose proof (Z.mod_pos_bound (size - 288 - 16) 16 ltac:(lia)).
    pose proof (Z.div_mod (size - 288 - 16) 16 ltac:(lia)). lia. }
  rewrite (open_decision path size false s1 df)
    by (rewrite ?Hpool; try assumption; destruct Hroom as [[_ H] _]; exact H).
  rewrite labs_to_long_small by lia.
  destruct (Z.gtb_spec (Z.abs (size - fsize df)) (sizeof_stat_file * 2))
    as [Habs|_]; [unfold sizeof_stat_file in Habs; lia|].
  cbn [negb andb].
  destruct (Z.ltb_spec size sizeof_stat_file); [lia|].
  unfold bind at 1. unfold ret at 1.
  destruct (open_mapped_post path s1 df STATFILE_SECTION_COMMON n)
    as (s2 & Hopen2 & Hfiles & _); try assumption;
    try (rewrite Hpool; assumption).
  rewrite Hopen2. rewrite Hpool in *.
  eexists _, s2, _, _. split; [reflexivity|].
  split.
  { rewrite Hfiles. apply list_set_same. now destruct Hroom. }
  split; [reflexivity|].
  apply get_total_blocks_nonzero with
    (m := {| cells := contents df; extent := fsize df; probed := [] |}).
  - reflexivity.
  - cbn [extent]. rewrite Hfs.
    unfold off_total_blocks, sizeof_header, sizeof_section, sizeof_block. lia.
  - cbn [cells].
    apply (created_file_total_blocks df n (clock s)); [|lia].
    destruct (create_post path size s Hopen) as (s1' & df' & Hcr' & Hup' & Hf').
    { layout_lia. }
    rewrite Hcr in Hcr'. injection Hcr' as <-.
    rewrite (disk_updated_file _ _ _ _ Hup') in Hd. injection Hd as ->.
    exact Hf'.
  - lia.
Qed.

End Opening.

Lemma capacity_witness :
  statfile_pool_is_open (pool (boot 0)) "stat" = None /\
  sizeof_stat_file <= 65536 /\
  exists (s1 : system) (df : disk_file),
    statfile_pool_create "stat" 65536 (boot 0) = Ok (0, s1) /\
    disk s1 "stat" = Some df /\
    load_le 8 (contents df) off_total_blocks = 4077.
Proof.
  assert (H0 : statfile_pool_is_open (pool (boot 0)) "stat" = None)
    by reflexivity.
  assert (H1 : sizeof_stat_file <= 65536) by (unfold sizeof_stat_file; lia).
  split; [exact H0|]. split; [exact H1|].
  destruct (capacity no_conversion "stat" 65536 (boot 0) H0 H1)
    as (s1 & df & Hcr & Hd & Htb & _).
  exists s1, df. split; [exact Hcr|]. split; [exact Hd|]. exact Htb.
Defined.

(** Whatever the alignment of the 64-bit members, the header is longer
    than 256 bytes and a file of 65,536 bytes has room for 4077 blocks. *)
Lemma header_size_any_alignment (a : Z) :
  In a [1; 2; 4; 8] ->
  287 <= Layout.struct_size (Layout.stat_file_header_aligned a) <= 288 /\
  (65536 - Layout.struct_size (Layout.stat_file_header_aligned a)
   - sizeof_section) / sizeof_block = 4077.
Proof.
  intros [<-|[<-|[<-|[<-|[]]]]]; vm_compute;
    (split; [split; discriminate | reflexivity]).
Qed.

(** C4 as stated fails: a file created with 65,536 bytes has 4077 blocks,
    not (65536 - 256 - 16) / 16 = 4079, the header being 288 bytes long. *)
Lemma capacity_formula_fails :
  ~ capacity_formula_as_stated (boot 0) "stat" 65536.
Proof.
  intro H.
  destruct (create_post "stat" 65536 (boot 0) eq_refl)
    as (s1 & df & Hcr & Hup & Hfile).
  { unfold sizeof_header, sizeof_section, sizeof_block. lia. }
  specialize (H s1 df Hcr (disk_updated_file _ _ _ _ Hup)).
  rewrite (created_file_total_blocks df _ _ Hfile) in H.
  - vm_compute in H. discriminate H.
  - vm_compute. split; [discriminate|reflexivity].
Qed.

(** C7 (as amended).  statfile_pool_open without [forced], on a file that
    exists and is not open, in a pool below its limit, enters the reindex
    procedure for the requested size exactly when
    |size_on_disk - requested_size| > 2 * sizeof (struct stat_file) = 640
    and requested_size > sizeof (struct stat_file) = 320; otherwise it goes
    on to map the file with its size on disk, and for a file that
    validation accepts the handle has this length. *)
Theorem reindex_trigger
  (convert_statfile_10 : rspamd_mmaped_file_t -> option rspamd_mmaped_file_t)
  (path : string) (size : Z) (s : system) (df : disk_file) :
  statfile_pool_is_open (pool s) path = None ->
  opened (pool s) < STATFILES_MAX - 1 ->
  disk s path = Some df ->
  0 <= size < 2 ^ 63 -> 0 <= fsize df < 2 ^ 63 ->
  statfile_pool_open convert_statfile_10 path size false s =
    (if (Z.abs (fsize df - size) >? 2 * sizeof_stat_file)
        && (size >? sizeof_stat_file)
     then (msg (need_to_reindex (fsize df) size) ;;;
           rspamd_mmaped_file_reindex convert_statfile_10 path (fsize df)
             size) s
     else ((if size <? sizeof_stat_file then msg (shrink_too_small size)
            else ret tt) ;;;
           open_mapped convert_statfile_10 path (fsize df)) s)
  /\
  forall c n : Z,
    statfile_image df c n -> pool_has_room (pool s) ->
    (Z.abs (fsize df - size) >? 2 * sizeof_stat_file)
      && (size >? sizeof_stat_file) = false ->
    exists (idx : nat) (s' : system),
      statfile_pool_open convert_statfile_10 path size false s =
        Ok (Some idx, s') /\
      nth_error (files (pool s')) idx =
        Some (opened_handle path df (next_fd s) (clock s) c n) /\
      len (opened_handle path df (next_fd s) (clock s) c n) = fsize df.
Proof.
  intros Hopen Hlimit Hd Hsize Hfs.
  assert (Heq : statfile_pool_open convert_statfile_10 path size false s =
    (if (Z.abs (fsize df - size) >? 2 * sizeof_stat_file)
        && (size >? sizeof_stat_file)
     then (msg (need_to_reindex (fsize df) size) ;;;
           rspamd_mmaped_file_reindex convert_statfile_10 path (fsize df)
             size) s
     else ((if size <? sizeof_stat_file then msg (shrink_too_small size)
            else ret tt) ;;;
           open_mapped convert_statfile_10 path (fsize df)) s)).
  { rewrite (open_decision convert_statfile_10 path size false s df)
      by assumption.
    rewrite labs_to_long_small by lia.
    replace (Z.abs (size - fsize df)) with (Z.abs (fsize df - size)) by lia.
    replace (sizeof_stat_file * 2) with (2 * sizeof_stat_file) by lia.
    reflexivity. }
  split; [exact Heq|].
  intros c n Himg Hroom Hcond.
  rewrite Heq, Hcond.
  destruct (open_mapped_post convert_statfile_10 path s df c n
              Hroom Hopen Hd Himg)
    as (s' & Hm & Hfiles & _).
  assert (Hpre : forall (pre : ST system unit) (s0 : system),
            pre s = Ok (tt, s0) -> pool s0 = pool s -> disk s0 = disk s ->
            clock s0 = clock s -> next_fd s0 = next_fd s ->
            exists (idx : nat) (s' : system),
              (pre ;;; open_mapped convert_statfile_10 path (fsize df)) s =
                Ok (Some idx, s') /\
              nth_error (files (pool s')) idx =
                Some (opened_handle path df (next_fd s) (clock s) c n)).
  { intros pre s0 Hpre Hp Hdk Hc Hf.
    destruct (open_mapped_post convert_statfile_10 path s0 df c n)
      as (s1 & Hm1 & Hfiles1 & _);
      try (rewrite ?Hp, ?Hdk; assumption).
    unfold bind. rewrite Hpre, Hm1.
    eexists _, s1. split; [reflexivity|].
    rewrite Hfiles1, Hp, Hc, Hf. apply list_set_same. now destruct Hroom. }
  destruct (Z.ltb_spec size sizeof_stat_file).
  - destruct (Hpre (msg (shrink_too_small size)) _ eq_refl
                eq_refl eq_refl eq_refl eq_refl) as (idx & s1 & H1 & H2).
    exists idx, s1. now repeat split.
  - destruct (Hpre (ret tt) _ eq_refl eq_refl eq_refl eq_refl eq_refl)
      as (idx & s1 & H1 & H2).
    exists idx, s1. now repeat split.
Qed.

Lemma with_statfile_created (size : Z) (s : system) :
  statfile_pool_is_open (pool s) "stat" = None ->
  sizeof_header + sizeof_section + sizeof_block <= size ->
  exists df : disk_file,
    disk_updated s (with_statfile size s) "stat" df /\
    created_file df
      (guint ((size - sizeof_header - sizeof_section) / sizeof_block))
      (clock s).
Proof.
  intros Hopen Hsize.
  destruct (create_post "stat" size s Hopen Hsize)
    as (s1 & df & Hcr & Hup & Hfile).
  exists df. unfold with_statfile. rewrite Hcr. now split.
Qed.

Lemma reindex_trigger_witness :
  exists df : disk_file,
    disk (with_statfile 1000 (boot 0)) "stat" = Some df /\
    fsize df = 992 /\
    statfile_pool_open no_conversion "stat" 1592 false
      (with_statfile 1000 (boot 0)) =
    (ret tt ;;; open_mapped no_conversion "stat" 992)
      (with_statfile 1000 (boot 0)).
Proof.
  destruct (with_statfile_created 1000 (boot 0) eq_refl) as (df & Hup & Hfile).
  { unfold sizeof_header, sizeof_section, sizeof_block. lia. }
  destruct Hup as (Hpool & _ & _ & _ & _ & Hd & _).
  destruct Hfile as (Hfs & _).
  assert (Hfs' : fsize df = 992) by (rewrite Hfs; reflexivity).
  exists df. split; [exact Hd|]. split; [exact Hfs'|].
  destruct (reindex_trigger no_conversion "stat" 1592
              (with_statfile 1000 (boot 0)) df) as [Heq _].
  - now rewrite Hpool.
  - rewrite Hpool. unfold boot, STATFILES_MAX. cbn [opened pool]. lia.
  - exact Hd.
  - lia.
  - rewrite Hfs'. lia.
  - rewrite Heq, Hfs'. reflexivity.
Defined.

(** C7 as stated fails: with 2 * sizeof (Header) = 576 as the threshold a
    file of 992 bytes opened with a requested size of 1592 would be
    reindexed; the code maps it as it is, the difference of 600 being below
    2 * sizeof (struct stat_file) = 640. *)
Lemma reindex_trigger_not_header :
  ~ reindex_trigger_as_stated no_conversion "stat" 1592
      (with_statfile 1000 (boot 0)).
Proof.
  intro H.
  destruct (with_statfile_created 1000 (boot 0) eq_refl) as (df & Hup & Hfile).
  { unfold sizeof_header, sizeof_section, sizeof_block. lia. }
  destruct Hup as (_ & _ & _ & _ & _ & Hd & _).
  destruct Hfile as (Hfs & _).
  assert (Hfs' : fsize df = 992) by (rewrite Hfs; reflexivity).
  specialize (H df Hd). rewrite Hfs' in H.
  apply (f_equal (fun r => match r with
                           | Ok (_, s) => log s
                           | Fault => []
                           end)) in H.
  vm_compute in H. discriminate H.
Qed.

(** C9 (as amended).  Pool capacity: statfile_pool_open of a file that is
    not open returns no handle, logs that the limit is reached and leaves
    the pool as it is once STATFILES_MAX - 1 = 254 handles are open; with
    fewer it goes on to open the file, and opening a file that validation
    accepts then takes the next cell of the pool. *)
Theorem pool_limit
  (convert_statfile_10 : rspamd_mmaped_file_t -> option rspamd_mmaped_file_t)
  (path : string) (size : Z) (forced : bool) (s : system) :
  statfile_pool_is_open (pool s) path = None ->
  (STATFILES_MAX - 1 <= opened (pool s) ->
   exists s' : system,
     statfile_pool_open convert_statfile_10 path size forced s =
       Ok (None, s') /\
     pool s' = pool s /\ disk s' = disk s /\
     log s' = reached_limit STATFILES_MAX :: log s)
  /\
  (opened (pool s) < STATFILES_MAX - 1 ->
   statfile_pool_open convert_statfile_10 path size forced s =
     open_stat_and_map convert_statfile_10
       (rspamd_mmaped_file_reindex convert_statfile_10) path size forced s)
  /\
  (forall (df : disk_file) (c n : Z),
     pool_has_room (pool s) -> disk s path = Some df ->
     statfile_image df c n -> sizeof_stat_file <= size -> forced = true ->
     exists s' : system,
       statfile_pool_open convert_statfile_10 path size forced s =
         Ok (Some (Z.to_nat (opened (pool s))), s') /\
       opened (pool s') = opened (pool s) + 1).
Proof.
  intro Hopen.
  split; [|split].
  - intro Hfull.
    unfold statfile_pool_open, statfile_pool_open_with.
    unfold bind at 1. unfold get_pool. rewrite Hopen.
    destruct (Z.geb_spec (opened (pool s)) (STATFILES_MAX - 1)); [|lia].
    eexists. split; [reflexivity|]. now repeat split.
  - intro Hroom.
    unfold statfile_pool_open, statfile_pool_open_with.
    unfold bind at 1. unfold get_pool. rewrite Hopen.
    destruct (Z.geb_spec (opened (pool s)) (STATFILES_MAX - 1)); [lia|].
    reflexivity.
  - intros df c n Hroom Hd Himg Hsize ->.
    rewrite (open_decision convert_statfile_10 path size true s df)
      by (try assumption; now destruct Hroom as [[_ H] _]).
    cbn [negb andb].
    destruct (Z.ltb_spec size sizeof_stat_file); [lia|].
    destruct (open_mapped_post convert_statfile_10 path s df c n
                Hroom Hopen Hd Himg) as (s' & Hm & _ & Hop & _).
    exists s'. unfold bind, ret. now split.
Qed.

Lemma pool_limit_witness :
  exists s' : system,
    statfile_pool_open no_conversion "stat" 1000 false
      (with_statfile 1000 (boot 254)) = Ok (None, s') /\
    pool s' = pool (with_statfile 1000 (boot 254)).
Proof.
  destruct (with_statfile_created 1000 (boot 254) eq_refl)
    as (df & Hup & _).
  { unfold sizeof_header, sizeof_section, sizeof_block. lia. }
  destruct Hup as (Hpool & _).
  destruct (pool_limit no_conversion "stat" 1000 false
              (with_statfile 1000 (boot 254))) as [Hfull _].
  - now rewrite Hpool.
  - destruct Hfull as (s' & Hrun & Hp & _).
    + rewrite Hpool. unfold boot, STATFILES_MAX. cbn [opened pool]. lia.
    + exists s'. now split.
Defined.

(** C9 as stated fails: with 254 handles open, one below STATFILES_MAX,
    and a cell of the pool still unused, statfile_pool_open of a valid
    file returns no handle. *)
Lemma pool_limit_not_255 :
  ~ pool_limit_as_stated no_conversion "stat" 1000 false
      (with_statfile 1000 (boot 254)).
Proof.
  intro H.
  destruct (with_statfile_created 1000 (boot 254) eq_refl)
    as (df & Hup & _).
  { unfold sizeof_header, sizeof_section, sizeof_block. lia. }
  destruct Hup as (Hpool & _).
  assert (H1 : statfile_pool_is_open (pool (with_statfile 1000 (boot 254)))
                 "stat" = None) by now rewrite Hpool.
  assert (H2 : opened (pool (with_statfile 1000 (boot 254))) < STATFILES_MAX)
    by (rewrite Hpool; unfold boot, STATFILES_MAX; cbn [opened pool]; lia).
  specialize (H H1 H2).
  apply (f_equal (fun r => match r with
                           | Ok (i, _) => i
                           | Fault => None
                           end)) in H.
  vm_compute in H. discriminate H.
Qed.

(** ** Header fields *)

(** C10.  statfile_get_total_blocks is not a pure read.  For a NULL handle
    or a NULL mapping it returns (guint64) -1 = 2^64 - 1.  When the
    total_blocks field of the mapped header is 0 it stores the length of
    the current section there and returns it; otherwise it returns the
    field and leaves the bytes of the mapping alone. *)
Theorem total_blocks_not_pure :
  statfile_get_total_blocks None = Ok (2 ^ 64 - 1, None) /\
  (forall file : rspamd_mmaped_file_t,
     map file = None ->
     statfile_get_total_blocks (Some file) = Ok (2 ^ 64 - 1, Some file)) /\
  (forall (file : rspamd_mmaped_file_t) (m : mapping),
     map file = Some m -> off_total_blocks + 8 <= extent m ->
     load_le 8 (cells m) off_total_blocks = 0 ->
     is_guint64 (length (cur_section file)) ->
     statfile_get_total_blocks (Some file) =
       Ok (length (cur_section file),
           Some (set_map file
                   (Some {| cells := store_le 8 (cells m) off_total_blocks
                                       (length (cur_section file));
                            extent := extent m;
                            probed := probed m |})))) /\
  (forall (file : rspamd_mmaped_file_t) (m : mapping) (n : Z),
     map file = Some m -> off_total_blocks + 8 <= extent m ->
     load_le 8 (cells m) off_total_blocks = n -> n <> 0 ->
     statfile_get_total_blocks (Some file) =
       Ok (n, Some (set_map file (Some m)))).
Proof.
  split; [reflexivity|]. split; [|split].
  - intros file Hmap. unfold statfile_get_total_blocks. now rewrite Hmap.
  - intros file m Hmap Hext Hzero Hlen.
    unfold statfile_get_total_blocks. rewrite Hmap.
    unfold bind, load_u64, store_u64.
    rewrite load_ok by (unfold off_total_blocks in *; simpl Z.of_nat; lia).
    rewrite Hzero. cbn [Z.eqb].
    rewrite store_ok by (unfold off_total_blocks in *; simpl Z.of_nat; lia).
    rewrite load_ok
      by (cbn [extent]; unfold off_total_blocks in *; simpl Z.of_nat; lia).
    cbn [cells]. rewrite load_store_same.
    rewrite Z.mod_small by exact Hlen. reflexivity.
  - intros file m n. apply get_total_blocks_nonzero.
Qed.

Lemma total_blocks_not_pure_witness :
  exists m' : mapping,
    statfile_get_total_blocks (Some (sample_file (fun _ => 0) 4)) =
      Ok (4, Some (set_map (sample_file (fun _ => 0) 4) (Some m'))) /\
    load_le 8 (cells m') off_total_blocks = 4.
Proof.
  destruct total_blocks_not_pure as (_ & _ & Hlegacy & _).
  eexists. split.
  - apply (Hlegacy (sample_file (fun _ => 0) 4)
             (sample_mapping (fun _ => 0) 4)).
    + reflexivity.
    + vm_compute. discriminate.
    + reflexivity.
    + unfold is_guint64. cbn. lia.
  - reflexivity.
Defined.

(** ** Reindexing *)

Lemma string_length_append (a b : string) :
  String.length (a ++ b) = (String.length a + String.length b)%nat.
Proof. induction a as [|c a IH]; cbn; [reflexivity | now rewrite IH]. Qed.

Lemma backup_name_differs (path : string) :
  (path ++ BACKUP_SUFFIX)%string <> path.
Proof.
  intro H. apply (f_equal String.length) in H.
  rewrite string_length_append in H. cbn in H. lia.
Qed.

(** The copy loop ends within its fuel and leaves the handle valid, its
    cursor where it was. *)
Lemma reindex_copy_post (old : mapping) (old_size : Z) (fuel : nat) :
  extent old = old_size -> old_size < 2 ^ 63 ->
  forall (pos : Z) (new : rspamd_mmaped_file_t) (m : mapping),
    valid_handle new m ->
    0 <= pos <= old_size ->
    old_size - pos < 8 * Z.of_nat fuel ->
    exists (new' : rspamd_mmaped_file_t) (m' : mapping),
      reindex_copy fuel old old_size pos new = Ok new' /\
      valid_handle new' m' /\ extent m' = extent m.
Proof.
  intros Hext Hbig.
  induction fuel as [|fuel IH]; intros pos new m Hvalid Hpos Hfuel; [lia|].
  cbn [reindex_copy].
  unfold guint64. rewrite Z.mod_small by lia.
  destruct (Z.geb_spec (old_size - pos) sizeof_block) as [Hge|Hlt].
  - unfold bind, load_u32, load_u64.
    unfold sizeof_block, sizeof_block_ptr, off_hash1, off_hash2, off_value
      in *.
    rewrite !load_ok by (simpl Z.of_nat; lia).
    set (h1 := load_le 4 (cells old) (pos + 0)).
    set (h2 := load_le 4 (cells old) (pos + 4)).
    set (v := load_le 8 (cells old) (pos + 8)).
    assert (H1 : is_guint32 h1) by apply (load_le_range 4).
    assert (H2 : is_guint32 h2) by apply (load_le_range 4).
    assert (Hv : is_guint64 v) by apply (load_le_range 8).
    unfold ret.
    destruct (negb (h1 =? 0) && double_ne v 0).
    + destruct (set_block_common_post new m h1 h2 0 v false Hvalid H1 H2 Hv)
        as (k & j & m1 & Hset & Hex & _).
      rewrite Hset.
      destruct (IH (pos + 8) (set_map new (Some m1)) m1)
        as (new' & m' & Hrec & Hvalid' & Hex').
      * now apply (valid_handle_set_map new m).
      * lia.
      * lia.
      * exists new', m'. split; [exact Hrec|]. split; [exact Hvalid'|].
        congruence.
    + apply (IH (pos + 8) new m Hvalid); lia.
  - exists new, m.
    split; [reflexivity | split; [exact Hvalid | reflexivity]].
Qed.

Lemma set_revision_post (file : rspamd_mmaped_file_t) (m : mapping)
  (rev time : Z) :
  map file = Some m -> off_rev_time + 8 <= extent m ->
  is_guint64 rev -> is_guint64 time ->
  exists m' : mapping,
    statfile_set_revision (Some file) rev (to_long time) =
      Ok (true, Some (set_map file (Some m'))) /\
    statfile_get_revision (Some (set_map file (Some m'))) =
      Ok (Some (rev, to_long time)).
Proof.
  intros Hmap Hext Hrev Htime.
  assert (Hback : guint64 (to_long time) = time).
  { unfold guint64, to_long, is_guint64 in *.
    rewrite (Z.mod_small time) by lia.
    destruct (Z.ltb_spec time (2 ^ 63)).
    - apply Z.mod_small. lia.
    - symmetry. apply Z.mod_unique with (q := -1); lia. }
  unfold statfile_set_revision. rewrite Hmap, Hback.
  unfold bind, store_u64, off_revision, off_rev_time in *.
  rewrite store_ok by (simpl Z.of_nat; lia).
  rewrite store_ok by (cbn [extent]; simpl Z.of_nat; lia).
  eexists. split; [reflexivity|].
  unfold statfile_get_revision. cbn [map set_map].
  unfold bind, load_u64, ret, off_revision, off_rev_time.
  rewrite !load_ok by (cbn [extent]; simpl Z.of_nat; lia).
  cbn [cells].
  rewrite load_store_other by (simpl Z.of_nat; lia).
  rewrite !load_store_same.
  unfold is_guint64 in *. simpl Z.of_nat.
  rewrite !Z.mod_small by lia. reflexivity.
Qed.

Lemma set_file_ok (idx : nat) (f : rspamd_mmaped_file_t) (s : system) :
  (idx < List.length (files (pool s)))%nat ->
  exists s' : system,
    set_file idx f s = Ok (tt, s') /\
    files (pool s') = list_set (files (pool s)) idx f /\
    opened (pool s') = opened (pool s) /\
    disk s' = disk s.
Proof.
  intro H. unfold set_file.
  apply Nat.ltb_lt in H. rewrite H.
  eexists. split; [reflexivity|]. now repeat split.
Qed.

Section Reindexing.

Variable convert_statfile_10 :
  rspamd_mmaped_file_t -> option rspamd_mmaped_file_t.

(** C6.  Revision preservation: rspamd_mmaped_file_reindex of a file that
    is not open and at least as long as the two headers, to a size for
    which the new file has at least one block, in a pool with room, returns
    a handle, and what statfile_get_revision reads from this handle are the
    revision and the rev_time of the header of the old file. *)
Theorem reindex_preserves_revision (path : string) (old_size size : Z)
  (s : system) (old_df : disk_file) :
  disk s path = Some old_df ->
  statfile_pool_is_open (pool s) path = None ->
  pool_has_room (pool s) ->
  sizeof_header + sizeof_section <= old_size < 2 ^ 63 ->
  sizeof_stat_file <= size ->
  guint ((size - sizeof_header - sizeof_section) / sizeof_block) <> 0 ->
  exists (idx : nat) (s' : system) (file : rspamd_mmaped_file_t),
    rspamd_mmaped_file_reindex convert_statfile_10 path old_size size s =
      Ok (Some idx, s') /\
    nth_error (files (pool s')) idx = Some file /\
    statfile_get_revision (Some file) =
      Ok (Some (load_le 8 (contents old_df) off_revision,
                to_long (load_le 8 (contents old_df) off_rev_time))).
Proof.
  intros Hd Hopen Hroom Hold Hsize Hblocks.
  pose proof (backup_name_differs path) as Hneq.
  set (backup := (path ++ BACKUP_SUFFIX)%string) in *.
  unfold rspamd_mmaped_file_reindex. fold backup.
  destruct (Z.ltb_spec size (sizeof_header + sizeof_section + sizeof_block_ptr))
    as [Hsmall|_];
    [layout_lia|].
  (* rename *)
  unfold bind at 1. unfold sys_rename at 1. rewrite Hd.
  cbv beta iota. cbn [negb]. unfold bind at 1.
  match goal with
  | |- context [statfile_pool_create path size ?st] => set (s1 := st)
  end.
  assert (Hb1 : disk s1 backup = Some old_df)
    by (subst s1; cbn; now rewrite String.eqb_refl).
  (* create *)
  destruct (create_post path size s1) as (s2 & df & Hcr & Hup & Hfile).
  { exact Hopen. }
  { layout_lia. }
  rewrite Hcr. cbv beta iota. cbn [Z.eqb negb].
  destruct Hup as (Hp2 & _ & _ & _ & _ & Hd2 & Ho2).
  assert (Hb2 : disk s2 backup = Some old_df) by (rewrite Ho2; assumption).
  (* open of the backup *)
  unfold bind at 1. unfold sys_open at 1. rewrite Hb2.
  cbv beta iota. unfold bind at 1.
  match goal with
  | |- context [statfile_pool_open_forced _ path size ?st] => set (s3 := st)
  end.
  (* open of the new file *)
  set (n := guint ((size - sizeof_header - sizeof_section) / sizeof_block))
    in *.
  assert (Hn : 0 < n < 2 ^ 32).
  { pose proof (Z.mod_pos_bound
                  ((size - sizeof_header - sizeof_section) / sizeof_block)
                  (2 ^ 32) ltac:(lia)) as Hb.
    fold (guint ((size - sizeof_header - sizeof_section) / sizeof_block))
      in Hb. fold n in Hb. lia. }
  pose proof (created_file_image df n (clock s1) Hfile Hn) as Himg.
  assert (Hp3 : pool s3 = pool s) by (subst s3; cbn [pool]; exact Hp2).
  assert (Hd3 : disk s3 path = Some df) by (subst s3; cbn [disk]; exact Hd2).
  rewrite (open_forced_decision convert_statfile_10 path size s3 df);
    cycle 1.
  { rewrite Hp3. exact Hopen. }
  { rewrite Hp3. now destruct Hroom as [[_ H] _]. }
  { exact Hd3. }
  { lia. }
  destruct (open_mapped_post convert_statfile_10 path s3 df
              STATFILE_SECTION_COMMON n)
    as (s4 & Hom & Hfiles4 & Hop4 & Hd4 & _).
  { rewrite Hp3. exact Hroom. }
  { rewrite Hp3. exact Hopen. }
  { exact Hd3. }
  { exact Himg. }
  rewrite Hom. cbv beta iota. rewrite Hp3 in *.
  set (idx := Z.to_nat (opened (pool s))) in *.
  assert (Hidx : (idx < List.length (files (pool s)))%nat)
    by now destruct Hroom.
  (* mapping of the backup *)
  unfold bind at 1. unfold sys_mmap at 1.
  assert (Hb4 : disk s4 backup = Some old_df) by (rewrite Hd4; exact Hb2).
  rewrite Hb4.
  destruct (Z.leb_spec old_size 0) as [Hle|_];
    [unfold sizeof_header, sizeof_section in Hold; lia|].
  set (old := {| cells := contents old_df; extent := old_size;
                 probed := [] |}).
  (* the handle *)
  unfold bind at 1. unfold get_file at 1.
  rewrite Hfiles4, list_set_same by exact Hidx.
  (* the copy loop *)
  destruct (reindex_copy_post old old_size (Z.to_nat old_size) eq_refl
              ltac:(lia) (sizeof_stat_file - sizeof_block)
              (opened_handle path df (next_fd s3) (clock s3)
                 STATFILE_SECTION_COMMON n)
              {| cells := contents df; extent := fsize df; probed := [] |})
    as (new' & m' & Hcopy & Hvalid' & Hex').
  { now apply opened_handle_valid. }
  { layout_lia. }
  { layout_lia. }
  unfold bind at 1. unfold lift at 1. rewrite Hcopy.
  destruct (set_file_ok idx new' s4) as (s5 & Hsf5 & Hfiles5 & _ & Hd5).
  { rewrite Hfiles4, list_set_length. exact Hidx. }
  unfold bind at 1. rewrite Hsf5.
  (* the revision *)
  unfold bind at 1. unfold peek at 1. unfold load_u64 at 1.
  rewrite load_ok
    by (cbn [extent old]; unfold off_revision, sizeof_header,
          sizeof_section in *; simpl Z.of_nat; lia).
  unfold bind at 1. unfold peek at 1. unfold load_u64 at 1.
  rewrite load_ok
    by (cbn [extent old]; unfold off_rev_time, sizeof_header,
          sizeof_section in *; simpl Z.of_nat; lia).
  cbn [cells old].
  destruct Hvalid' as (Hmap' & Hlen' & Hseek' & Hext').
  destruct (set_revision_post new' m'
              (load_le 8 (contents old_df) off_revision)
              (load_le 8 (contents old_df) off_rev_time) Hmap')
    as (m'' & Hset & Hget).
  { layout_lia. }
  { apply (load_le_range 8). }
  { apply (load_le_range 8). }
  unfold bind at 1. unfold lift at 1. rewrite Hset. cbn [snd].
  destruct (set_file_ok idx (set_map new' (Some m'')) s5)
    as (s6 & Hsf6 & Hfiles6 & _).
  { rewrite Hfiles5, Hfiles4, !list_set_length. exact Hidx. }
  unfold bind at 1. rewrite Hsf6.
  unfold bind at 1. unfold sys_unlink at 1. unfold ret.
  eexists idx, _, (set_map new' (Some m'')).
  split; [reflexivity|]. split; [|exact Hget].
  cbn [pool with_disk]. rewrite Hfiles6.
  apply list_set_same.
  rewrite Hfiles5, Hfiles4, !list_set_length. exact Hidx.
Qed.

End Reindexing.

Lemma reindex_preserves_revision_witness :
  exists (idx : nat) (s' : system) (file : rspamd_mmaped_file_t),
    rspamd_mmaped_file_reindex no_conversion "stat" 336 2000
      old_statfile_on_disk = Ok (Some idx, s') /\
    nth_error (files (pool s')) idx = Some file /\
    statfile_get_revision (Some file) = Ok (Some (7, 1234)).
Proof.
  apply (reindex_preserves_revision no_conversion "stat" 336 2000
           old_statfile_on_disk old_statfile).
  - reflexivity.
  - reflexivity.
  - unfold pool_has_room, old_statfile_on_disk, STATFILES_MAX.
    cbn [pool opened files]. split; [lia|].
    rewrite repeat_length. vm_compute. lia.
  - unfold sizeof_header, sizeof_section. lia.
  - unfold sizeof_stat_file. lia.
  - vm_compute. discriminate.
Defined.

(** C5: the code at a failing input.  The first block of the old file,
    [(1, 0x3FF00000)] with the value 0x3FF0000000000001, has a non-zero
    hash1 and a non-zero value, and the new file of 106 blocks is far from
    full; after the reindex that statfile_pool_open triggers, get of this
    key returns 0x4000000000000002.  The copy loop advances by
    sizeof (block) = 8 bytes, [block] being a pointer, so it also reads as
    a block the 16 bytes that straddle the two blocks of the file: here the
    key [(1, 0x3FF00000)], the halves of the first value, with the two
    hashes of the second block as its value. *)
Lemma reindex_overwrites_entry :
  hash1_at (contents old_statfile) (sizeof_header + sizeof_section) = 1 /\
  hash2_at (contents old_statfile) (sizeof_header + sizeof_section)
    = 0x3FF00000 /\
  value_at (contents old_statfile) (sizeof_header + sizeof_section)
    = 0x3FF0000000000001 /\
  double_ne 0x3FF0000000000001 0 = true /\
  value_after_open 2000 old_statfile_on_disk 1 0x3FF00000 =
    Some 0x4000000000000002 /\
  value_after_open 2000 old_statfile_on_disk 2 0x40000000 =
    Some double_1_5.
Proof. vm_compute. repeat split; reflexivity. Qed.

(** ** Sections *)

(** More fuel does not change the outcome of a walk that has ended. *)
Lemma section_walk_more_fuel (fuel : nat) :
  forall (code file_len cur_offset : Z) (m m' : mapping) (w : walk),
    section_walk fuel code file_len cur_offset m = Ok (w, m') ->
    w <> Walking ->
    forall extra : nat,
      section_walk (fuel + extra) code file_len cur_offset m = Ok (w, m').
Proof.
  induction fuel as [|fuel IH]; intros code file_len cur_offset m m' w H Hw extra.
  - cbn in H. injection H as <- _. contradiction.
  - cbn [section_walk Nat.add] in *.
    destruct (cur_offset <? to_long file_len); [|exact H].
    unfold bind in *.
    destruct (load_u64 (cur_offset + off_code) m) as [[c m1]|]; [|exact H].
    destruct (c =? code); [exact H|].
    destruct (load_u64 (cur_offset + off_length) m1) as [[l m2]|]; [|exact H].
    now apply IH.
Qed.

(** The part of the section walk that is as specified: the walk starts at
    sizeof (Header) or at the header of the current section, and a section
    header found there with the code sought becomes the current section,
    the seek position just behind it. *)
Lemma set_section_at_start (fuel : nat) (file : rspamd_mmaped_file_t)
  (m : mapping) (code : Z) (from_begin : bool) :
  map file = Some m ->
  let start := if from_begin then sizeof_header
               else to_long (seek_pos file - sizeof_section) in
  0 <= start -> start + sizeof_section <= extent m ->
  start < to_long (len file) ->
  load_le 8 (cells m) (start + off_code) = code ->
  statfile_pool_set_section (S fuel) file code from_begin =
    Ok (Some (true,
              set_cursor file
                {| code := code;
                   length := load_le 8 (cells m) (start + off_length) |}
                (to_long (start + sizeof_section)))).
Proof.
  intros Hmap start H0 Hext Hlt Hcode.
  unfold statfile_pool_set_section. rewrite Hmap. fold start.
  cbn [section_walk].
  destruct (Z.ltb_spec start (to_long (len file))); [|lia].
  unfold bind, load_u64, ret.
  rewrite load_ok
    by (unfold off_code, sizeof_section in *; simpl Z.of_nat; lia).
  rewrite Hcode, Z.eqb_refl.
  rewrite load_ok
    by (unfold off_length, sizeof_section in *; simpl Z.of_nat; lia).
  reflexivity.
Qed.

(** C8: the code at a failing input.  In a file of two sections, the first
    of two blocks, the header of the second section is at offset
    288 + 16 + 2 * 16 = 336, and the walk by the byte span of the section
    finds it there.  statfile_pool_set_section from the beginning does not:
    from the first section header at 288 it advances by the length of the
    section, 2, to offset 290, and from what it reads there beyond the end
    of the file. *)
Lemma set_section_misses_section :
  load_le 8 two_sections (336 + off_code) = 2 /\
  load_le 8 two_sections (336 + off_length) = 1 /\
  statfile_pool_set_section 3 two_sections_file 2 true =
    Ok (Some (false, two_sections_file)) /\
  (forall (fuel : nat) (p : list Z),
     section_walk (S fuel) 2 (len two_sections_file) sizeof_header
       {| cells := two_sections; extent := len two_sections_file;
          probed := p |} =
     section_walk fuel 2 (len two_sections_file) 290
       {| cells := two_sections; extent := len two_sections_file;
          probed := p |}) /\
  (forall p : list Z,
     section_walk_by_span 2 2 (len two_sections_file) sizeof_header
       {| cells := two_sections; extent := len two_sections_file;
          probed := p |} =
     Ok (Found 336 1,
         {| cells := two_sections; extent := len two_sections_file;
            probed := p |})).
Proof.
  split; [reflexivity|]. split; [reflexivity|]. split; [reflexivity|].
  split; intros; reflexivity.
Qed.

(** * Further properties *)

(** ** The block table: reads, updates and the count of used blocks *)

Lemma chain_slots_in_section (file : rspamd_mmaped_file_t) (h1 : Z) (j : nat) :
  0 < length (cur_section file) ->
  (j < chain_slots file h1)%nat ->
  0 <= slot0 file h1 /\ slot0 file h1 + Z.of_nat j < length (cur_section file).
Proof.
  intros Hlen Hj. unfold chain_slots, slot0 in *.
  pose proof (Z.mod_pos_bound h1 (length (cur_section file)) Hlen). lia.
Qed.

(** X1.  statfile_pool_get_block never writes to the mapping: on a valid
    handle it returns a value and leaves the bytes, the extent, the cursor
    and the current section as they are, setting only the access time; and
    for a key that no block of its chain holds the value is 0. *)
Theorem get_reads_only (file : rspamd_mmaped_file_t) (m : mapping)
  (h1 h2 now : Z) :
  valid_handle file m ->
  exists (v : Z) (file' : rspamd_mmaped_file_t) (m' : mapping),
    statfile_pool_get_block file h1 h2 now = Ok (v, file') /\
    map file' = Some m' /\ cells m' = cells m /\ extent m' = extent m /\
    access_time file' = now /\ seek_pos file' = seek_pos file /\
    cur_section file' = cur_section file /\ len file' = len file /\
    filename file' = filename file /\
    ((forall j, (j < chain_slots file h1)%nat ->
        key_eqb (cells m) (chain_block file h1 j) h1 h2 = false) ->
     v = 0).
Proof.
  intro Hvalid.
  destruct (get_block_post file m h1 h2 now Hvalid) as (k & v & Hget & Hres).
  exists v. eexists _, _. split; [exact Hget|].
  repeat (split; [reflexivity|]).
  intro Habsent.
  destruct Hres as (Hk & [(k' & -> & _ & Hhit & _)|(_ & -> & _)]);
    [|reflexivity].
  assert (Hmiss := Habsent k' ltac:(lia)).
  unfold chain_block in Hmiss. rewrite Hmiss in Hhit. discriminate.
Qed.

Lemma get_reads_only_witness :
  exists (v : Z) (file' : rspamd_mmaped_file_t) (m' : mapping),
    statfile_pool_get_block (sample_file two_small_blocks 2) 4 5 77 =
      Ok (v, file') /\
    map file' = Some m' /\ cells m' = two_small_blocks /\
    extent m' = extent (sample_mapping two_small_blocks 2) /\
    access_time file' = 77 /\
    seek_pos file' = seek_pos (sample_file two_small_blocks 2) /\
    cur_section file' = cur_section (sample_file two_small_blocks 2) /\
    len file' = len (sample_file two_small_blocks 2) /\
    filename file' = filename (sample_file two_small_blocks 2) /\
    ((forall j, (j < chain_slots (sample_file two_small_blocks 2) 4)%nat ->
        key_eqb two_small_blocks
          (chain_block (sample_file two_small_blocks 2) 4 j) 4 5 = false) ->
     v = 0).
Proof.
  apply (get_reads_only (sample_file two_small_blocks 2)
           (sample_mapping two_small_blocks 2) 4 5 77).
  apply sample_file_valid. lia.
Defined.

(** The handle that set returns has the cursor and the section of the
    handle it was given. *)
Lemma chain_after_set (file : rspamd_mmaped_file_t) (t : Z) (from_now : bool)
  (m' : option mapping) (h : Z) :
  let file' := set_map (if from_now then set_access_time file t else file) m'
  in chain_base file' h = chain_base file h /\
     chain_slots file' h = chain_slots file h /\
     seek_pos file' = seek_pos file /\ cur_section file' = cur_section file.
Proof. destruct from_now; repeat split. Qed.

Lemma valid_after_set (file : rspamd_mmaped_file_t) (m m' : mapping) (t : Z)
  (from_now : bool) :
  valid_handle file m -> extent m' = extent m ->
  valid_handle
    (set_map (if from_now then set_access_time file t else file) (Some m')) m'.
Proof.
  intros Hvalid Hex. apply valid_handle_set_map with (m := m); [|exact Hex].
  now destruct from_now.
Qed.

Lemma chain_base_behind_header (file : rspamd_mmaped_file_t) (m : mapping)
  (h1 : Z) :
  valid_handle file m -> off_used_blocks + 8 <= chain_base file h1.
Proof.
  intros (_ & Hlen & Hseek & _). unfold chain_base, slot0.
  pose proof (Z.mod_pos_bound h1 (length (cur_section file)) ltac:(lia)).
  layout_lia.
Qed.

(** After set, the key sits in the block written and every block before it
    in the chain is still occupied by another key. *)
Lemma set_effect_position (f f' : Z -> Z) (base : Z) (K : nat)
  (h1 h2 value : Z) (k j : nat) :
  off_used_blocks + 8 <= base ->
  set_effect f base K h1 h2 value k j f' ->
  (j < K)%nat /\
  key_eqb f' (base + sizeof_block * Z.of_nat j) h1 h2 = true /\
  forall j', (j' < j)%nat ->
    occupied_by_other f' (base + sizeof_block * Z.of_nat j') h1 h2 = true.
Proof.
  intros Hbase (Hk & Hj & Hbefore & Hst & _).
  split; [lia|]. split; [exact (stored_at_key _ _ _ _ _ _ Hst)|].
  intros j' Hj'. specialize (Hbefore j' Hj').
  unfold occupied_by_other in *.
  destruct (stored_at_other f f' _ h1 h2 value
              (base + sizeof_block * Z.of_nat j') h1 h2 Hst) as [-> _];
    [unfold sizeof_block; lia | unfold sizeof_block; lia |].
  destruct (stored_at_other f f' _ h1 h2 value
              (base + sizeof_block * Z.of_nat j') 0 0 Hst) as [-> _];
    [unfold sizeof_block; lia | unfold sizeof_block; lia |].
  exact Hbefore.
Qed.

(** set of a key that its chain holds, behind blocks of other keys only,
    is an update: the value of that block is stored and nothing else. *)
Lemma set_effect_update (f f' : Z -> Z) (base : Z) (K : nat)
  (h1 h2 value : Z) (k j j0 : nat) :
  (j0 < K)%nat ->
  key_eqb f (base + sizeof_block * Z.of_nat j0) h1 h2 = true ->
  (forall j', (j' < j0)%nat ->
     occupied_by_other f (base + sizeof_block * Z.of_nat j') h1 h2 = true) ->
  set_effect f base K h1 h2 value k j f' ->
  j = j0 /\
  f' = store_le 8 f (base + sizeof_block * Z.of_nat j0 + off_value) value.
Proof.
  intros Hj0 Hkey Hocc (Hk & Hj & Hbefore & Hst & Hcase).
  assert (Hnot : forall i, occupied_by_other f
                   (base + sizeof_block * Z.of_nat i) h1 h2 = true ->
                 i <> j0).
  { intros i Hi ->. rewrite (occupied_not_key _ _ _ _ Hi) in Hkey.
    discriminate. }
  assert (Hle : (j <= j0)%nat).
  { destruct (Nat.le_gt_cases j j0) as [H|H]; [exact H|].
    now destruct (Hnot j0 (Hbefore j0 H)). }
  destruct Hcase as [(_ & Hhit & ->)|[(_ & Hmiss & Hfree & _)|(_ & Hfull & _)]].
  - destruct (Nat.eq_dec j j0) as [->|Hne]; [now split|].
    rewrite (occupied_not_key _ _ _ _ (Hocc j ltac:(lia))) in Hhit.
    discriminate.
  - destruct (Nat.eq_dec j j0) as [->|Hne].
    + congruence.
    + rewrite (occupied_not_free _ _ _ _ (Hocc j ltac:(lia))) in Hfree.
      discriminate.
  - now destruct (Hnot j0 (Hfull j0 Hj0)).
Qed.

Lemma get_used_blocks_ok (file : rspamd_mmaped_file_t) (m : mapping) :
  map file = Some m -> off_used_blocks + 8 <= extent m ->
  statfile_get_used_blocks (Some file) =
    Ok (load_le 8 (cells m) off_used_blocks).
Proof.
  intros Hmap Hext. unfold statfile_get_used_blocks, load_u64.
  rewrite Hmap, load_ok by (unfold off_used_blocks in *; simpl Z.of_nat; lia).
  reflexivity.
Qed.

(** X3.  The last write wins, and an update is not counted: two calls of
    set for the same key, whatever the chain holds, leave the second value
    to be read by get, and the used_blocks field after the second call is
    what it was after the first. *)
Theorem update_overwrites (file : rspamd_mmaped_file_t) (m : mapping)
  (h1 h2 t1 t2 v1 v2 now : Z) (b1 b2 : bool) :
  valid_handle file m ->
  is_guint32 h1 -> is_guint32 h2 -> is_guint64 v1 -> is_guint64 v2 ->
  exists file1 file2 file3 : rspamd_mmaped_file_t,
    statfile_pool_set_block_common file h1 h2 t1 v1 b1 = Ok file1 /\
    statfile_pool_set_block_common file1 h1 h2 t2 v2 b2 = Ok file2 /\
    statfile_pool_get_block file2 h1 h2 now = Ok (v2, file3) /\
    statfile_get_used_blocks (Some file2) =
      statfile_get_used_blocks (Some file1).
Proof.
  intros Hvalid H1 H2 Hv1 Hv2.
  destruct (set_block_common_post file m h1 h2 t1 v1 b1 Hvalid H1 H2 Hv1)
    as (k & j & m1 & Hset1 & Hex1 & _ & Heff1).
  pose proof (valid_after_set file m m1 t1 b1 Hvalid Hex1) as Hvalid1.
  set (file1 := set_map (if b1 then set_access_time file t1 else file)
                  (Some m1)) in *.
  destruct (chain_after_set file t1 b1 (Some m1) h1) as (Eb & Es & _).
  fold file1 in Eb, Es.
  destruct (set_block_common_post file1 m1 h1 h2 t2 v2 b2 Hvalid1 H1 H2 Hv2)
    as (k2 & j2 & m2 & Hset2 & Hex2 & _ & Heff2).
  destruct (get_after_set file1 m1 h1 h2 t2 v2 now b2 Hvalid1 H1 H2 Hv2)
    as (fa & fb & Hseta & Hget).
  rewrite Hset2 in Hseta. injection Hseta as <-.
  exists file1. eexists _, fb.
  split; [exact Hset1|]. split; [exact Hset2|]. split; [exact Hget|].
  pose proof (chain_base_behind_header file m h1 Hvalid) as Hbase.
  destruct (set_effect_position _ _ _ _ _ _ _ _ _ Hbase Heff1)
    as (HjK & Hkey & Hocc).
  rewrite Eb, Es in Heff2.
  destruct (set_effect_update _ _ _ _ _ _ _ _ _ j HjK Hkey Hocc Heff2)
    as (_ & Hcells).
  pose proof (valid_after_set file1 m1 m2 t2 b2 Hvalid1 Hex2) as Hvalid2.
  rewrite (get_used_blocks_ok _ m2), (get_used_blocks_ok file1 m1).
  - rewrite Hcells. f_equal.
    apply load_store_other.
    unfold off_value, off_used_blocks, sizeof_block in *. simpl Z.of_nat. lia.
  - apply Hvalid1.
  - destruct Hvalid1 as (_ & Hlen & Hseek & Hext). layout_lia.
  - apply Hvalid2.
  - destruct Hvalid2 as (_ & Hlen & Hseek & Hext). layout_lia.
Qed.

Lemma update_overwrites_witness :
  exists file1 file2 file3 : rspamd_mmaped_file_t,
    statfile_pool_set_block_common (sample_file two_small_blocks 2)
      6 9 0 double_1_0 true = Ok file1 /\
    statfile_pool_set_block_common file1 6 9 0 double_2_5 true = Ok file2 /\
    statfile_pool_get_block file2 6 9 0 = Ok (double_2_5, file3) /\
    statfile_get_used_blocks (Some file2) =
      statfile_get_used_blocks (Some file1).
Proof.
  apply (update_overwrites (sample_file two_small_blocks 2)
           (sample_mapping two_small_blocks 2)).
  - apply sample_file_valid. lia.
  - unfold is_guint32. lia.
  - unfold is_guint32. lia.
  - unfold is_guint64, double_1_0. lia.
  - unfold is_guint64, double_2_5. lia.
Defined.

Lemma roundtrip_sequence_witness :
  exists file3 : rspamd_mmaped_file_t,
    statfile_pool_get_block
      (after_set (after_set (sample_file (fun _ => 0) 2) 2 7 double_2_5)
         6 9 double_1_5) 2 7 0 = Ok (double_2_5, file3).
Proof.
  apply (roundtrip_sequence 2 7 double_2_5 0) with
    (file := sample_file (fun _ => 0) 2)
    (m := sample_mapping (fun _ => 0) 2) (t := 0) (from_now := true)
    (file' := after_set (sample_file (fun _ => 0) 2) 2 7 double_2_5).
  - unfold is_guint32. lia.
  - unfold is_guint32. lia.
  - unfold is_guint64, double_2_5. lia.
  - discriminate.
  - apply sample_file_valid. lia.
  - vm_compute. reflexivity.
  - eapply (other_sets_more 2 7 _ _ _ _ 6 9 0 double_1_5 true).
    + vm_compute. reflexivity.
    + unfold is_guint32. lia.
    + unfold is_guint32. lia.
    + unfold is_guint64, double_1_5. lia.
    + discriminate.
    + exists 1%nat. split; [vm_compute; lia|]. right.
      vm_compute. reflexivity.
    + vm_compute. reflexivity.
    + apply other_sets_none.
Defined.

(** ** The count of used blocks *)

Lemma occupied_blocks_same (n : nat) :
  forall (f f' : Z -> Z) (c : Z),
    (forall j, (j < n)%nat ->
       key_eqb f' (c + sizeof_block * Z.of_nat j) 0 0 =
       key_eqb f (c + sizeof_block * Z.of_nat j) 0 0) ->
    occupied_blocks f' c n = occupied_blocks f c n.
Proof.
  induction n as [|n IH]; intros f f' c H; [reflexivity|].
  cbn [occupied_blocks].
  pose proof (H O ltac:(lia)) as H0. rewrite first_block in H0. rewrite H0.
  f_equal. apply IH. intros j Hj.
  rewrite <- !shift_block. apply H. lia.
Qed.

(** When one block changes, the count changes by what that block
    contributes. *)
Lemma occupied_blocks_one (n : nat) :
  forall (f f' : Z -> Z) (c : Z) (j0 : nat),
    (j0 < n)%nat ->
    (forall j, (j < n)%nat -> j <> j0 ->
       key_eqb f' (c + sizeof_block * Z.of_nat j) 0 0 =
       key_eqb f (c + sizeof_block * Z.of_nat j) 0 0) ->
    occupied_blocks f' c n =
      occupied_blocks f c n
      - (if key_eqb f (c + sizeof_block * Z.of_nat j0) 0 0 then 0 else 1)
      + (if key_eqb f' (c + sizeof_block * Z.of_nat j0) 0 0 then 0 else 1).
Proof.
  induction n as [|n IH]; intros f f' c j0 Hj0 H; [lia|].
  cbn [occupied_blocks].
  destruct j0 as [|j0].
  - rewrite first_block.
    rewrite (occupied_blocks_same n f f' (c + sizeof_block)).
    + lia.
    + intros j Hj. rewrite <- !shift_block. apply H; lia.
  - pose proof (H O ltac:(lia) ltac:(lia)) as H0.
    rewrite first_block in H0. rewrite H0.
    rewrite (IH f f' (c + sizeof_block) j0).
    + rewrite <- !shift_block. lia.
    + lia.
    + intros j Hj Hne. rewrite <- !shift_block. apply H; lia.
Qed.

Lemma occupied_blocks_range (n : nat) :
  forall (f : Z -> Z) (c : Z), 0 <= occupied_blocks f c n <= Z.of_nat n.
Proof.
  induction n as [|n IH]; intros f c; cbn [occupied_blocks]; [lia|].
  specialize (IH f (c + sizeof_block)).
  destruct (key_eqb f c 0 0); lia.
Qed.

(** set of a non-zero key keeps the count of used blocks exact. *)
Lemma set_keeps_count (file : rspamd_mmaped_file_t) (m : mapping)
  (h1 h2 t value : Z) (from_now : bool) :
  valid_handle file m ->
  is_guint32 h1 -> is_guint32 h2 -> is_guint64 value ->
  (h1, h2) <> (0, 0) ->
  used_blocks_exact file m ->
  exists (file' : rspamd_mmaped_file_t) (m' : mapping),
    statfile_pool_set_block_common file h1 h2 t value from_now = Ok file' /\
    valid_handle file' m' /\
    used_blocks_exact file' m'.
Proof.
  intros Hvalid H1 H2 Hv Hnz Hexact.
  destruct (set_block_common_post file m h1 h2 t value from_now
              Hvalid H1 H2 Hv) as (k & j & m' & Hset & Hex & _ & Heff).
  pose proof (valid_after_set file m m' t from_now Hvalid Hex) as Hvalid'.
  eexists _, m'. split; [exact Hset|]. split; [exact Hvalid'|].
  destruct (chain_after_set file t from_now (Some m') h1)
    as (_ & _ & Eseek & Esec).
  unfold used_blocks_exact in *. rewrite Eseek, Esec.
  pose proof (chain_base_behind_header file m h1 Hvalid) as Hbase.
  assert (Hext : off_used_blocks + 8 <= extent m)
    by (destruct Hvalid as (_ & Hlen & Hseek & Hext); layout_lia).
  rewrite (get_used_blocks_ok _ m') by (try apply Hvalid'; lia).
  rewrite (get_used_blocks_ok file m) in Hexact by (try apply Hvalid; lia).
  assert (Hused : load_le 8 (cells m) off_used_blocks =
                  occupied_blocks (cells m) (seek_pos file)
                    (Z.to_nat (length (cur_section file))))
    by congruence.
  clear Hexact. f_equal.
  destruct Heff as (Hk & Hj & Hbefore & Hst & Hcase).
  destruct Hvalid as (Hmap & Hlen & Hseek & Hinside).
  set (n := length (cur_section file)) in *.
  destruct (chain_slots_in_section file h1 j (proj1 Hlen)) as [Hs0 Hsj].
  { destruct Hcase as [(-> & _)|[(-> & _)|(-> & _)]]; lia. }
  fold n in Hsj.
  set (s := Z.to_nat (slot0 file h1 + Z.of_nat j)).
  assert (Hblk : seek_pos file + sizeof_block * Z.of_nat s =
                 chain_base file h1 + sizeof_block * Z.of_nat j).
  { subst s. unfold chain_base, sizeof_block. lia. }
  (* the keys of the other blocks of the section are as they were *)
  assert (Hothers : forall i, (i < Z.to_nat n)%nat -> i <> s ->
            key_eqb (cells m') (seek_pos file + sizeof_block * Z.of_nat i) 0 0
            = key_eqb (cells m) (seek_pos file + sizeof_block * Z.of_nat i)
                0 0).
  { intros i Hi Hne.
    apply (stored_at_other (cells m) (cells m') _ h1 h2 value _ 0 0 Hst).
    - layout_lia.
    - rewrite <- Hblk. unfold sizeof_block. lia. }
  rewrite (occupied_blocks_one (Z.to_nat n) (cells m) (cells m')
             (seek_pos file) s ltac:(lia) Hothers).
  rewrite Hblk.
  (* the block written holds a non-zero key *)
  assert (Hnew : key_eqb (cells m')
                   (chain_base file h1 + sizeof_block * Z.of_nat j) 0 0
                 = false).
  { destruct Hst as (E1 & E2 & _). unfold key_eqb. rewrite E1, E2.
    destruct (Z.eqb_spec h1 0) as [->|]; [|reflexivity].
    destruct (Z.eqb_spec h2 0) as [->|]; [|reflexivity].
    now destruct Hnz. }
  rewrite Hnew.
  pose proof (occupied_blocks_range (Z.to_nat n) (cells m) (seek_pos file))
    as Hrange.
  destruct Hcase as [(_ & Hhit & Hcells)|[(_ & _ & Hfree & Hcells)
                                         |(_ & Hfull & Hcells & _)]].
  - (* update *)
    assert (Hwas : key_eqb (cells m)
                     (chain_base file h1 + sizeof_block * Z.of_nat j) 0 0
                   = false).
    { apply key_eqb_true in Hhit. destruct Hhit as [E1 E2].
      unfold key_eqb. rewrite E1, E2.
      destruct (Z.eqb_spec h1 0) as [->|]; [|reflexivity].
      destruct (Z.eqb_spec h2 0) as [->|]; [|reflexivity].
      now destruct Hnz. }
    rewrite Hwas, Hcells, load_store_other.
    + lia.
    + unfold off_value, off_used_blocks, sizeof_block in *.
      simpl Z.of_nat. lia.
  - (* insertion *)
    rewrite Hfree, Hcells. unfold used_incremented.
    rewrite load_store_same.
    assert (Eused : load_le 8
              (block_written (cells m)
                 (chain_base file h1 + sizeof_block * Z.of_nat j) h1 h2 value)
              off_used_blocks = load_le 8 (cells m) off_used_blocks).
    { apply load_le_ext. intros x Hx. apply block_written_outside.
      unfold off_used_blocks, sizeof_block in *. simpl Z.of_nat in Hx. lia. }
    rewrite Eused. unfold guint64. simpl Z.of_nat.
    change (256 ^ 8) with (2 ^ 64).
    rewrite Z.mod_mod by lia. rewrite Z.mod_small; lia.
  - (* eviction *)
    rewrite (occupied_not_free _ _ _ _ (Hfull j ltac:(lia))), Hcells.
    assert (Eused : load_le 8
              (block_written (cells m)
                 (chain_base file h1 + sizeof_block * Z.of_nat j) h1 h2 value)
              off_used_blocks = load_le 8 (cells m) off_used_blocks).
    { apply load_le_ext. intros x Hx. apply block_written_outside.
      unfold off_used_blocks, sizeof_block in *. simpl Z.of_nat in Hx. lia. }
    rewrite Eused. lia.
Qed.

(** X4.  The used_blocks field keeps counting the occupied blocks: if,
    on a valid handle, the field equals the number of blocks of the current
    section that are not free, it still does after set of any non-zero key
    (an insertion adds one to both, an update and an eviction change
    neither). *)
Theorem used_blocks_counts (file : rspamd_mmaped_file_t) (m : mapping)
  (h1 h2 t value : Z) (from_now : bool) :
  valid_handle file m ->
  is_guint32 h1 -> is_guint32 h2 -> is_guint64 value ->
  (h1, h2) <> (0, 0) ->
  used_blocks_exact file m ->
  exists (file' : rspamd_mmaped_file_t) (m' : mapping),
    statfile_pool_set_block_common file h1 h2 t value from_now = Ok file' /\
    valid_handle file' m' /\
    used_blocks_exact file' m'.
Proof. exact (set_keeps_count file m h1 h2 t value from_now). Qed.

Lemma used_blocks_counts_witness :
  exists (file' : rspamd_mmaped_file_t) (m' : mapping),
    statfile_pool_set_block_common (sample_file two_small_blocks 2)
      8 1 0 double_1_0 false = Ok file' /\
    valid_handle file' m' /\
    used_blocks_exact file' m'.
Proof.
  apply (used_blocks_counts (sample_file two_small_blocks 2)
           (sample_mapping two_small_blocks 2)).
  - apply sample_file_valid. lia.
  - unfold is_guint32. lia.
  - unfold is_guint32. lia.
  - unfold is_guint64, double_1_0. lia.
  - discriminate.
  - reflexivity.
Defined.

(** ** What set and the revision functions leave alone *)

(** What set leaves alone. *)
Lemma set_block_frame (file : rspamd_mmaped_file_t) (m : mapping)
  (h1 h2 t value : Z) (from_now : bool) :
  valid_handle file m ->
  is_guint32 h1 -> is_guint32 h2 -> is_guint64 value ->
  exists (file' : rspamd_mmaped_file_t) (m' : mapping),
    statfile_pool_set_block_common file h1 h2 t value from_now = Ok file' /\
    map file' = Some m' /\ extent m' = extent m /\
    seek_pos file' = seek_pos file /\ cur_section file' = cur_section file /\
    len file' = len file /\ filename file' = filename file /\
    (forall x,
       x < off_used_blocks \/
       off_used_blocks + 8 <= x < seek_pos file \/
       seek_pos file + length (cur_section file) * sizeof_block <= x ->
       cells m' x = cells m x) /\
    statfile_get_revision (Some file') = statfile_get_revision (Some file).
Proof.
  intros Hvalid H1 H2 Hv.
  destruct (set_block_common_post file m h1 h2 t value from_now
              Hvalid H1 H2 Hv) as (k & j & m' & Hset & Hex & _ & Heff).
  eexists _, m'. split; [exact Hset|].
  split; [reflexivity|]. split; [exact Hex|].
  split; [now destruct from_now|]. split; [now destruct from_now|].
  split; [now destruct from_now|]. split; [now destruct from_now|].
  pose proof (chain_base_behind_header file m h1 Hvalid) as Hbase.
  destruct Heff as (Hk & Hj & _ & (_ & _ & _ & Hframe) & _).
  pose proof Hvalid as (Hmap & Hlen & Hseek & Hinside).
  destruct (chain_slots_in_section file h1 j (proj1 Hlen) ltac:(lia))
    as [Hs0 Hsj].
  assert (Hout : forall x,
            x < off_used_blocks \/
            off_used_blocks + 8 <= x < seek_pos file \/
            seek_pos file + length (cur_section file) * sizeof_block <= x ->
            cells m' x = cells m x).
  { intros x Hx. apply Hframe; unfold chain_base in *; layout_lia. }
  split; [exact Hout|].
  unfold statfile_get_revision.
  replace (map (set_map (if from_now then set_access_time file t else file)
                  (Some m'))) with (Some m') by reflexivity.
  rewrite Hmap. unfold bind, load_u64, ret.
  rewrite !load_ok by (layout_lia || (simpl Z.of_nat; layout_lia)).
  rewrite (load_le_ext 8 (cells m') (cells m) off_revision),
          (load_le_ext 8 (cells m') (cells m) off_rev_time).
  - reflexivity.
  - intros x Hx. apply Hout. simpl Z.of_nat in Hx. layout_lia.
  - intros x Hx. apply Hout. simpl Z.of_nat in Hx. layout_lia.
Qed.

(** X5.  set stays inside the current section: besides the used_blocks
    field of the header it changes no byte outside the blocks of the
    current section, so the rest of the header, the section header and
    any other section are as they were, and statfile_get_revision reads
    what it read before. *)
Theorem set_stays_in_section (file : rspamd_mmaped_file_t) (m : mapping)
  (h1 h2 t value : Z) (from_now : bool) :
  valid_handle file m ->
  is_guint32 h1 -> is_guint32 h2 -> is_guint64 value ->
  exists (file' : rspamd_mmaped_file_t) (m' : mapping),
    statfile_pool_set_block_common file h1 h2 t value from_now = Ok file' /\
    map file' = Some m' /\ extent m' = extent m /\
    seek_pos file' = seek_pos file /\ cur_section file' = cur_section file /\
    len file' = len file /\ filename file' = filename file /\
    (forall x,
       x < off_used_blocks \/
       off_used_blocks + 8 <= x < seek_pos file \/
       seek_pos file + length (cur_section file) * sizeof_block <= x ->
       cells m' x = cells m x) /\
    statfile_get_revision (Some file') = statfile_get_revision (Some file).
Proof. exact (set_block_frame file m h1 h2 t value from_now). Qed.

Lemma set_stays_in_section_witness :
  exists (file' : rspamd_mmaped_file_t) (m' : mapping),
    statfile_pool_set_block_common (sample_file two_small_blocks 2)
      8 1 5 double_1_0 true = Ok file' /\
    map file' = Some m' /\
    extent m' = extent (sample_mapping two_small_blocks 2) /\
    seek_pos file' = seek_pos (sample_file two_small_blocks 2) /\
    cur_section file' = cur_section (sample_file two_small_blocks 2) /\
    len file' = len (sample_file two_small_blocks 2) /\
    filename file' = filename (sample_file two_small_blocks 2) /\
    (forall x,
       x < off_used_blocks \/
       off_used_blocks + 8 <= x < seek_pos (sample_file two_small_blocks 2) \/
       seek_pos (sample_file two_small_blocks 2)
       + length (cur_section (sample_file two_small_blocks 2)) * sizeof_block
         <= x ->
       cells m' x = cells (sample_mapping two_small_blocks 2) x) /\
    statfile_get_revision (Some file') =
      statfile_get_revision (Some (sample_file two_small_blocks 2)).
Proof.
  apply (set_stays_in_section (sample_file two_small_blocks 2)
           (sample_mapping two_small_blocks 2)).
  - apply sample_file_valid. lia.
  - unfold is_guint32. lia.
  - unfold is_guint32. lia.
  - unfold is_guint64, double_1_0. lia.
Defined.

(** get finds the same value in two valid handles with the same cursor
    and section whose bytes agree on the blocks of that section. *)
Lemma get_same_section (file file' : rspamd_mmaped_file_t) (m m' : mapping)
  (h1 h2 now now' : Z) :
  valid_handle file m -> valid_handle file' m' ->
  seek_pos file' = seek_pos file -> cur_section file' = cur_section file ->
  (forall x, seek_pos file <= x <
             seek_pos file + length (cur_section file) * sizeof_block ->
             cells m' x = cells m x) ->
  forall (v : Z) (f1 : rspamd_mmaped_file_t),
    statfile_pool_get_block file h1 h2 now = Ok (v, f1) ->
    exists f2 : rspamd_mmaped_file_t,
      statfile_pool_get_block file' h1 h2 now' = Ok (v, f2).
Proof.
  intros Hvalid Hvalid' Eseek Esec Hsame v f1 Hget.
  destruct (get_block_post file m h1 h2 now Hvalid) as (k & w & Hg & Hr).
  rewrite Hg in Hget. injection Hget as <- _.
  destruct (get_block_post file' m' h1 h2 now' Hvalid')
    as (k' & w' & Hg' & Hr').
  assert (Eb : chain_base file' h1 = chain_base file h1)
    by (unfold chain_base, slot0; now rewrite Eseek, Esec).
  assert (Es : chain_slots file' h1 = chain_slots file h1)
    by (unfold chain_slots, slot0; now rewrite Esec).
  rewrite Eb, Es in Hr'.
  pose proof Hvalid as (_ & Hlen & Hseek & _).
  assert (Hblocks : forall j, (j < chain_slots file h1)%nat ->
            forall (n : nat) (o : Z), 0 <= o -> o + Z.of_nat n <= sizeof_block ->
            load_le n (cells m') (chain_base file h1
                                  + sizeof_block * Z.of_nat j + o) =
            load_le n (cells m) (chain_base file h1
                                 + sizeof_block * Z.of_nat j + o)).
  { intros j Hj n o Ho Hn.
    destruct (chain_slots_in_section file h1 j (proj1 Hlen) Hj) as [Hs0 Hsj].
    apply load_le_ext. intros x Hx. apply Hsame.
    unfold chain_base, sizeof_block in *. lia. }
  assert (Hr2 : get_result (cells m') (chain_base file h1)
                  (chain_slots file h1) h1 h2 k w).
  { apply (get_result_ext (cells m) (cells m')); [| |exact Hr].
    - intros j Hj. unfold key_eqb, hash1_at, hash2_at.
      rewrite !Hblocks; (reflexivity || exact Hj ||
        (unfold off_hash1, off_hash2, sizeof_block; simpl Z.of_nat; lia)).
    - intros j Hj _. unfold value_at.
      rewrite !Hblocks; (reflexivity || exact Hj ||
        (unfold off_value, sizeof_block; simpl Z.of_nat; lia)). }
  rewrite (get_result_unique _ _ _ _ _ _ _ _ _ Hr2 Hr').
  eexists. exact Hg'.
Qed.

Lemma to_long_guint64 (t : Z) :
  - 2 ^ 63 <= t < 2 ^ 63 -> to_long (guint64 t mod 2 ^ 64) = t.
Proof.
  intro H. unfold to_long, guint64. rewrite !Z.mod_mod by lia.
  destruct (Z.neg_nonneg_cases t) as [Hneg|Hpos].
  - assert (E : t mod 2 ^ 64 = t + 2 ^ 64)
      by (symmetry; apply Z.mod_unique with (q := -1); lia).
    rewrite E. destruct (Z.ltb_spec (t + 2 ^ 64) (2 ^ 63)); lia.
  - rewrite Z.mod_small by lia.
    destruct (Z.ltb_spec t (2 ^ 63)); lia.
Qed.

(** X6.  The revision round trip: on a mapped handle whose mapping holds
    the header fields, statfile_set_revision stores a revision and a time
    that statfile_get_revision then returns, for every 64-bit revision and
    every time_t; it writes the 16 bytes of the two fields and nothing
    else, so that get finds for every key what it found before. *)
Theorem revision_roundtrip (file : rspamd_mmaped_file_t) (m : mapping)
  (rev time : Z) :
  map file = Some m -> off_rev_time + 8 <= extent m ->
  is_guint64 rev -> - 2 ^ 63 <= time < 2 ^ 63 ->
  exists (file' : rspamd_mmaped_file_t) (m' : mapping),
    statfile_set_revision (Some file) rev time = Ok (true, Some file') /\
    map file' = Some m' /\ extent m' = extent m /\
    statfile_get_revision (Some file') = Ok (Some (rev, time)) /\
    (forall x, x < off_revision \/ off_rev_time + 8 <= x ->
               cells m' x = cells m x) /\
    (valid_handle file m ->
     forall (h1 h2 now v : Z) (f1 : rspamd_mmaped_file_t),
       statfile_pool_get_block file h1 h2 now = Ok (v, f1) ->
       exists f2 : rspamd_mmaped_file_t,
         statfile_pool_get_block file' h1 h2 now = Ok (v, f2)).
Proof.
  intros Hmap Hext Hrev Htime.
  unfold statfile_set_revision. rewrite Hmap.
  unfold bind, store_u64, off_revision, off_rev_time in *.
  rewrite store_ok by (simpl Z.of_nat; lia).
  rewrite store_ok by (cbn [extent]; simpl Z.of_nat; lia).
  eexists _, _. split; [reflexivity|].
  split; [reflexivity|]. split; [reflexivity|].
  assert (Hframe : forall x, x < 16 \/ 24 + 8 <= x ->
            store_le 8 (store_le 8 (cells m) 16 rev) 24 (guint64 time) x =
            cells m x).
  { intros x Hx. rewrite !store_le_outside by (simpl Z.of_nat; lia).
    reflexivity. }
  split; [|split].
  - unfold statfile_get_revision. cbn [map set_map].
    unfold bind, load_u64, ret, off_revision, off_rev_time.
    rewrite !load_ok by (cbn [extent]; simpl Z.of_nat; lia).
    cbn [cells].
    rewrite load_store_other by (simpl Z.of_nat; lia).
    rewrite !load_store_same. simpl Z.of_nat.
    change (256 ^ 8) with (2 ^ 64).
    rewrite to_long_guint64 by exact Htime.
    unfold is_guint64 in Hrev. rewrite Z.mod_small by lia. reflexivity.
  - exact Hframe.
  - intros Hvalid h1 h2 now v f1 Hget.
    eapply get_same_section with (file := file) (m := m) (now := now);
      [exact Hvalid| |reflexivity|reflexivity| |exact Hget].
    + apply valid_handle_set_map with (m := m); [exact Hvalid|reflexivity].
    + intros x Hx. cbn [cells]. apply Hframe.
      destruct Hvalid as (_ & _ & Hseek & _). layout_lia.
Qed.

Lemma revision_roundtrip_witness :
  exists (file' : rspamd_mmaped_file_t) (m' : mapping),
    statfile_set_revision (Some (sample_file two_small_blocks 2)) 7 (-5) =
      Ok (true, Some file') /\
    map file' = Some m' /\
    extent m' = extent (sample_mapping two_small_blocks 2) /\
    statfile_get_revision (Some file') = Ok (Some (7, -5)) /\
    (forall x, x < off_revision \/ off_rev_time + 8 <= x ->
               cells m' x = cells (sample_mapping two_small_blocks 2) x) /\
    (valid_handle (sample_file two_small_blocks 2)
       (sample_mapping two_small_blocks 2) ->
     forall (h1 h2 now v : Z) (f1 : rspamd_mmaped_file_t),
       statfile_pool_get_block (sample_file two_small_blocks 2) h1 h2 now =
         Ok (v, f1) ->
       exists f2 : rspamd_mmaped_file_t,
         statfile_pool_get_block file' h1 h2 now = Ok (v, f2)).
Proof.
  apply (revision_roundtrip (sample_file two_small_blocks 2)
           (sample_mapping two_small_blocks 2) 7 (-5)).
  - reflexivity.
  - vm_compute. discriminate.
  - unfold is_guint64. lia.
  - lia.
Defined.

(** X7.  statfile_inc_revision adds one to the revision modulo 2^64 and
    leaves the revision time: what statfile_get_revision returns
    afterwards is the revision it returned before plus one, wrapped to 64
    bits, with the same time.  No byte outside the revision field
    changes. *)
Theorem inc_revision_adds_one (file : rspamd_mmaped_file_t) (m : mapping)
  (rev time : Z) :
  map file = Some m -> off_rev_time + 8 <= extent m ->
  statfile_get_revision (Some file) = Ok (Some (rev, time)) ->
  exists (file' : rspamd_mmaped_file_t) (m' : mapping),
    statfile_inc_revision (Some file) = Ok (true, Some file') /\
    map file' = Some m' /\ extent m' = extent m /\
    statfile_get_revision (Some file') =
      Ok (Some (guint64 (rev + 1), time)) /\
    (forall x, x < off_revision \/ off_revision + 8 <= x ->
               cells m' x = cells m x).
Proof.
  intros Hmap Hext Hget.
  unfold statfile_get_revision in Hget. rewrite Hmap in Hget.
  unfold statfile_inc_revision. rewrite Hmap.
  unfold bind, load_u64, store_u64, ret, off_revision, off_rev_time in *.
  rewrite !load_ok in Hget by (simpl Z.of_nat; lia).
  rewrite load_ok by (simpl Z.of_nat; lia).
  rewrite store_ok by (simpl Z.of_nat; lia).
  assert (Erev : load_le 8 (cells m) 16 = rev) by congruence.
  assert (Etime : to_long (load_le 8 (cells m) 24) = time) by congruence.
  eexists _, _. split; [reflexivity|].
  split; [reflexivity|]. split; [reflexivity|]. split.
  - unfold statfile_get_revision. cbn [map set_map].
    unfold bind, load_u64, ret, off_revision, off_rev_time.
    rewrite !load_ok by (cbn [extent]; simpl Z.of_nat; lia).
    cbn [cells].
    rewrite (load_store_other 8 8 _ 16 24) by (simpl Z.of_nat; lia).
    rewrite load_store_same. simpl Z.of_nat.
    change (256 ^ 8) with (2 ^ 64).
    rewrite Erev, Etime. unfold guint64. rewrite Z.mod_mod by lia.
    reflexivity.
  - intros x Hx. cbn [cells].
    apply store_le_outside. simpl Z.of_nat. lia.
Qed.

Lemma inc_revision_adds_one_witness :
  exists (file' : rspamd_mmaped_file_t) (m' : mapping),
    statfile_inc_revision
      (Some (sample_file (store_le 8 (fun _ => 0) off_revision (2 ^ 64 - 1))
               2)) = Ok (true, Some file') /\
    map file' = Some m' /\
    extent m' =
      extent (sample_mapping
                (store_le 8 (fun _ => 0) off_revision (2 ^ 64 - 1)) 2) /\
    statfile_get_revision (Some file') =
      Ok (Some (guint64 (2 ^ 64 - 1 + 1), 0)) /\
    (forall x, x < off_revision \/ off_revision + 8 <= x ->
               cells m' x =
               cells (sample_mapping
                        (store_le 8 (fun _ => 0) off_revision (2 ^ 64 - 1)) 2)
                 x).
Proof.
  apply (inc_revision_adds_one
           (sample_file (store_le 8 (fun _ => 0) off_revision (2 ^ 64 - 1)) 2)
           (sample_mapping
              (store_le 8 (fun _ => 0) off_revision (2 ^ 64 - 1)) 2)).
  - reflexivity.
  - vm_compute. discriminate.
  - reflexivity.
Defined.

(** ** Sections: the walk from the current position and the walk that does
    not end *)

Lemma load_le_zero (n : nat) :
  forall (f : Z -> Z) (a : Z),
    (forall x, a <= x < a + Z.of_nat n -> f x = 0) -> load_le n f a = 0.
Proof.
  induction n as [|n IH]; intros f a H; [reflexivity|].
  cbn [load_le]. rewrite (H a) by lia. rewrite IH; [reflexivity|].
  intros x Hx. apply H. lia.
Qed.

Lemma fresh_statfile_created (n now : Z) :
  created_file (fresh_statfile n now) n now.
Proof.
  unfold created_file, fresh_statfile. cbn [fsize contents].
  split; [reflexivity|]. split; [|split].
  - intros x Hx. destruct (Z.ltb_spec x sizeof_header); [reflexivity | lia].
  - intros x Hx. destruct (Z.ltb_spec x sizeof_header); [lia|].
    destruct (Z.ltb_spec x (sizeof_header + sizeof_section));
      [reflexivity | lia].
  - intros x Hx. destruct (Z.ltb_spec x sizeof_header); [layout_lia|].
    destruct (Z.ltb_spec x (sizeof_header + sizeof_section));
      [lia | reflexivity].
Qed.

Lemma to_long_small (x : Z) : 0 <= x < 2 ^ 63 -> to_long x = x.
Proof.
  intro H. unfold to_long. rewrite Z.mod_small by lia.
  destruct (Z.ltb_spec x (2 ^ 63)); lia.
Qed.

(** X8.  With from_begin = FALSE the walk of statfile_pool_set_section
    starts at the header of the current section, not behind it: on a handle
    as statfile_pool_open leaves it, a search for the code of the current
    section, from the beginning or not, returns TRUE and leaves the handle
    exactly as it is, and statfile_pool_get_section returns that code. *)
Theorem set_section_finds_current (path : string) (df : disk_file)
  (d now c n : Z) (fuel : nat) (from_begin : bool) :
  statfile_image df c n -> is_guint32 c -> fsize df < 2 ^ 63 ->
  statfile_pool_set_section (S fuel) (opened_handle path df d now c n) c
    from_begin = Ok (Some (true, opened_handle path df d now c n)) /\
  statfile_pool_get_section (opened_handle path df d now c n) = c.
Proof.
  intros (_ & _ & _ & _ & _ & Hcode & Hlength & Hn & Hsize) Hc Hbig.
  split.
  - rewrite (set_section_at_start fuel (opened_handle path df d now c n)
               {| cells := contents df; extent := fsize df; probed := [] |}
               c from_begin eq_refl).
    + cbn [cells opened_handle seek_pos].
      replace (if from_begin then sizeof_header
               else to_long (sizeof_stat_file - sizeof_block - sizeof_section))
        with off_section by (now destruct from_begin).
      rewrite Hlength. reflexivity.
    + destruct from_begin; vm_compute; discriminate.
    + cbn [extent opened_handle seek_pos].
      destruct from_begin; [layout_lia|].
      change (to_long (sizeof_stat_file - sizeof_block - sizeof_section))
        with 288. layout_lia.
    + cbn [len opened_handle seek_pos].
      rewrite (to_long_small (fsize df)) by layout_lia.
      destruct from_begin; [layout_lia|].
      change (to_long (sizeof_stat_file - sizeof_block - sizeof_section))
        with 288. layout_lia.
    + cbn [cells opened_handle seek_pos].
      replace (if from_begin then sizeof_header
               else to_long (sizeof_stat_file - sizeof_block - sizeof_section))
        with off_section by (now destruct from_begin).
      exact Hcode.
  - unfold statfile_pool_get_section, opened_handle.
    cbn [cur_section code]. now apply guint_small.
Qed.

Lemma set_section_finds_current_witness :
  statfile_pool_set_section 1
    (opened_handle "stat" (fresh_statfile 4 0) 3 9 STATFILE_SECTION_COMMON 4)
    STATFILE_SECTION_COMMON false =
    Ok (Some (true,
              opened_handle "stat" (fresh_statfile 4 0) 3 9
                STATFILE_SECTION_COMMON 4)) /\
  statfile_pool_get_section
    (opened_handle "stat" (fresh_statfile 4 0) 3 9 STATFILE_SECTION_COMMON 4)
    = STATFILE_SECTION_COMMON.
Proof.
  apply (set_section_finds_current "stat" (fresh_statfile 4 0) 3 9
           STATFILE_SECTION_COMMON 4 0 false).
  - apply (created_file_image _ 4 0); [apply fresh_statfile_created | lia].
  - unfold is_guint32, STATFILE_SECTION_COMMON. lia.
  - vm_compute. reflexivity.
Defined.

(** X9.  A search that does not end: in a file as statfile_pool_create
    writes it, with 16 blocks or more, statfile_pool_set_section for any
    code other than that of the one section (and other than 0) never
    returns.  From the section header the walk advances by the length of
    the section taken as a number of bytes, lands among the zeroed blocks,
    reads there a section of code 0 and length 0, and stays: whatever the
    number of iterations, the loop has not ended. *)
Theorem set_section_never_returns (path : string) (df : disk_file)
  (d now at_time n sought : Z) (from_begin : bool) :
  created_file df n at_time -> 16 <= n < 2 ^ 32 ->
  sought <> STATFILE_SECTION_COMMON -> sought <> 0 ->
  forall fuel : nat,
    statfile_pool_set_section fuel
      (opened_handle path df d now STATFILE_SECTION_COMMON n) sought
      from_begin = Ok None.
Proof.
  intros Hfile Hn Hne1 Hne0 fuel.
  pose proof (created_file_image df n at_time Hfile ltac:(lia))
    as (_ & _ & _ & _ & _ & Hcode & Hlength & _ & _).
  destruct Hfile as (Hsize & _ & _ & Hzero).
  unfold statfile_pool_set_section. cbn [map opened_handle seek_pos len].
  replace (if from_begin then sizeof_header
           else to_long (sizeof_stat_file - sizeof_block - sizeof_section))
    with off_section by (now destruct from_begin).
  set (m := {| cells := contents df; extent := fsize df; probed := [] |}).
  assert (Hlen : to_long (fsize df) = fsize df)
    by (apply to_long_small; layout_lia).
  (* among the zeroed blocks the walk stays where it is *)
  assert (Hstay : forall fuel',
            section_walk fuel' sought (fsize df) (off_section + n) m =
            Ok (Walking, m)).
  { induction fuel' as [|fuel' IH]; [reflexivity|].
    cbn [section_walk]. rewrite Hlen.
    destruct (Z.ltb_spec (off_section + n) (fsize df)) as [_|Hge];
      [|unfold off_section in *; layout_lia].
    unfold bind, load_u64, off_code, off_length.
    rewrite load_ok
      by (cbn [extent m]; unfold off_section; simpl Z.of_nat; layout_lia).
    rewrite (load_le_zero 8)
      by (intros x Hx; apply Hzero; unfold off_section in *;
          simpl Z.of_nat in Hx; layout_lia).
    destruct (Z.eqb_spec 0 sought) as [E|_]; [now destruct Hne0|].
    rewrite load_ok
      by (cbn [extent m]; unfold off_section; simpl Z.of_nat; layout_lia).
    rewrite (load_le_zero 8)
      by (intros x Hx; apply Hzero; unfold off_section in *;
          simpl Z.of_nat in Hx; layout_lia).
    rewrite Z.add_0_r, to_long_small by (unfold off_section; lia).
    exact IH. }
  destruct fuel as [|fuel]; [reflexivity|].
  cbn [section_walk]. rewrite Hlen.
  destruct (Z.ltb_spec off_section (fsize df)) as [_|Hge];
    [|unfold off_section in *; layout_lia].
  unfold bind, load_u64.
  rewrite load_ok
    by (cbn [extent m]; unfold off_section, off_code; simpl Z.of_nat;
        layout_lia).
  cbn [cells m]. rewrite Hcode.
  destruct (Z.eqb_spec STATFILE_SECTION_COMMON sought) as [E|_];
    [now destruct Hne1|].
  rewrite load_ok
    by (cbn [extent m]; unfold off_section, off_length; simpl Z.of_nat;
        layout_lia).
  cbn [cells m]. rewrite Hlength.
  rewrite to_long_small by (unfold off_section; lia).
  now rewrite Hstay.
Qed.

Lemma set_section_never_returns_witness :
  statfile_pool_set_section 1000
    (opened_handle "stat" (fresh_statfile 16 0) 3 9
       STATFILE_SECTION_COMMON 16) 2 true = Ok None.
Proof.
  refine (set_section_never_returns "stat" (fresh_statfile 16 0) 3 9 0 16 2
            true _ _ _ _ 1000%nat).
  - apply fresh_statfile_created.
  - lia.
  - discriminate.
  - discriminate.
Defined.

(** ** Creation followed by opening *)

Lemma created_file_used_blocks (df : disk_file) (n now : Z) :
  created_file df n now -> load_le 8 (contents df) off_used_blocks = 0.
Proof.
  intros (_ & Hhead & _).
  rewrite (load_le_ext 8 (contents df) (header_bytes n now)).
  - unfold header_bytes, off_total_blocks, off_create_time, off_revision,
      off_rev_time, off_used_blocks.
    rewrite !load_store_other by (simpl Z.of_nat; lia).
    rewrite load_store_same. reflexivity.
  - intros x Hx. apply Hhead.
    unfold off_used_blocks, sizeof_header in *. simpl Z.of_nat in Hx. lia.
Qed.

(** Where every byte is zero, every block is free and holds the value 0. *)
Lemma zero_block (f : Z -> Z) (c : Z) :
  (forall x, c <= x < c + sizeof_block -> f x = 0) ->
  key_eqb f c 0 0 = true /\ value_at f c = 0.
Proof.
  intro H. unfold key_eqb, hash1_at, hash2_at, value_at.
  rewrite !load_le_zero; [now split| | |];
    intros x Hx; apply H;
    unfold off_hash1, off_hash2, off_value, sizeof_block in *;
    simpl Z.of_nat in Hx; lia.
Qed.

Lemma occupied_blocks_zero (n : nat) :
  forall (f : Z -> Z) (c : Z),
    (forall x, c <= x -> f x = 0) -> occupied_blocks f c n = 0.
Proof.
  induction n as [|n IH]; intros f c H; [reflexivity|].
  cbn [occupied_blocks].
  destruct (zero_block f c) as [-> _]; [intros x Hx; apply H; lia|].
  rewrite IH; [reflexivity|].
  intros x Hx. apply H. unfold sizeof_block in Hx. lia.
Qed.

Section Creating.

Variable convert_statfile_10 :
  rspamd_mmaped_file_t -> option rspamd_mmaped_file_t.

(** statfile_pool_create followed by statfile_pool_open with the same size:
    the file is mapped as it was written, without a reindex. *)
Lemma create_then_open (path : string) (size : Z) (s : system) :
  statfile_pool_is_open (pool s) path = None ->
  pool_has_room (pool s) ->
  sizeof_stat_file <= size < 2 ^ 36 + sizeof_header + sizeof_section ->
  let n := (size - sizeof_header - sizeof_section) / sizeof_block in
  let idx := Z.to_nat (opened (pool s)) in
  1 <= n < 2 ^ 32 /\
  exists (s1 s2 : system) (df : disk_file),
    statfile_pool_create path size s = Ok (0, s1) /\
    disk_updated s s1 path df /\
    created_file df n (clock s) /\
    statfile_pool_open convert_statfile_10 path size false s1 =
      Ok (Some idx, s2) /\
    files (pool s2) =
      list_set (files (pool s)) idx
        (opened_handle path df (next_fd s) (clock s)
           STATFILE_SECTION_COMMON n) /\
    opened (pool s2) = opened (pool s) + 1 /\
    disk s2 = disk s1.
Proof.
  intros Hopen Hroom Hsize n idx.
  assert (Hq : 1 <= n < 2 ^ 32).
  { subst n.
    unfold sizeof_stat_file, sizeof_header, sizeof_section, sizeof_block in *.
    split.
    - apply Z.div_le_lower_bound; lia.
    - apply Z.div_lt_upper_bound; lia. }
  split; [exact Hq|].
  destruct (create_post path size s Hopen) as (s1 & df & Hcr & Hup & Hfile).
  { layout_lia. }
  fold n in Hfile. rewrite (guint_small n) in Hfile by lia.
  pose proof (created_file_image df n (clock s) Hfile ltac:(lia)) as Himg.
  pose proof Hup as (Hpool & Hclock & Hfd & _ & _ & Hd & _).
  pose proof Hfile as (Hfs & _).
  assert (Hmod : 0 <= size - fsize df < 16).
  { rewrite Hfs. subst n.
    unfold sizeof_header, sizeof_section, sizeof_block in *.
    pose proof (Z.mod_pos_bound (size - 288 - 16) 16 ltac:(lia)).
    pose proof (Z.div_mod (size - 288 - 16) 16 ltac:(lia)). lia. }
  destruct (open_mapped_post convert_statfile_10 path s1 df
              STATFILE_SECTION_COMMON n)
    as (s2 & Hopen2 & Hfiles & Hopened & Hdisk & _); try assumption;
    try (rewrite Hpool; assumption).
  exists s1, s2, df.
  split; [exact Hcr|]. split; [exact Hup|]. split; [exact Hfile|].
  rewrite (open_decision convert_statfile_10 path size false s1 df)
    by (rewrite ?Hpool; try assumption; destruct Hroom as [[_ H] _]; exact H).
  rewrite labs_to_long_small by lia.
  destruct (Z.gtb_spec (Z.abs (size - fsize df)) (sizeof_stat_file * 2))
    as [Habs|_]; [unfold sizeof_stat_file in Habs; lia|].
  cbn [negb andb].
  destruct (Z.ltb_spec size sizeof_stat_file); [lia|].
  unfold bind at 1. unfold ret at 1.
  rewrite Hopen2. rewrite Hpool, Hclock, Hfd in *.
  split; [reflexivity|]. split; [exact Hfiles|].
  split; [exact Hopened | exact Hdisk].
Qed.

(** X10.  A file just created is empty: statfile_pool_create followed by
    statfile_pool_open with the same size, whatever was at the path before,
    gives a valid handle with (size - 288 - 16) / 16 blocks on which
    statfile_get_used_blocks returns 0, which is the number of occupied
    blocks, and statfile_pool_get_block returns 0 for every key.  The open
    does not reindex. *)
Theorem fresh_file_is_empty (path : string) (size : Z) (s : system) :
  statfile_pool_is_open (pool s) path = None ->
  pool_has_room (pool s) ->
  sizeof_stat_file <= size < 2 ^ 36 + sizeof_header + sizeof_section ->
  exists (s1 s2 : system) (idx : nat) (file : rspamd_mmaped_file_t)
         (m : mapping),
    statfile_pool_create path size s = Ok (0, s1) /\
    statfile_pool_open convert_statfile_10 path size false s1 =
      Ok (Some idx, s2) /\
    nth_error (files (pool s2)) idx = Some file /\
    valid_handle file m /\
    length (cur_section file) =
      (size - sizeof_header - sizeof_section) / sizeof_block /\
    statfile_get_used_blocks (Some file) = Ok 0 /\
    used_blocks_exact file m /\
    forall h1 h2 now : Z,
      exists file' : rspamd_mmaped_file_t,
        statfile_pool_get_block file h1 h2 now = Ok (0, file').
Proof.
  intros Hopen Hroom Hsize.
  destruct (create_then_open path size s Hopen Hroom Hsize)
    as (Hn & s1 & s2 & df & Hcr & _ & Hfile & Hop & Hfiles & _).
  set (n := (size - sizeof_header - sizeof_section) / sizeof_block) in *.
  set (m := {| cells := contents df; extent := fsize df; probed := [] |}).
  pose proof (created_file_opens_valid path df (next_fd s) (clock s)
                (clock s) n Hfile ltac:(lia)) as Hvalid.
  fold m in Hvalid.
  exists s1, s2. eexists _, _, m.
  split; [exact Hcr|]. split; [exact Hop|].
  split; [rewrite Hfiles; apply list_set_same; now destruct Hroom|].
  split; [exact Hvalid|]. split; [reflexivity|].
  pose proof Hfile as (Hfs & _ & _ & Hzero).
  assert (Hused : statfile_get_used_blocks
                    (Some (opened_handle path df (next_fd s) (clock s)
                             STATFILE_SECTION_COMMON n)) = Ok 0).
  { rewrite (get_used_blocks_ok _ m); [|reflexivity|].
    - cbn [cells m]. now rewrite (created_file_used_blocks df n (clock s)).
    - cbn [extent m]. rewrite Hfs. layout_lia. }
  split; [exact Hused|]. split.
  - unfold used_blocks_exact. rewrite Hused. f_equal. symmetry.
    apply occupied_blocks_zero. intros x Hx. cbn [cells m]. apply Hzero.
    cbn [seek_pos opened_handle] in Hx. layout_lia.
  - intros h1 h2 now.
    destruct (get_block_post _ m h1 h2 now Hvalid) as (k & v & Hget & Hres).
    assert (v = 0) as ->.
    { destruct Hres as (_ & [(k' & _ & _ & _ & ->)|(_ & -> & _)]);
        [|reflexivity].
      apply zero_block. intros x Hx. cbn [cells m]. apply Hzero.
      pose proof (chain_base_behind_header _ m h1 Hvalid) as Hb.
      destruct Hvalid as (_ & _ & Hseek & _).
      unfold chain_base, slot0 in *.
      pose proof (Z.mod_pos_bound h1
                    (length (cur_section
                               (opened_handle path df (next_fd s) (clock s)
                                  STATFILE_SECTION_COMMON n)))) as Hmod.
      cbn [cur_section opened_handle length seek_pos] in *.
      specialize (Hmod ltac:(lia)). layout_lia. }
    eexists. exact Hget.
Qed.

End Creating.

Lemma boot_has_room (n : Z) :
  0 <= n < STATFILES_MAX - 1 -> pool_has_room (pool (boot n)).
Proof.
  intro H. unfold pool_has_room, boot. cbn [pool opened files].
  split; [exact H|]. rewrite repeat_length.
  unfold STATFILES_MAX in *. lia.
Defined.

Lemma fresh_file_is_empty_witness :
  exists (s1 s2 : system) (idx : nat) (file : rspamd_mmaped_file_t)
         (m : mapping),
    statfile_pool_create "stat" 1000 (boot 0) = Ok (0, s1) /\
    statfile_pool_open no_conversion "stat" 1000 false s1 =
      Ok (Some idx, s2) /\
    nth_error (files (pool s2)) idx = Some file /\
    valid_handle file m /\
    length (cur_section file) =
      (1000 - sizeof_header - sizeof_section) / sizeof_block /\
    statfile_get_used_blocks (Some file) = Ok 0 /\
    used_blocks_exact file m /\
    forall h1 h2 now : Z,
      exists file' : rspamd_mmaped_file_t,
        statfile_pool_get_block file h1 h2 now = Ok (0, file').
Proof.
  apply (fresh_file_is_empty no_conversion "stat" 1000 (boot 0)).
  - reflexivity.
  - apply boot_has_room. unfold STATFILES_MAX. lia.
  - unfold sizeof_stat_file, sizeof_header, sizeof_section. lia.
Defined.

(** ** What statfile_pool_open lets through *)

Lemma signature_current (f : Z -> Z) (l : Z) (p : list Z) :
  load_le 1 f off_magic = 114 -> load_le 1 f (off_magic + 1) = 115 ->
  load_le 1 f (off_magic + 2) = 100 ->
  load_le 1 f off_version = 49 -> load_le 1 f (off_version + 1) = 50 ->
  5 <= l ->
  read_signature {| cells := f; extent := l; probed := p |} =
    Ok (Current, {| cells := f; extent := l; probed := p |}).
Proof.
  intros M0 M1 M2 V0 V1 Hl.
  unfold read_signature, off_magic, off_version in *.
  unfold bind.
  rewrite load_ok by (cbn [extent]; simpl Z.of_nat; lia).
  cbn [cells]. rewrite M0. cbn [Z.eqb Pos.eqb negb].
  rewrite load_ok by (cbn [extent]; simpl Z.of_nat; lia).
  cbn [cells]. rewrite M1. cbn [Z.eqb Pos.eqb negb].
  rewrite load_ok by (cbn [extent]; simpl Z.of_nat; lia).
  cbn [cells]. rewrite M2. cbn [Z.eqb Pos.eqb negb].
  rewrite load_ok by (cbn [extent]; simpl Z.of_nat; lia).
  cbn [cells]. rewrite V0.
  rewrite load_ok by (cbn [extent]; simpl Z.of_nat; lia).
  cbn [cells]. rewrite V1. reflexivity.
Qed.

Section Accepting.

Variable convert_statfile_10 :
  rspamd_mmaped_file_t -> option rspamd_mmaped_file_t.

(** A file that passes the tests of rspamd_mmaped_file_check is opened. *)
Lemma open_mapped_accepts (path : string) (s : system) (df : disk_file)
  (c n : Z) :
  pool_has_room (pool s) ->
  statfile_pool_is_open (pool s) path = None ->
  disk s path = Some df ->
  passes_check df c n ->
  exists s' : system,
    open_mapped convert_statfile_10 path (fsize df) s =
      Ok (Some (Z.to_nat (opened (pool s))), s') /\
    files (pool s') =
      list_set (files (pool s)) (Z.to_nat (opened (pool s)))
        (opened_handle path df (next_fd s) (clock s) c n) /\
    opened (pool s') = opened (pool s) + 1 /\
    disk s' = disk s.
Proof.
  intros ((Hop0 & Hop1) & Hroom) Hopen Hd
    (Hlong & M0 & M1 & M2 & V0 & V1 & Hcode & Hlen & Hfit).
  set (idx := Z.to_nat (opened (pool s))) in *.
  assert (Hltb : (idx <? List.length (files (pool s)))%nat = true)
    by now apply Nat.ltb_lt.
  assert (Hidx : (idx < List.length (files (pool s)))%nat) by exact Hroom.
  set (m := {| cells := contents df; extent := fsize df; probed := [] |}).
  assert (Hshort : (fsize df <? sizeof_stat_file) = false)
    by (apply Z.ltb_ge; lia).
  assert (Hsig : read_signature m = Ok (Current, m))
    by (apply signature_current; try assumption; layout_lia).
  assert (Hlc : load_u64 (off_section + off_code) m = Ok (c, m)).
  { unfold load_u64. rewrite load_ok.
    - cbn [cells m]. now rewrite Hcode.
    - unfold off_section, off_code. lia.
    - cbn [extent m]. simpl Z.of_nat.
      unfold off_section, off_code, sizeof_stat_file in *. lia. }
  assert (Hll : load_u64 (off_section + off_length) m = Ok (n, m)).
  { unfold load_u64. rewrite load_ok.
    - cbn [cells m]. now rewrite Hlen.
    - unfold off_section, off_length. lia.
    - cbn [extent m]. simpl Z.of_nat.
      unfold off_section, off_length, sizeof_stat_file in *. lia. }
  assert (Htr : (guint64 (n * sizeof_block) >? fsize df) = false)
    by (rewrite Z.gtb_ltb; apply Z.ltb_ge; exact Hfit).
  assert (Hfind : forall b : bool, statfile_pool_is_open
                    {| files := list_set (files (pool s)) idx
                                  (opened_handle path df (next_fd s)
                                     (clock s) c n);
                       opened := opened (pool s) + 1;
                       mlock_ok := b |} path = Some idx).
  { intro b. unfold statfile_pool_is_open. cbn [files opened].
    replace (Z.to_nat (opened (pool s) + 1)) with (S idx) by (subst idx; lia).
    rewrite lfind_list_set; try assumption.
    - reflexivity.
    - unfold cmpstatfile, opened_handle. cbn [filename].
      apply String.eqb_refl. }
  unfold open_mapped.
  cbv [bind get_pool set_opened set_file sys_open sys_mmap msg time get_file
       set_mlock_ok ret with_pool rspamd_mmaped_file_check check_section peek].
  cbn [pool files opened mlock_ok disk clock next_fd mlock_allowed log].
  destruct (Z.ltb_spec (opened (pool s)) 0) as [Hneg|_]; [lia|].
  fold idx.
  destruct (Z.leb_spec (fsize df) 0) as [Hle|_];
    [unfold sizeof_stat_file in Hlong; lia|].
  subst m. unfold opened_handle in Hfind.
  destruct (mlock_ok (pool s)) eqn:Hmok, (mlock_allowed s) eqn:Hmal.
  all: repeat first
    [ rewrite Hltb | rewrite Hd | rewrite Hmok | rewrite Hmal
    | rewrite Hfind | progress change (0 =? -1) with false
    | rewrite Hshort | rewrite Hsig | rewrite Hlc | rewrite Hll | rewrite Htr
    | rewrite list_set_length
    | rewrite list_set_set
    | rewrite list_set_same by (rewrite ?list_set_length; exact Hidx)
    | progress cbn [pool files opened mlock_ok disk clock next_fd
                    mlock_allowed log map len set_len_name_map set_fd
                    set_cursor set_times zero_file seek_pos cur_section
                    filename fd open_time access_time]
    | progress cbv beta iota ].
  all: eexists; (split; [reflexivity|]);
    cbn [pool files opened mlock_ok disk clock next_fd mlock_allowed log];
    repeat (split; [reflexivity|]); reflexivity.
Qed.

Lemma open_forced_accepts (path : string) (size : Z) (s : system)
  (df : disk_file) (c n : Z) :
  pool_has_room (pool s) ->
  statfile_pool_is_open (pool s) path = None ->
  disk s path = Some df ->
  passes_check df c n ->
  sizeof_stat_file <= size ->
  exists s' : system,
    statfile_pool_open convert_statfile_10 path size true s =
      Ok (Some (Z.to_nat (opened (pool s))), s') /\
    nth_error (files (pool s')) (Z.to_nat (opened (pool s))) =
      Some (opened_handle path df (next_fd s) (clock s) c n) /\
    files (pool s') =
      list_set (files (pool s)) (Z.to_nat (opened (pool s)))
        (opened_handle path df (next_fd s) (clock s) c n) /\
    opened (pool s') = opened (pool s) + 1 /\
    disk s' = disk s.
Proof.
  intros Hroom Hopen Hd Hpass Hsize.
  destruct (open_mapped_accepts path s df c n Hroom Hopen Hd Hpass)
    as (s' & Hom & Hfiles & Hopened & Hdisk).
  exists s'.
  rewrite open_forced_eq, (open_forced_decision _ path size s df);
    try assumption; [|now destruct Hroom as [[_ H] _]].
  split; [exact Hom|]. split; [|now repeat split].
  rewrite Hfiles. apply list_set_same. now destruct Hroom.
Qed.

(** X11.  A section of length 0 passes the validation: a file with the
    magic, the current version, at least 320 bytes and a first section
    whose length field is 0 is opened by statfile_pool_open, and on the
    handle returned every statfile_pool_get_block and every
    statfile_pool_set_block divides by the section length, zero. *)
Theorem open_accepts_empty_section (path : string) (size : Z) (s : system)
  (df : disk_file) (c : Z) :
  pool_has_room (pool s) ->
  statfile_pool_is_open (pool s) path = None ->
  disk s path = Some df ->
  passes_check df c 0 ->
  sizeof_stat_file <= size ->
  exists (idx : nat) (s' : system) (file : rspamd_mmaped_file_t),
    statfile_pool_open convert_statfile_10 path size true s =
      Ok (Some idx, s') /\
    nth_error (files (pool s')) idx = Some file /\
    length (cur_section file) = 0 /\
    forall h1 h2 t value : Z,
      statfile_pool_get_block file h1 h2 t = Fault /\
      statfile_pool_set_block file h1 h2 t value = Fault.
Proof.
  intros Hroom Hopen Hd Hpass Hsize.
  destruct (open_forced_accepts path size s df c 0 Hroom Hopen Hd Hpass Hsize)
    as (s' & Hop & Hnth & _).
  eexists _, s', _. split; [exact Hop|]. split; [exact Hnth|].
  split; [reflexivity|].
  intros h1 h2 t value. split; reflexivity.
Qed.


End Accepting.

Lemma statfile_on_disk_has_room (df : disk_file) :
  pool_has_room (pool (statfile_on_disk df)).
Proof. apply (boot_has_room 0). unfold STATFILES_MAX. lia. Defined.

Lemma open_accepts_empty_section_witness :
  exists (idx : nat) (s' : system) (file : rspamd_mmaped_file_t),
    statfile_pool_open no_conversion "stat" 320 true
      (statfile_on_disk (with_section_length (fresh_statfile 1 0) 0)) =
      Ok (Some idx, s') /\
    nth_error (files (pool s')) idx = Some file /\
    length (cur_section file) = 0 /\
    forall h1 h2 t value : Z,
      statfile_pool_get_block file h1 h2 t = Fault /\
      statfile_pool_set_block file h1 h2 t value = Fault.
Proof.
  apply (open_accepts_empty_section no_conversion "stat" 320
           (statfile_on_disk (with_section_length (fresh_statfile 1 0) 0))
           (with_section_length (fresh_statfile 1 0) 0)
           STATFILE_SECTION_COMMON).
  - apply statfile_on_disk_has_room.
  - reflexivity.
  - reflexivity.
  - repeat split; vm_compute; (reflexivity || discriminate).
  - unfold sizeof_stat_file. lia.
Defined.


(** ** The pool across calls of statfile_pool_open *)

Lemma bind_ok {S A B : Type} (c : ST S A) (k : A -> ST S B) (s s' : S)
  (b : B) :
  bind c k s = Ok (b, s') ->
  exists (a : A) (s1 : S), c s = Ok (a, s1) /\ k a s1 = Ok (b, s').
Proof.
  unfold bind. destruct (c s) as [[a s1]|]; [eauto | discriminate].
Qed.

Tactic Notation "inv_bind" hyp(H) "as" ident(a) ident(s) ident(Hc) :=
  apply bind_ok in H; destruct H as (a & s & Hc & H).

Lemma get_file_inv (idx : nat) (s s1 : system) (f : rspamd_mmaped_file_t) :
  get_file idx s = Ok (f, s1) ->
  s1 = s /\ nth_error (files (pool s)) idx = Some f.
Proof.
  unfold get_file. destruct (nth_error (files (pool s)) idx);
    [|discriminate].
  intro H. injection H as <- <-. now split.
Qed.

Lemma peek_inv {A : Type} (m : mapping) (c : ST mapping A) (s s1 : system)
  (a : A) :
  peek m c s = Ok (a, s1) -> s1 = s.
Proof.
  unfold peek. destruct (c m) as [[a' m']|]; [|discriminate].
  intro H. now injection H as _ <-.
Qed.

Lemma set_file_inv (idx : nat) (f : rspamd_mmaped_file_t) (s s1 : system)
  (u : unit) :
  set_file idx f s = Ok (u, s1) ->
  (idx < List.length (files (pool s)))%nat /\
  files (pool s1) = list_set (files (pool s)) idx f /\
  opened (pool s1) = opened (pool s) /\ disk s1 = disk s.
Proof.
  unfold set_file.
  destruct (Nat.ltb_spec idx (List.length (files (pool s)))) as [Hlt|_];
    [|discriminate].
  intro H. injection H as _ <-. now repeat split.
Qed.

Lemma msg_inv (e : message) (s s1 : system) (u : unit) :
  msg e s = Ok (u, s1) -> pool s1 = pool s /\ disk s1 = disk s.
Proof. unfold msg. intro H. injection H as _ <-. now split. Qed.

Lemma cell_frame_refl (idx : nat) (s : system) : cell_frame idx s s.
Proof. now repeat split. Qed.

Lemma cell_frame_trans (idx : nat) (s s1 s2 : system) :
  cell_frame idx s s1 -> cell_frame idx s1 s2 -> cell_frame idx s s2.
Proof.
  intros (D1 & L1 & N1) (D2 & L2 & N2). repeat split; try congruence.
  intros i Hi. rewrite N2, N1 by exact Hi. reflexivity.
Qed.

Lemma cell_frame_pool (idx : nat) (s s1 : system) :
  files (pool s1) = files (pool s) -> disk s1 = disk s ->
  cell_frame idx s s1.
Proof. intros E D. unfold cell_frame. rewrite E. now repeat split. Qed.

Lemma cell_frame_set (idx : nat) (f : rspamd_mmaped_file_t) (s s1 : system) :
  files (pool s1) = list_set (files (pool s)) idx f -> disk s1 = disk s ->
  cell_frame idx s s1.
Proof.
  intros E D. unfold cell_frame. rewrite E, list_set_length.
  repeat split; [exact D|].
  intros i Hi. apply list_set_other. congruence.
Qed.

Lemma name_kept_refl (idx : nat) (s : system) : name_kept idx s s.
Proof. intros f Hf. now exists f. Qed.

Lemma name_kept_trans (idx : nat) (s s1 s2 : system) :
  name_kept idx s s1 -> name_kept idx s1 s2 -> name_kept idx s s2.
Proof.
  intros K1 K2 f Hf. destruct (K1 f Hf) as (f1 & H1 & E1).
  destruct (K2 f1 H1) as (f2 & H2 & E2). exists f2. split; congruence.
Qed.

Lemma name_kept_pool (idx : nat) (s s1 : system) :
  files (pool s1) = files (pool s) -> name_kept idx s s1.
Proof. intros E f Hf. exists f. now rewrite E. Qed.

Lemma name_kept_set (idx : nat) (f f0 : rspamd_mmaped_file_t)
  (s s1 : system) :
  nth_error (files (pool s)) idx = Some f0 -> filename f = filename f0 ->
  files (pool s1) = list_set (files (pool s)) idx f ->
  name_kept idx s s1.
Proof.
  intros H0 En E g Hg. exists f. rewrite E. split.
  - apply list_set_same. apply nth_error_Some. congruence.
  - congruence.
Qed.


Lemma lfind_hit (name : string) (n : nat) :
  forall (l : list rspamd_mmaped_file_t) (k i : nat)
         (f : rspamd_mmaped_file_t),
    (i < n)%nat -> nth_error l i = Some f -> cmpstatfile name f = true ->
    lfind name l n k <> None.
Proof.
  induction n as [|n IH]; intros l k i f Hi Hf Hc; [lia|].
  destruct l as [|g l]; [destruct i; discriminate|].
  cbn [lfind]. destruct (cmpstatfile name g) eqn:Eg; [discriminate|].
  destruct i as [|i]; [cbn in Hf; congruence|].
  apply (IH l (S k) i f); [lia | exact Hf | exact Hc].
Qed.

(** Steps that leave the handles, the count of open handles and the disk
    as they are. *)
Lemma get_pool_inv (s s1 : system) (p : rspamd_mmaped_file_ctx) :
  get_pool s = Ok (p, s1) -> p = pool s /\ s1 = s.
Proof. unfold get_pool. intro H. injection H as <- <-. now split. Qed.

Lemma set_opened_inv (n : Z) (s s1 : system) (u : unit) :
  set_opened n s = Ok (u, s1) ->
  files (pool s1) = files (pool s) /\ opened (pool s1) = n /\
  disk s1 = disk s.
Proof. unfold set_opened. intro H. injection H as _ <-. now repeat split. Qed.

Lemma sys_open_inv (path : string) (s s1 : system) (d : option Z) :
  sys_open path s = Ok (d, s1) -> pool s1 = pool s /\ disk s1 = disk s.
Proof.
  unfold sys_open. destruct (disk s path); intro H; injection H as _ <-;
    now split.
Qed.

Lemma sys_mmap_inv (path : string) (l : Z) (s s1 : system)
  (m : option mapping) :
  sys_mmap path l s = Ok (m, s1) -> s1 = s.
Proof.
  unfold sys_mmap. destruct (disk s path); [destruct (l <=? 0)|];
    intro H; now injection H as _ <-.
Qed.

Lemma time_inv (s s1 : system) (t : Z) : time s = Ok (t, s1) -> s1 = s.
Proof. unfold time. intro H. now injection H as _ <-. Qed.

Lemma mlock_step_inv (p : rspamd_mmaped_file_ctx) (s s1 : system) (u : unit) :
  (if mlock_ok p
   then fun s => if mlock_allowed s then Ok (tt, s)
                 else (msg mlock_failed ;;; set_mlock_ok false) s
   else ret tt) s = Ok (u, s1) ->
  files (pool s1) = files (pool s) /\ opened (pool s1) = opened (pool s) /\
  disk s1 = disk s.
Proof.
  destruct (mlock_ok p); [destruct (mlock_allowed s)|];
    intro H; injection H as _ <-; now repeat split.
Qed.

Lemma lfind_names (name : string) (n : nat) :
  forall (l l' : list rspamd_mmaped_file_t) (k : nat),
    (forall i, (i < n)%nat ->
       option_map filename (nth_error l' i) =
       option_map filename (nth_error l i)) ->
    lfind name l' n k = lfind name l n k.
Proof.
  induction n as [|n IH]; intros l l' k H; [now destruct l, l'|].
  pose proof (H O ltac:(lia)) as H0.
  destruct l as [|f l], l' as [|f' l']; cbn in H0; try discriminate;
    [reflexivity|].
  injection H0 as E. cbn [lfind]. unfold cmpstatfile. rewrite E.
  destruct (String.eqb name (filename f)); [reflexivity|].
  apply IH. intros i Hi. apply (H (S i)). lia.
Qed.

(** Replacing a handle by one of the same name changes nothing for
    statfile_pool_is_open. *)
Lemma is_open_renewed (p p' : rspamd_mmaped_file_ctx) (idx : nat)
  (f f0 : rspamd_mmaped_file_t) (name : string) :
  nth_error (files p) idx = Some f0 -> filename f = filename f0 ->
  files p' = list_set (files p) idx f -> opened p' = opened p ->
  statfile_pool_is_open p' name = statfile_pool_is_open p name.
Proof.
  intros H0 En Ef Eo. unfold statfile_pool_is_open. rewrite Eo, Ef.
  apply lfind_names. intros i _.
  destruct (Nat.eq_dec i idx) as [->|Hne].
  - rewrite list_set_same by (apply nth_error_Some; congruence).
    rewrite H0. cbn. now rewrite En.
  - rewrite list_set_other by congruence. reflexivity.
Qed.

Lemma set_block_keeps_name (file file' : rspamd_mmaped_file_t)
  (h1 h2 t value : Z) (from_now : bool) :
  statfile_pool_set_block_common file h1 h2 t value from_now = Ok file' ->
  filename file' = filename file.
Proof.
  unfold statfile_pool_set_block_common.
  destruct from_now; cbn [map set_access_time];
    (destruct (map file) as [m|];
     [destruct (length _ =? 0); [discriminate|];
      destruct (set_block_body _ _ _ _ _ _) as [[u m']|]; [|discriminate]
     |]);
    intro H; injection H as <-; reflexivity.
Qed.

Lemma reindex_copy_keeps_name (old : mapping) (old_size : Z) (fuel : nat) :
  forall (pos : Z) (new new' : rspamd_mmaped_file_t),
    reindex_copy fuel old old_size pos new = Ok new' ->
    filename new' = filename new.
Proof.
  induction fuel as [|fuel IH]; intros pos new new' H; [discriminate|].
  cbn [reindex_copy] in H.
  destruct (_ >=? _); [|now injection H as <-].
  match type of H with
  | match ?c with _ => _ end = _ =>
      destruct c as [[[[h1 h2] v] m]|]; [|discriminate]
  end.
  destruct (_ && _).
  - destruct (statfile_pool_set_block_common new h1 h2 0 v false)
      as [new1|] eqn:Hset; [|discriminate].
    rewrite (IH _ _ _ H). exact (set_block_keeps_name _ _ _ _ _ _ _ Hset).
  - exact (IH _ _ _ H).
Qed.

Lemma lift_inv {A : Type} (r : result A) (s s1 : system) (a : A) :
  lift r s = Ok (a, s1) -> r = Ok a /\ s1 = s.
Proof.
  unfold lift. destruct r; [|discriminate].
  intro H. injection H as <- <-. now split.
Qed.

Section Pool.

Variable convert_statfile_10 :
  rspamd_mmaped_file_t -> option rspamd_mmaped_file_t.

Lemma check_section_inv (idx : nat) (s s1 : system) (rc : Z) :
  check_section idx s = Ok (rc, s1) ->
  opened (pool s1) = opened (pool s) /\ cell_frame idx s s1 /\
  name_kept idx s s1.
Proof.
  unfold check_section. intro H.
  inv_bind H as file s0 Hc. apply get_file_inv in Hc as (-> & Hfile).
  destruct (map file) as [m|]; [|discriminate].
  inv_bind H as sec_code s0 Hc. apply peek_inv in Hc as ->.
  inv_bind H as sec_length s0 Hc. apply peek_inv in Hc as ->.
  inv_bind H as u s2 Hc. apply set_file_inv in Hc as (Hlt & Hf1 & Ho1 & Hd1).
  cbn [len set_cursor] in H.
  assert (F1 : cell_frame idx s s2) by (eapply cell_frame_set; eassumption).
  assert (K1 : name_kept idx s s2)
    by (eapply name_kept_set; [exact Hfile | | exact Hf1]; reflexivity).
  destruct (_ >? _).
  - inv_bind H as u' s3 Hc. apply msg_inv in Hc as (Hp & Hd).
    injection H as _ <-.
    split; [now rewrite Hp|]. split.
    + eapply cell_frame_trans; [exact F1|].
      apply cell_frame_pool; [now rewrite Hp | exact Hd].
    + eapply name_kept_trans; [exact K1|].
      apply name_kept_pool. now rewrite Hp.
  - inv_bind H as u' s3 Hc.
    apply set_file_inv in Hc as (Hlt2 & Hf2 & Ho2 & Hd2).
    injection H as _ <-.
    split; [congruence|]. split.
    + eapply cell_frame_trans; [exact F1|].
      eapply cell_frame_set; eassumption.
    + eapply name_kept_trans; [exact K1|].
      eapply name_kept_set; [| |exact Hf2];
        [rewrite Hf1; now apply list_set_same | reflexivity].
Qed.

Lemma check_inv (idx : nat) (s s1 : system) (rc : Z) :
  rspamd_mmaped_file_check convert_statfile_10 idx s = Ok (rc, s1) ->
  opened (pool s1) = opened (pool s) /\ cell_frame idx s s1 /\
  (keeps_name convert_statfile_10 -> name_kept idx s s1).
Proof.
  unfold rspamd_mmaped_file_check. intro H.
  inv_bind H as file s0 Hc. apply get_file_inv in Hc as (-> & Hfile).
  assert (Hstay : forall (e : message) (r : Z) (s2 : system),
            (msg e ;;; ret r) s = Ok (rc, s2) ->
            opened (pool s2) = opened (pool s) /\ cell_frame idx s s2 /\
            (keeps_name convert_statfile_10 -> name_kept idx s s2)).
  { intros e r s2 Hm. inv_bind Hm as u s3 Hc. apply msg_inv in Hc as (Hp & Hd).
    injection Hm as _ <-.
    split; [now rewrite Hp|]. split.
    - apply cell_frame_pool; [now rewrite Hp | exact Hd].
    - intros _. apply name_kept_pool. now rewrite Hp. }
  destruct (map file) as [m|].
  - destruct (len file <? sizeof_stat_file); [exact (Hstay _ _ _ H)|].
    inv_bind H as sig s0 Hc. apply peek_inv in Hc as ->.
    destruct sig as [| |e].
    + destruct (convert_statfile_10 file) as [file'|] eqn:Hconv.
      * inv_bind H as u s2 Hc.
        apply set_file_inv in Hc as (Hlt & Hf1 & Ho1 & Hd1).
        apply check_section_inv in H as (Ho & F & K).
        split; [congruence|]. split.
        -- eapply cell_frame_trans; [|exact F].
           eapply cell_frame_set; eassumption.
        -- intro Hkeep. eapply name_kept_trans; [|exact K].
           eapply name_kept_set; [exact Hfile| |exact Hf1].
           now apply Hkeep.
      * injection H as _ <-.
        split; [reflexivity|].
        split; [apply cell_frame_refl | intros _; apply name_kept_refl].
    + destruct (check_section_inv _ _ _ _ H) as (Ho & F & K).
      split; [exact Ho|]. split; [exact F | intros _; exact K].
    + exact (Hstay _ _ _ H).
  - injection H as _ <-.
    split; [reflexivity|].
    split; [apply cell_frame_refl | intros _; apply name_kept_refl].
Qed.

(** What statfile_pool_open does from the mapping of the file on: it
    works in the next free cell only, and either fails with the count of
    open handles as it was or returns a handle that is then open under
    the path. *)
Lemma open_mapped_inv (path : string) (st_size : Z) (s s1 : system)
  (r : option nat) :
  open_mapped convert_statfile_10 path st_size s = Ok (r, s1) ->
  0 <= opened (pool s) /\
  cell_frame (Z.to_nat (opened (pool s))) s s1 /\
  match r with
  | None => keeps_name convert_statfile_10 ->
            opened (pool s1) = opened (pool s)
  | Some idx => opened (pool s1) = opened (pool s) + 1 /\
                statfile_pool_is_open (pool s1) path = Some idx
  end.
Proof.
  unfold open_mapped. intro H.
  inv_bind H as p s0 Hc. apply get_pool_inv in Hc as (-> & ->).
  destruct (Z.ltb_spec (opened (pool s)) 0) as [|Hpos]; [discriminate|].
  split; [exact Hpos|].
  set (idx := Z.to_nat (opened (pool s))) in *.
  inv_bind H as u sa Hc. apply set_opened_inv in Hc as (Fa & Oa & Da).
  inv_bind H as u1 sb Hc. apply set_file_inv in Hc as (Lb & Fb & Ob & Db).
  assert (Cb : cell_frame idx s sb).
  { eapply cell_frame_trans; [apply (cell_frame_pool idx s sa); assumption|].
    eapply cell_frame_set; eassumption. }
  inv_bind H as d sc Hc. apply sys_open_inv in Hc as (Pc & Dc).
  assert (Cc : cell_frame idx s sc).
  { eapply cell_frame_trans; [exact Cb|].
    apply cell_frame_pool; [now rewrite Pc | exact Dc]. }
  (* leaving with the count taken back *)
  assert (Hback : forall (sx sy : system) (e : message),
            cell_frame idx s sx -> opened (pool sx) = opened (pool s) + 1 ->
            (msg e ;;; (p <- get_pool ;;
                        set_opened (opened p - 1) ;;; ret None)) sx =
              Ok (r, sy) ->
            cell_frame idx s sy /\ r = None /\
            opened (pool sy) = opened (pool s)).
  { intros sx sy e Cx Ox Hx.
    inv_bind Hx as u2 s2 Hc. apply msg_inv in Hc as (P2 & D2).
    inv_bind Hx as p2 s3 Hc. apply get_pool_inv in Hc as (-> & ->).
    inv_bind Hx as u3 s4 Hc. apply set_opened_inv in Hc as (F4 & O4 & D4).
    injection Hx as <- <-.
    split; [|split; [reflexivity | rewrite O4, P2; lia]].
    eapply cell_frame_trans; [exact Cx|].
    apply cell_frame_pool; [rewrite F4; now rewrite P2 | congruence]. }
  destruct d as [d|].
  - inv_bind H as u2 sd Hc. apply set_file_inv in Hc as (Ld & Fd & Od & Dd).
    assert (Cd : cell_frame idx s sd).
    { eapply cell_frame_trans; [exact Cc|].
      eapply cell_frame_set; eassumption. }
    assert (Oopen : opened (pool sd) = opened (pool s) + 1)
      by (rewrite Od, Pc, Ob; exact Oa).
    inv_bind H as m se Hc. apply sys_mmap_inv in Hc as ->.
    destruct m as [m|].
    + inv_bind H as u3 sf Hc.
      apply set_file_inv in Hc as (Lf & Ff & Of & Df).
      assert (Nf : exists f, nth_error (files (pool sf)) idx = Some f /\
                             filename f = path).
      { eexists. split; [rewrite Ff; now apply list_set_same|reflexivity]. }
      assert (Cf : cell_frame idx s sf).
      { eapply cell_frame_trans; [exact Cd|].
        eapply cell_frame_set; eassumption. }
      inv_bind H as p1 s2 Hc. apply get_pool_inv in Hc as (-> & ->).
      inv_bind H as u4 sg Hc. apply mlock_step_inv in Hc as (Fg & Og & Dg).
      inv_bind H as rc sh Hc. apply check_inv in Hc as (Oh & Ch & Kh).
      assert (Cg : cell_frame idx s sg).
      { eapply cell_frame_trans; [exact Cf|].
        apply cell_frame_pool; assumption. }
      assert (Ohh : opened (pool sh) = opened (pool s) + 1) by congruence.
      assert (Nh : keeps_name convert_statfile_10 ->
                   exists f, nth_error (files (pool sh)) idx = Some f /\
                             filename f = path).
      { intro Hkeep. destruct Nf as (f & Hf & Ef). rewrite <- Fg in Hf.
        destruct (Kh Hkeep f Hf) as (f' & Hf' & Ef'). exists f'.
        split; [exact Hf' | congruence]. }
      destruct (rc =? -1).
      * inv_bind H as p2 s3 Hc. apply get_pool_inv in Hc as (-> & ->).
        inv_bind H as u5 si Hc. apply set_opened_inv in Hc as (Fi & Oi & Di).
        injection H as <- <-.
        split; [|intros _; lia].
        eapply cell_frame_trans; [exact Cg|].
        eapply cell_frame_trans; [exact Ch|].
        apply cell_frame_pool; assumption.
      * inv_bind H as now s3 Hc. apply time_inv in Hc as ->.
        inv_bind H as file s3 Hc. apply get_file_inv in Hc as (-> & Hfile).
        inv_bind H as u5 sj Hc.
        apply set_file_inv in Hc as (Lj & Fj & Oj & Dj).
        inv_bind H as p2 s3 Hc. apply get_pool_inv in Hc as (-> & ->).
        injection H as <- <-.
        assert (Cj : cell_frame idx s sj).
        { eapply cell_frame_trans; [exact Cg|].
          eapply cell_frame_trans; [exact Ch|].
          eapply cell_frame_set; eassumption. }
        split; [exact Cj|].
        destruct (statfile_pool_is_open (pool sj) path) as [i|] eqn:Hopen.
        -- split; [congruence | reflexivity].
        -- intro Hkeep. exfalso. unfold statfile_pool_is_open in Hopen.
           destruct (Nh Hkeep) as (f & Hf & Ef).
           assert (file = f) as -> by congruence.
           apply (lfind_hit path _ (files (pool sj)) 0 idx
                    (set_times f now)) in Hopen; [exact Hopen| | |].
           ++ rewrite Oj, Ohh. subst idx. lia.
           ++ rewrite Fj. now apply list_set_same.
           ++ unfold cmpstatfile. cbn [filename set_times]. rewrite Ef.
              apply String.eqb_refl.
    + destruct (Hback sd s1 cannot_mmap Cd Oopen H) as (C & -> & O).
      split; [exact C | intros _; exact O].
  - inv_bind H as u2 sd Hc. apply set_file_inv in Hc as (Ld & Fd & Od & Dd).
    assert (Cd : cell_frame idx s sd).
    { eapply cell_frame_trans; [exact Cc|].
      eapply cell_frame_set; eassumption. }
    assert (Oopen : opened (pool sd) = opened (pool s) + 1)
      by (rewrite Od, Pc, Ob; exact Oa).
    destruct (Hback sd s1 cannot_open Cd Oopen H) as (C & -> & O).
    split; [exact C | intros _; exact O].
Qed.

(** The ways through statfile_pool_open. *)
Lemma open_with_inv
  (reindex : string -> Z -> Z -> ST system (option nat))
  (path : string) (size : Z) (forced : bool) (s s1 : system)
  (r : option nat) :
  statfile_pool_open_with convert_statfile_10 reindex path size forced s =
    Ok (r, s1) ->
  (statfile_pool_is_open (pool s) path = r /\ r <> None /\ s1 = s) \/
  (statfile_pool_is_open (pool s) path = None /\
   ((r = None /\ pool s1 = pool s /\ disk s1 = disk s) \/
    (exists (s0 : system) (st_size : Z),
       pool s0 = pool s /\ disk s0 = disk s /\
       open_mapped convert_statfile_10 path st_size s0 = Ok (r, s1)) \/
    (forced = false /\
     exists (s0 : system) (df : disk_file),
       pool s0 = pool s /\ disk s0 = disk s /\ disk s path = Some df /\
       sizeof_stat_file < size /\
       reindex path (fsize df) size s0 = Ok (r, s1)))).
Proof.
  unfold statfile_pool_open_with. intro H.
  inv_bind H as p s0 Hc. apply get_pool_inv in Hc as (-> & ->).
  destruct (statfile_pool_is_open (pool s) path) as [idx|] eqn:Hopen.
  { injection H as <- <-. left. split; [reflexivity|]. now split. }
  right. split; [reflexivity|].
  destruct (opened (pool s) >=? STATFILES_MAX - 1).
  { inv_bind H as u s2 Hc. apply msg_inv in Hc as (Hp & Hd).
    injection H as <- <-. left. now repeat split. }
  unfold open_stat_and_map in H.
  inv_bind H as st s2 Hc.
  unfold sys_stat in Hc. injection Hc as <- <-.
  destruct (disk s path) as [df|] eqn:Hd; cbn [option_map] in H.
  - destruct (negb forced && _ && (size >? sizeof_stat_file)) eqn:Htest.
    + inv_bind H as u s2 Hc. apply msg_inv in Hc as (Hp & Hdk).
      right. right.
      apply andb_true_iff in Htest as (Htest & Hbig).
      apply andb_true_iff in Htest as (Hforced & _).
      split; [now destruct forced|].
      exists s2, df. repeat split; try assumption.
      now apply Z.gtb_lt in Hbig.
    + inv_bind H as u s2 Hc.
      assert (pool s2 = pool s /\ disk s2 = disk s) as (Hp & Hdk).
      { destruct (size <? sizeof_stat_file).
        - now apply msg_inv in Hc.
        - injection Hc as _ <-. now split. }
      right. left. now exists s2, (fsize df).
  - inv_bind H as u s2 Hc. apply msg_inv in Hc as (Hp & Hdk).
    injection H as <- <-. left. now repeat split.
Qed.

Lemma open_forced_some (path : string) (size : Z) (s s1 : system)
  (idx : nat) :
  statfile_pool_open_forced convert_statfile_10 path size s =
    Ok (Some idx, s1) ->
  statfile_pool_is_open (pool s1) path = Some idx.
Proof.
  intro H. apply open_with_inv in H
    as [(Hopen & _ & ->)|(_ & [(Hr & _)|[(s0 & st & _ & _ & Hm)|(Hf & _)]])];
    try discriminate.
  - exact Hopen.
  - now apply open_mapped_inv in Hm as (_ & _ & _ & Hopen).
Qed.

Lemma reindex_some (path : string) (old_size size : Z) (s s1 : system)
  (idx : nat) :
  rspamd_mmaped_file_reindex convert_statfile_10 path old_size size s =
    Ok (Some idx, s1) ->
  statfile_pool_is_open (pool s1) path = Some idx.
Proof.
  unfold rspamd_mmaped_file_reindex. intro H.
  assert (Hnone : forall (e : message) (sx : system),
            (msg e ;;; ret None) sx = Ok (Some idx, s1) -> False).
  { intros e sx Hx. inv_bind Hx as u s2 Hc. discriminate. }
  destruct (size <? _); [now destruct (Hnone _ _ H)|].
  inv_bind H as renamed sa Hc. clear Hc.
  destruct (negb renamed); [now destruct (Hnone _ _ H)|].
  inv_bind H as rc sb Hc. clear Hc.
  destruct (negb (rc =? 0)); [now destruct (Hnone _ _ H)|].
  inv_bind H as d sc Hc. clear Hc.
  inv_bind H as new sd Hc. 
  destruct d as [d|]; [|now destruct (Hnone _ _ H)].
  destruct new as [i|]; [|now destruct (Hnone _ _ H)].
  apply open_forced_some in Hc.
  inv_bind H as old se Hm. apply sys_mmap_inv in Hm as ->.
  destruct old as [old|]; [|now destruct (Hnone _ _ H)].
  inv_bind H as file s2 Hg. apply get_file_inv in Hg as (-> & Hfile).
  inv_bind H as file1 s2 Hl. apply lift_inv in Hl as (Hcopy & ->).
  apply reindex_copy_keeps_name in Hcopy.
  inv_bind H as u sf Hs. apply set_file_inv in Hs as (Lf & Ff & Of & Df).
  assert (Hopen1 : statfile_pool_is_open (pool sf) path = Some i).
  { rewrite <- Hc.
    apply (is_open_renewed (pool sd) (pool sf) i file1 file);
      assumption. }
  inv_bind H as rev s2 Hp. apply peek_inv in Hp as ->.
  inv_bind H as rev_time s2 Hp. apply peek_inv in Hp as ->.
  inv_bind H as rr s2 Hl. apply lift_inv in Hl as (Hrev & ->).
  inv_bind H as u1 sg Hs.
  assert (Hopen2 : statfile_pool_is_open (pool sg) path = Some i).
  { unfold statfile_set_revision in Hrev.
    destruct (map file1) as [m|].
    - match type of Hrev with
      | match ?c with _ => _ end = _ =>
          destruct c as [[u2 m']|]; [|discriminate]
      end.
      injection Hrev as <-. cbn [snd] in Hs.
      apply set_file_inv in Hs as (Lg & Fg & Og & Dg).
      rewrite <- Hopen1.
      apply (is_open_renewed (pool sf) (pool sg) i
               (set_map file1 (Some m')) file1); try assumption.
      + rewrite Ff. now apply list_set_same.
      + reflexivity.
    - injection Hrev as <-. cbn [snd] in Hs.
      apply set_file_inv in Hs as (Lg & Fg & Og & Dg).
      rewrite <- Hopen1.
      apply (is_open_renewed (pool sf) (pool sg) i file1 file1);
        try assumption.
      + rewrite Ff. now apply list_set_same.
      + reflexivity. }
  inv_bind H as u2 sh Hu.
  unfold sys_unlink in Hu. injection Hu as _ <-.
  injection H as <- <-. exact Hopen2.
Qed.

(** X13.  A file that statfile_pool_open has opened is open under its
    path, whichever way the call went (the file was open already, it was
    mapped, or it was reindexed first): a further statfile_pool_open of the
    path, with any size and any flag, returns the same handle and changes
    nothing, neither in the pool nor on disk nor in the log. *)
Theorem open_is_idempotent (path : string) (size : Z) (forced : bool)
  (s s1 : system) (idx : nat) :
  statfile_pool_open convert_statfile_10 path size forced s =
    Ok (Some idx, s1) ->
  statfile_pool_is_open (pool s1) path = Some idx /\
  forall (size' : Z) (forced' : bool),
    statfile_pool_open convert_statfile_10 path size' forced' s1 =
      Ok (Some idx, s1).
Proof.
  intro H.
  assert (Hopen : statfile_pool_is_open (pool s1) path = Some idx).
  { apply open_with_inv in H
      as [(Hopen & _ & ->)
         |(_ & [(Hr & _)|[(s0 & st & _ & _ & Hm)
                         |(_ & s0 & df & _ & _ & _ & _ & Hr)]])].
    - exact Hopen.
    - discriminate.
    - now apply open_mapped_inv in Hm as (_ & _ & _ & Hopen).
    - exact (reindex_some _ _ _ _ _ _ Hr). }
  split; [exact Hopen|].
  intros size' forced'.
  unfold statfile_pool_open, statfile_pool_open_with, bind, get_pool.
  now rewrite Hopen.
Qed.


(** X15.  On the context that rspamd_mmaped_file_init returns nothing can
    be opened: the context is allocated zeroed and its array of handles is
    never allocated, so for a file that exists statfile_pool_open, forced
    or not, with or without a reindex, ends in the write to the first cell
    of the array, which is outside of it. *)
Theorem open_after_init_faults (path : string) (size : Z) (forced : bool)
  (s : system) (df : disk_file) (mlock_statfile_pool : bool) :
  pool s = rspamd_mmaped_file_init mlock_statfile_pool ->
  disk s path = Some df ->
  statfile_pool_open convert_statfile_10 path size forced s = Fault.
Proof.
  intros Hpool Hd.
  assert (Hmapped : forall (st : Z) (sx : system),
            pool sx = pool s ->
            open_mapped convert_statfile_10 path st sx = Fault).
  { intros st sx Hp.
    unfold open_mapped. unfold bind at 1. unfold get_pool at 1.
    rewrite Hp, Hpool. cbn [opened rspamd_mmaped_file_init].
    change (0 <? 0) with false. cbv beta iota.
    unfold bind at 1. unfold set_opened at 1.
    unfold bind at 1. unfold set_file at 1.
    cbn [pool with_pool files]. rewrite Hp, Hpool. reflexivity. }
  assert (Hnot : forall name (sx : system),
            pool sx = pool s -> statfile_pool_is_open (pool sx) name = None).
  { intros name sx Hp. rewrite Hp, Hpool. reflexivity. }
  assert (Hfew : forall sx : system,
            pool sx = pool s -> opened (pool sx) < STATFILES_MAX - 1).
  { intros sx Hp. rewrite Hp, Hpool. reflexivity. }
  rewrite (open_decision convert_statfile_10 path size forced s df);
    [|now apply Hnot|now apply Hfew|exact Hd].
  destruct (negb forced && _ && (size >? sizeof_stat_file)) eqn:Htest.
  - apply andb_true_iff in Htest as (_ & Hbig). apply Z.gtb_lt in Hbig.
    unfold bind at 1. unfold msg at 1.
    match goal with
    | |- rspamd_mmaped_file_reindex _ _ _ _ ?st = _ => set (s0 := st)
    end.
    assert (Hp0 : pool s0 = pool s) by reflexivity.
    assert (Hd0 : disk s0 path = Some df) by exact Hd.
    unfold rspamd_mmaped_file_reindex.
    destruct (Z.ltb_spec size
                (sizeof_header + sizeof_section + sizeof_block_ptr));
      [layout_lia|].
    unfold bind at 1. unfold sys_rename at 1. rewrite Hd0.
    cbv beta iota. cbn [negb]. unfold bind at 1.
    match goal with
    | |- context [statfile_pool_create path size ?st] => set (sa := st)
    end.
    destruct (create_post path size sa) as (sb & df' & Hcr & Hup & _).
    { now apply Hnot. }
    { layout_lia. }
    rewrite Hcr. cbv beta iota. cbn [Z.eqb negb].
    destruct Hup as (Hpb & _ & _ & _ & _ & Hdb & Hob).
    unfold bind at 1. unfold sys_open at 1.
    rewrite Hob by apply backup_name_differs.
    replace (disk sa (path ++ BACKUP_SUFFIX)%string) with (Some df)
      by (subst sa; cbn; now rewrite String.eqb_refl).
    cbv beta iota. unfold bind at 1.
    match goal with
    | |- context [statfile_pool_open_forced _ path size ?st] => set (sc := st)
    end.
    assert (Hpc : pool sc = pool s)
      by (subst sc; cbn [pool]; rewrite Hpb; reflexivity).
    rewrite (open_forced_decision convert_statfile_10 path size sc df');
      [|now apply Hnot|now apply Hfew|exact Hdb|lia].
    now rewrite Hmapped.
  - unfold bind at 1.
    destruct (size <? sizeof_stat_file).
    + unfold msg at 1. now rewrite Hmapped.
    + unfold ret at 1. now rewrite Hmapped.
Qed.

End Pool.


Lemma open_is_idempotent_witness :
  statfile_pool_is_open (pool (after_forced_open (fresh_statfile 4 0))) "stat"
    = Some 0%nat /\
  forall (size' : Z) (forced' : bool),
    statfile_pool_open no_conversion "stat" size' forced'
      (after_forced_open (fresh_statfile 4 0)) =
      Ok (Some 0%nat, after_forced_open (fresh_statfile 4 0)).
Proof.
  apply (open_is_idempotent no_conversion "stat" 400 true
           (statfile_on_disk (fresh_statfile 4 0))).
  vm_compute. reflexivity.
Defined.


Lemma open_after_init_faults_witness :
  statfile_pool_open no_conversion "stat" 2000 false
    (initial_context (fresh_statfile 4 0)) = Fault.
Proof.
  apply (open_after_init_faults no_conversion "stat" 2000 false
           (initial_context (fresh_statfile 4 0)) (fresh_statfile 4 0) true).
  - reflexivity.
  - reflexivity.
Defined.

(** ** Closing *)

Lemma lfind_unique (name : string) (n : nat) :
  forall (l : list rspamd_mmaped_file_t) (k idx : nat)
         (f : rspamd_mmaped_file_t),
    NoDup (List.map filename (firstn n l)) ->
    nth_error (firstn n l) idx = Some f -> filename f = name ->
    lfind name l n k = Some (k + idx)%nat.
Proof.
  induction n as [|n IH]; intros l k idx f Hnd Hf Hname.
  - rewrite firstn_O in Hf. destruct idx; discriminate.
  - destruct l as [|g l]; [destruct idx; discriminate|].
    cbn [firstn List.map] in Hnd, Hf. cbn [lfind]. unfold cmpstatfile.
    inversion Hnd as [|x xs Hnotin Hnd' E]. subst.
    destruct idx as [|idx].
    + cbn in Hf. injection Hf as ->. rewrite String.eqb_refl.
      f_equal. lia.
    + cbn [nth_error] in Hf.
      destruct (String.eqb_spec (filename f) (filename g)) as [E|_].
      * exfalso. apply Hnotin. rewrite <- E.
        apply in_map. eapply nth_error_In. exact Hf.
      * rewrite (IH l (S k) idx f Hnd' Hf eq_refl). f_equal. lia.
Qed.

Lemma memmove_cells_length {A : Type} (l : list A) (pos count : nat) :
  (pos + 1 + count <= List.length l)%nat ->
  List.length (memmove_cells l pos count) = List.length l.
Proof.
  intro H. unfold memmove_cells.
  rewrite !length_app, !length_firstn, !length_skipn. lia.
Qed.

(** After the move the cells before [pos + count] hold what they held, but
    for the cell [pos], which is gone. *)
Lemma memmove_cells_open {A : Type} (l : list A) (pos count : nat) :
  (pos + 1 + count <= List.length l)%nat ->
  firstn (pos + count) (memmove_cells l pos count) =
  without pos (firstn (pos + 1 + count) l).
Proof.
  intro H. unfold memmove_cells, without.
  rewrite firstn_app, length_firstn.
  replace (Nat.min pos (List.length l)) with pos by lia.
  rewrite firstn_firstn.
  replace (Nat.min (pos + count) pos) with pos by lia.
  replace (pos + count - pos)%nat with count by lia.
  rewrite firstn_app, firstn_firstn, Nat.min_id.
  rewrite length_firstn, length_skipn.
  replace (count - Nat.min count (List.length l - S pos))%nat with O by lia.
  rewrite firstn_O, app_nil_r.
  rewrite firstn_firstn.
  replace (Nat.min pos (pos + 1 + count)) with pos by lia.
  f_equal. rewrite firstn_skipn_comm. f_equal. f_equal. lia.
Qed.

(** statfile_pool_close of an open handle that is mapped and has a
    descriptor. *)
Lemma close_post (idx : nat) (keep_sorted : bool) (s : system)
  (ev : list event) (file : rspamd_mmaped_file_t) (m : mapping) :
  nth_error (files (pool s)) idx = Some file ->
  statfile_pool_is_open (pool s) (filename file) = Some idx ->
  map file = Some m -> fd file <> -1 ->
  Z.of_nat idx < opened (pool s) ->
  (Z.to_nat (opened (pool s)) <= List.length (files (pool s)))%nat ->
  statfile_pool_close idx keep_sorted {| sys := s; events := ev |} =
    Ok (0,
        {| sys :=
             {| pool :=
                  {| files := memmove_cells (files (pool s)) idx
                                (Z.to_nat (opened (pool s) - 1
                                           - Z.of_nat idx));
                     opened := opened (pool s) - 1;
                     mlock_ok := mlock_ok (pool s) |};
                disk := fun p =>
                          if String.eqb p (filename file)
                          then option_map (fun df => write_back df m)
                                 (disk s p)
                          else disk s p;
                clock := clock s; next_fd := next_fd s;
                mlock_allowed := mlock_allowed s; log := log s |};
           events := close_called (fd file)
                     :: munmap_called (filename file) (len file)
                     :: msync_called (filename file) (len file)
                     :: syncing (filename file) :: ev |}).
Proof.
  intros Hfile Hopen Hmap Hfd Hidx Hroom.
  unfold statfile_pool_close.
  unfold bind at 1. unfold in_system at 1. unfold get_file at 1.
  cbn [sys events]. rewrite Hfile.
  unfold bind at 1. unfold in_system at 1. unfold get_pool at 1.
  cbn [sys events]. rewrite Hopen, Hmap.
  destruct (Z.eqb_spec (fd file) (-1)) as [E|_]; [contradiction|].
  cbn [negb].
  cbv [bind emit sys_munmap in_system ret move_down with_disk with_pool].
  cbn [sys events pool disk files opened mlock_ok clock next_fd
       mlock_allowed log].
  destruct (Z.ltb_spec (opened (pool s) - 1 - Z.of_nat idx) 0) as [Hneg|_];
    [lia|].
  replace ((opened (pool s) - 1 - Z.of_nat idx =? 0)
           || (idx + 1 + Z.to_nat (opened (pool s) - 1 - Z.of_nat idx)
               <=? List.length (files (pool s)))%nat) with true.
  - reflexivity.
  - symmetry. apply orb_true_iff. right. apply Nat.leb_le. lia.
Qed.

Lemma lfind_none (name : string) (n : nat) :
  forall (l : list rspamd_mmaped_file_t) (k : nat),
    ~ In name (List.map filename (firstn n l)) -> lfind name l n k = None.
Proof.
  induction n as [|n IH]; intros l k H; [now destruct l|].
  destruct l as [|g l]; [reflexivity|].
  cbn [firstn List.map In] in H. cbn [lfind]. unfold cmpstatfile.
  destruct (String.eqb_spec name (filename g)) as [E|_].
  - exfalso. apply H. left. now symmetry.
  - apply IH. intro Hin. apply H. now right.
Qed.

Lemma open_handle_cell (p : rspamd_mmaped_file_ctx) (idx : nat)
  (file : rspamd_mmaped_file_t) :
  nth_error (open_handles p) idx = Some file ->
  (idx < Z.to_nat (opened p))%nat /\ nth_error (files p) idx = Some file.
Proof.
  unfold open_handles. rewrite nth_error_firstn.
  destruct (Nat.ltb_spec idx (Z.to_nat (opened p))); [|discriminate].
  now split.
Qed.

Lemma without_names (idx : nat) (l : list rspamd_mmaped_file_t)
  (file : rspamd_mmaped_file_t) :
  nth_error l idx = Some file -> NoDup (List.map filename l) ->
  NoDup (List.map filename (without idx l)) /\
  ~ In (filename file) (List.map filename (without idx l)).
Proof.
  intros Hfile Hnd. unfold without.
  rewrite <- (firstn_skipn_middle idx l Hfile) in Hnd.
  rewrite map_app in *. cbn [List.map] in Hnd.
  split; [exact (NoDup_remove_1 _ _ _ Hnd) | exact (NoDup_remove_2 _ _ _ Hnd)].
Qed.

(** statfile_pool_close of an open handle, mapped or not. *)
Lemma close_pool (idx : nat) (keep_sorted : bool) (s : system)
  (ev : list event) (file : rspamd_mmaped_file_t) :
  nth_error (files (pool s)) idx = Some file ->
  statfile_pool_is_open (pool s) (filename file) = Some idx ->
  Z.of_nat idx < opened (pool s) ->
  (Z.to_nat (opened (pool s)) <= List.length (files (pool s)))%nat ->
  exists w' : world,
    statfile_pool_close idx keep_sorted {| sys := s; events := ev |} =
      Ok (0, w') /\
    pool (sys w') =
      {| files := memmove_cells (files (pool s)) idx
                    (Z.to_nat (opened (pool s) - 1 - Z.of_nat idx));
         opened := opened (pool s) - 1;
         mlock_ok := mlock_ok (pool s) |} /\
    events w' = close_events file ++ ev /\
    disk (sys w') =
      match map file with
      | Some m => fun p => if String.eqb p (filename file)
                           then option_map (fun df => write_back df m)
                                  (disk s p)
                           else disk s p
      | None => disk s
      end /\
    clock (sys w') = clock s /\ next_fd (sys w') = next_fd s.
Proof.
  intros Hfile Hopen Hidx Hroom.
  unfold statfile_pool_close.
  unfold bind at 1. unfold in_system at 1. unfold get_file at 1.
  cbn [sys events]. rewrite Hfile.
  unfold bind at 1. unfold in_system at 1. unfold get_pool at 1.
  cbn [sys events]. rewrite Hopen.
  assert (Hmove : ((opened (pool s) - 1 - Z.of_nat idx =? 0)
                   || (idx + 1 + Z.to_nat (opened (pool s) - 1 - Z.of_nat idx)
                       <=? List.length (files (pool s)))%nat) = true)
    by (apply orb_true_iff; right; apply Nat.leb_le; lia).
  unfold close_events.
  destruct (map file) as [m|], (fd file =? -1);
    cbv [bind emit sys_munmap in_system ret move_down with_disk with_pool negb];
    cbn [sys events pool disk files opened mlock_ok clock next_fd
         mlock_allowed log];
    (destruct (Z.ltb_spec (opened (pool s) - 1 - Z.of_nat idx) 0)
       as [Hneg|_]; [lia|]);
    rewrite Hmove; eexists; (split; [reflexivity|]); now repeat split.
Qed.

(** The pool after statfile_pool_close of one of its open handles. *)
Lemma close_open_handle (idx : nat) (keep_sorted : bool) (w : world)
  (file : rspamd_mmaped_file_t) :
  pool_ok (pool (sys w)) ->
  nth_error (open_handles (pool (sys w))) idx = Some file ->
  exists w' : world,
    statfile_pool_close idx keep_sorted w = Ok (0, w') /\
    opened (pool (sys w')) = opened (pool (sys w)) - 1 /\
    open_handles (pool (sys w')) = without idx (open_handles (pool (sys w))) /\
    pool_ok (pool (sys w')) /\
    statfile_pool_is_open (pool (sys w')) (filename file) = None /\
    events w' = close_events file ++ events w.
Proof.
  destruct w as [s ev]. cbn [sys events].
  intros (Hpos & Hroom & Hnd) Hcell.
  destruct (open_handle_cell _ _ _ Hcell) as (Hidx & Hfile).
  assert (Hopen : statfile_pool_is_open (pool s) (filename file) = Some idx).
  { unfold statfile_pool_is_open.
    now rewrite (lfind_unique _ _ _ 0 idx file Hnd Hcell eq_refl). }
  destruct (close_pool idx keep_sorted s ev file Hfile Hopen ltac:(lia) Hroom)
    as (w' & Hclose & Hpool & Hev & _).
  exists w'. split; [exact Hclose|]. rewrite Hpool. cbn [opened files].
  split; [reflexivity|].
  assert (Hhandles : firstn (Z.to_nat (opened (pool s) - 1))
                       (memmove_cells (files (pool s)) idx
                          (Z.to_nat (opened (pool s) - 1 - Z.of_nat idx))) =
                     without idx (open_handles (pool s))).
  { replace (Z.to_nat (opened (pool s) - 1))
      with (idx + Z.to_nat (opened (pool s) - 1 - Z.of_nat idx))%nat by lia.
    rewrite memmove_cells_open by lia.
    unfold open_handles. do 2 f_equal. lia. }
  destruct (without_names idx _ file Hcell Hnd) as (Hnd' & Hnotin).
  split; [exact Hhandles|]. split; [|split; [|exact Hev]].
  - unfold pool_ok, open_names, open_handles. cbn [opened files].
    rewrite Hhandles. split; [lia|]. split; [|exact Hnd'].
    rewrite memmove_cells_length; lia.
  - unfold statfile_pool_is_open. cbn [opened files].
    apply lfind_none. now rewrite Hhandles.
Qed.

(** X16.  statfile_pool_close takes exactly the handle it is given out of
    the pool: in a pool whose open handles have names of their own, closing
    the handle in cell [idx] returns 0, leaves the other open handles, in
    their order, as the open handles (those behind it move down by one
    cell), and the name of the handle is open no more; a mapping is flushed
    and unmapped, a descriptor other than -1 is closed. *)
Theorem close_removes_handle (idx : nat) (keep_sorted : bool) (w : world)
  (file : rspamd_mmaped_file_t) :
  pool_ok (pool (sys w)) ->
  nth_error (open_handles (pool (sys w))) idx = Some file ->
  exists w' : world,
    statfile_pool_close idx keep_sorted w = Ok (0, w') /\
    opened (pool (sys w')) = opened (pool (sys w)) - 1 /\
    open_handles (pool (sys w')) = without idx (open_handles (pool (sys w))) /\
    pool_ok (pool (sys w')) /\
    statfile_pool_is_open (pool (sys w')) (filename file) = None /\
    events w' = close_events file ++ events w.
Proof. exact (close_open_handle idx keep_sorted w file). Qed.

Lemma five_open_ok : pool_ok (pool (sys five_open)).
Proof.
  unfold pool_ok. cbn. split; [lia|]. split; [lia|].
  repeat constructor; cbn; intuition discriminate.
Defined.

Lemma close_removes_handle_witness :
  exists w' : world,
    statfile_pool_close 1 false five_open = Ok (0, w') /\
    opened (pool (sys w')) = opened (pool (sys five_open)) - 1 /\
    open_handles (pool (sys w')) =
      without 1 (open_handles (pool (sys five_open))) /\
    pool_ok (pool (sys w')) /\
    statfile_pool_is_open (pool (sys w'))
      (filename (plain_handle "b" 4 320)) = None /\
    events w' = close_events (plain_handle "b" 4 320) ++ events five_open.
Proof.
  apply (close_removes_handle 1 false five_open (plain_handle "b" 4 320)).
  - apply five_open_ok.
  - reflexivity.
Defined.

(** ** Deleting the pool *)

Lemma list_pair_ind {A : Type} (P : list A -> Prop) :
  P [] -> (forall a, P [a]) -> (forall a b r, P r -> P (a :: b :: r)) ->
  forall l, P l.
Proof.
  intros H0 H1 H2. fix IH 1.
  intros [|a [|b r]]; [exact H0 | apply H1 | apply H2, IH].
Qed.

Lemma without_middle {A : Type} (pre rest : list A) (a : A) :
  without (List.length pre) (pre ++ a :: rest) = pre ++ rest.
Proof.
  unfold without.
  rewrite firstn_app, firstn_all, Nat.sub_diag, firstn_O, app_nil_r.
  replace (S (List.length pre)) with (List.length (pre ++ [a]))
    by (rewrite length_app; cbn; lia).
  replace (pre ++ a :: rest) with ((pre ++ [a]) ++ rest)
    by (now rewrite <- app_assoc).
  rewrite skipn_app, skipn_all, Nat.sub_diag. reflexivity.
Qed.

Lemma opened_is_length (p : rspamd_mmaped_file_ctx) :
  pool_ok p -> opened p = Z.of_nat (List.length (open_handles p)).
Proof.
  intros (Hpos & Hroom & _). unfold open_handles.
  rewrite length_firstn. lia.
Qed.

(** The loop of statfile_pool_delete from index [length pre], the
    handles [rest] being those of the cells from there on: every close
    moves the next handle into the cell that the index then leaves. *)
Lemma delete_loop_post (rest : list rspamd_mmaped_file_t) :
  forall (pre : list rspamd_mmaped_file_t) (w : world) (fuel : nat),
    pool_ok (pool (sys w)) ->
    open_handles (pool (sys w)) = pre ++ rest ->
    (List.length rest < fuel)%nat ->
    exists w' : world,
      delete_loop fuel (Z.of_nat (List.length pre)) w = Ok (tt, w') /\
      pool_ok (pool (sys w')) /\
      open_handles (pool (sys w')) = pre ++ every_second rest /\
      events w' =
        flat_map close_events (rev (every_other rest)) ++ events w.
Proof.
  induction rest as [|a|a b r IH] using list_pair_ind;
    intros pre w fuel Hok Hopen Hfuel;
    (destruct fuel as [|fuel]; [cbn in Hfuel; lia|]);
    pose proof (opened_is_length _ Hok) as Hn; rewrite Hopen in Hn;
    rewrite length_app in Hn; cbn [List.length] in Hn;
    cbn [delete_loop]; unfold bind at 1; destruct w as [s ev];
    unfold in_system at 1, get_pool at 1; cbn [sys events] in *.
  - destruct (Z.ltb_spec (Z.of_nat (List.length pre)) (opened (pool s)));
      [lia|].
    eexists. split; [reflexivity|]. cbn [sys events].
    split; [exact Hok|]. split; [exact Hopen | reflexivity].
  - destruct (Z.ltb_spec (Z.of_nat (List.length pre)) (opened (pool s)));
      [|lia].
    rewrite Nat2Z.id.
    destruct (close_open_handle (List.length pre) false
                {| sys := s; events := ev |} a Hok)
      as (w1 & Hclose & Ho1 & Hh1 & Hok1 & _ & Hev1).
    { cbn [sys]. rewrite Hopen, nth_error_app2, Nat.sub_diag by lia.
      reflexivity. }
    cbn [sys events] in *. rewrite Hopen, without_middle in Hh1.
    unfold bind at 1. rewrite Hclose.
    destruct fuel as [|fuel]; [cbn in Hfuel; lia|].
    cbn [delete_loop]. unfold bind at 1. destruct w1 as [s1 ev1].
    unfold in_system at 1, get_pool at 1. cbn [sys events] in *.
    destruct (Z.ltb_spec (Z.of_nat (List.length pre) + 1) (opened (pool s1)));
      [lia|].
    eexists. split; [reflexivity|]. cbn [sys events].
    split; [exact Hok1|]. split; [exact Hh1|].
    cbn [every_other rev flat_map app]. rewrite Hev1, app_nil_r.
    reflexivity.
  - destruct (Z.ltb_spec (Z.of_nat (List.length pre)) (opened (pool s)));
      [|lia].
    rewrite Nat2Z.id.
    destruct (close_open_handle (List.length pre) false
                {| sys := s; events := ev |} a Hok)
      as (w1 & Hclose & Ho1 & Hh1 & Hok1 & _ & Hev1).
    { cbn [sys]. rewrite Hopen, nth_error_app2, Nat.sub_diag by lia.
      reflexivity. }
    cbn [sys events] in *. rewrite Hopen, without_middle in Hh1.
    unfold bind at 1. rewrite Hclose.
    destruct (IH (pre ++ [b]) w1 fuel Hok1) as (w' & Hloop & Hok' & Hh' & Hev').
    { rewrite Hh1, <- app_assoc. reflexivity. }
    { cbn [List.length] in Hfuel. lia. }
    rewrite length_app in Hloop. cbn [List.length] in Hloop.
    replace (Z.of_nat (List.length pre + 1))
      with (Z.of_nat (List.length pre) + 1) in Hloop by lia.
    exists w'. split; [exact Hloop|]. split; [exact Hok'|].
    split.
    + rewrite Hh', <- app_assoc. reflexivity.
    + rewrite Hev', Hev1. cbn [every_other rev].
      rewrite flat_map_app. cbn [flat_map].
      rewrite app_nil_r, <- app_assoc. reflexivity.
Qed.

Lemma every_second_length {A : Type} (l : list A) :
  (2 * List.length (every_second l) <= List.length l
   <= 2 * List.length (every_second l) + 1)%nat.
Proof.
  induction l as [|a|a b r IH] using list_pair_ind;
    cbn [every_second List.length]; lia.
Qed.

(** X17.  statfile_pool_delete does not close all handles: its loop
    closes the handle in cell [i] for i = 0, 1, 2, ... while [i] is below
    the count of open handles, but every close moves the handles behind
    down by one cell and decrements the count.  In a pool whose open
    handles have names of their own, the handles at the positions
    0, 2, 4, ... are closed, in this order, and those at the positions
    1, 3, 5, ..., half of them rounded down, are left open: never
    flushed, unmapped or closed. *)
Theorem delete_closes_every_second (w : world) :
  pool_ok (pool (sys w)) ->
  exists w' : world,
    statfile_pool_delete w = Ok (tt, w') /\
    open_handles (pool (sys w')) =
      every_second (open_handles (pool (sys w))) /\
    opened (pool (sys w')) = opened (pool (sys w)) / 2 /\
    events w' =
      mempool_deleted
      :: flat_map close_events (rev (every_other (open_handles (pool (sys w)))))
      ++ events w.
Proof.
  intro Hok.
  destruct (delete_loop_post (open_handles (pool (sys w))) [] w
              (S (Z.to_nat (opened (pool (sys w))))) Hok eq_refl)
    as (w' & Hloop & Hok' & Hh' & Hev').
  { rewrite (opened_is_length _ Hok). lia. }
  cbn [List.length app] in *. change (Z.of_nat 0) with 0 in Hloop.
  unfold statfile_pool_delete. unfold bind at 1.
  destruct w as [s ev]. unfold in_system at 1, get_pool at 1.
  cbn [sys events] in *. unfold bind at 1. rewrite Hloop.
  unfold emit. eexists. split; [reflexivity|]. cbn [sys events].
  split; [exact Hh'|]. split; [|now rewrite Hev'].
  rewrite (opened_is_length _ Hok'), (opened_is_length _ Hok), Hh'.
  pose proof (every_second_length (open_handles (pool s))) as Hlen.
  apply Z.div_unique with
    (r := Z.of_nat (List.length (open_handles (pool s)))
          - 2 * Z.of_nat (List.length (every_second (open_handles (pool s)))));
    lia.
Qed.

Lemma delete_closes_every_second_witness :
  exists w' : world,
    statfile_pool_delete five_open = Ok (tt, w') /\
    open_handles (pool (sys w')) =
      every_second (open_handles (pool (sys five_open))) /\
    opened (pool (sys w')) = opened (pool (sys five_open)) / 2 /\
    events w' =
      mempool_deleted
      :: flat_map close_events
           (rev (every_other (open_handles (pool (sys five_open)))))
      ++ events five_open.
Proof.
  apply (delete_closes_every_second five_open). apply five_open_ok.
Defined.

(** ** What is written is there after closing and opening again *)

Lemma image_passes (df : disk_file) (c n : Z) :
  statfile_image df c n -> passes_check df c n.
Proof.
  intros (M0 & M1 & M2 & V0 & V1 & Hc & Hl & Hn & Hfit).
  unfold passes_check. repeat split; try assumption; try layout_lia.
  unfold guint64. rewrite Z.mod_small; layout_lia.
Qed.

Lemma firstn_list_set_last {A : Type} (l : list A) :
  forall (o : nat) (x : A),
    (o < List.length l)%nat ->
    firstn (S o) (list_set l o x) = firstn o l ++ [x].
Proof.
  induction l as [|a l IH]; intros o x Ho; [cbn in Ho; lia|].
  destruct o as [|o]; [reflexivity|].
  cbn [list_set firstn app]. f_equal. apply IH. cbn in Ho. lia.
Qed.

Lemma lfind_none_inv (name : string) (n : nat) :
  forall (l : list rspamd_mmaped_file_t) (k : nat),
    lfind name l n k = None ->
    ~ In name (List.map filename (firstn n l)).
Proof.
  induction n as [|n IH]; intros l k H Hin; [now rewrite firstn_O in Hin|].
  destruct l as [|g l]; [exact Hin|].
  cbn [lfind] in H. unfold cmpstatfile in H.
  destruct (String.eqb_spec name (filename g)) as [E|Hne]; [discriminate|].
  cbn [firstn List.map In] in Hin. destruct Hin as [E|Hin].
  - now destruct Hne.
  - exact (IH l (S k) H Hin).
Qed.

(** The pool with one more handle, of a name that was not open. *)
Lemma pool_ok_one_more (p p' : rspamd_mmaped_file_ctx)
  (file : rspamd_mmaped_file_t) :
  pool_ok p -> (Z.to_nat (opened p) < List.length (files p))%nat ->
  statfile_pool_is_open p (filename file) = None ->
  files p' = list_set (files p) (Z.to_nat (opened p)) file ->
  opened p' = opened p + 1 ->
  pool_ok p' /\ open_handles p' = open_handles p ++ [file].
Proof.
  intros (Hpos & Hroom & Hnd) Hlt Hopen Hfiles Hopened.
  assert (Hh : open_handles p' = open_handles p ++ [file]).
  { unfold open_handles. rewrite Hfiles, Hopened.
    replace (Z.to_nat (opened p + 1)) with (S (Z.to_nat (opened p))) by lia.
    now apply firstn_list_set_last. }
  split; [|exact Hh].
  unfold pool_ok, open_names. rewrite Hh, Hfiles, Hopened, list_set_length.
  split; [lia|]. split; [lia|].
  rewrite map_app. cbn [List.map].
  apply NoDup_app; [exact Hnd | repeat constructor; intros [] |].
  intros a Ha [<-|[]].
  exact (lfind_none_inv _ _ _ _ Hopen Ha).
Qed.

(** The file with the bytes of a mapping given back is still an image of
    a statfile if the mapping differs from it in the blocks of the first
    section and in the used_blocks field only. *)
Lemma write_back_image (df : disk_file) (m : mapping) (c n : Z) :
  statfile_image df c n ->
  (forall x, x < off_used_blocks \/
             off_used_blocks + 8 <= x < sizeof_header + sizeof_section ->
             cells m x = contents df x) ->
  statfile_image (write_back df m) c n.
Proof.
  intros (M0 & M1 & M2 & V0 & V1 & Hc & Hl & Hn & Hfit) Hsame.
  assert (Hload : forall (k : nat) (a : Z),
            a + Z.of_nat k <= off_used_blocks \/
            (off_used_blocks + 8 <= a /\
             a + Z.of_nat k <= sizeof_header + sizeof_section) ->
            load_le k (contents (write_back df m)) a =
            load_le k (contents df) a).
  { intros k a Ha. apply load_le_ext. intros x Hx.
    unfold write_back. cbn [contents].
    destruct ((0 <=? x) && (x <? extent m) && (x <? fsize df));
      [|reflexivity].
    apply Hsame. lia. }
  unfold statfile_image.
  rewrite !Hload
    by (unfold off_magic, off_version, off_section, off_code, off_length;
        simpl Z.of_nat; layout_lia).
  cbn [fsize write_back]. now repeat split.
Qed.

Section Persistence.

Variable convert_statfile_10 :
  rspamd_mmaped_file_t -> option rspamd_mmaped_file_t.

(** X18.  What set has written is read back after the file was closed and
    opened again: open a statfile, set a key to a value through the handle,
    close the handle, open the file again; get on the new handle returns
    the value.  The close gives the bytes of the mapping back to the file,
    and the second open finds a valid statfile. *)
Theorem value_survives_close (path : string) (size size' : Z) (s : system)
  (df : disk_file) (c n h1 h2 t value now : Z) (ev : list event)
  (keep_sorted : bool) :
  pool_ok (pool s) -> pool_has_room (pool s) ->
  statfile_pool_is_open (pool s) path = None ->
  disk s path = Some df -> statfile_image df c n ->
  sizeof_stat_file <= size -> sizeof_stat_file <= size' ->
  is_guint32 h1 -> is_guint32 h2 -> is_guint64 value ->
  exists (idx idx' : nat) (s1 s2 s4 s5 : system) (w3 : world),
    statfile_pool_open convert_statfile_10 path size true s =
      Ok (Some idx, s1) /\
    pool_set_block idx h1 h2 t value s1 = Ok (tt, s2) /\
    statfile_pool_close idx keep_sorted {| sys := s2; events := ev |} =
      Ok (0, w3) /\
    statfile_pool_open convert_statfile_10 path size' true (sys w3) =
      Ok (Some idx', s4) /\
    pool_get_block idx' h1 h2 now s4 = Ok (value, s5).
Proof.
  intros Hok Hroom Hopen Hd Himg Hsize Hsize' H1 H2 Hv.
  set (idx := Z.to_nat (opened (pool s))).
  assert (Hidx : (idx < List.length (files (pool s)))%nat)
    by now destruct Hroom.
  (* the first open *)
  destruct (open_forced_accepts convert_statfile_10 path size s df c n
              Hroom Hopen Hd (image_passes _ _ _ Himg) Hsize)
    as (s1 & Hop1 & Hnth1 & Hfiles1 & Hopened1 & Hdisk1).
  fold idx in Hop1, Hnth1, Hfiles1.
  set (file := opened_handle path df (next_fd s) (clock s) c n) in *.
  set (m := {| cells := contents df; extent := fsize df; probed := [] |}).
  pose proof (opened_handle_valid path df (next_fd s) (clock s) c n Himg)
    as Hvalid.
  fold file m in Hvalid.
  (* set *)
  destruct (set_block_frame file m h1 h2 t value true Hvalid H1 H2 Hv)
    as (file2 & m2 & Hset & Hmap2 & Hex2 & Hseek2 & Hsec2 & _ & Hname2
        & Hframe & _).
  destruct (get_after_set file m h1 h2 t value now true Hvalid H1 H2 Hv)
    as (fa & fb & Hseta & Hget2).
  rewrite Hset in Hseta. injection Hseta as <-.
  assert (Hvalid2 : valid_handle file2 m2).
  { destruct Hvalid as (_ & Hlen & Hseek & Hinside).
    unfold valid_handle. rewrite Hmap2, Hsec2, Hseek2, Hex2. now repeat split. }
  destruct (set_file_ok idx file2 s1) as (s2 & Hsf2 & Hfiles2 & Hopened2 & Hdisk2).
  { rewrite Hfiles1, list_set_length. exact Hidx. }
  assert (Hpsb : pool_set_block idx h1 h2 t value s1 = Ok (tt, s2)).
  { unfold pool_set_block, bind, get_file, lift, statfile_pool_set_block.
    rewrite Hnth1, Hset. exact Hsf2. }
  rewrite Hfiles1, list_set_set in Hfiles2.
  (* the pool before the close *)
  destruct (pool_ok_one_more (pool s) (pool s2) file2 Hok Hidx)
    as (Hok2 & Hh2).
  { rewrite Hname2. exact Hopen. }
  { exact Hfiles2. }
  { congruence. }
  assert (Hcell2 : nth_error (open_handles (pool s2)) idx = Some file2).
  { rewrite Hh2, nth_error_app2; unfold open_handles;
      rewrite length_firstn; [|lia].
    replace (idx - Nat.min (Z.to_nat (opened (pool s)))
                     (List.length (files (pool s))))%nat with O
      by (subst idx; lia).
    reflexivity. }
  (* close *)
  destruct (close_open_handle idx keep_sorted {| sys := s2; events := ev |}
              file2 Hok2 Hcell2)
    as (w3 & Hclose & Hopened3 & Hh3 & Hok3 & Hopen3 & _).
  cbn [sys] in Hopened3, Hh3.
  destruct (open_handle_cell _ _ _ Hcell2) as (Hlt2 & Hnth2).
  destruct (close_pool idx keep_sorted s2 ev file2 Hnth2) as
    (w3' & Hclose' & Hpool3 & _ & Hdisk3 & Hclock3 & Hfd3).
  { unfold statfile_pool_is_open.
    destruct Hok2 as (_ & _ & Hnd2).
    now rewrite (lfind_unique _ _ _ 0 idx file2 Hnd2 Hcell2 eq_refl). }
  { lia. }
  { now destruct Hok2 as (_ & Hroom2 & _). }
  rewrite Hclose in Hclose'. injection Hclose' as <-.
  rewrite Hmap2 in Hdisk3.
  set (df2 := write_back df m2).
  assert (Hd3 : disk (sys w3) path = Some df2).
  { rewrite Hdisk3, Hname2. unfold file. cbn [filename opened_handle].
    rewrite String.eqb_refl, Hdisk2, Hdisk1, Hd. reflexivity. }
  assert (Himg2 : statfile_image df2 c n).
  { apply write_back_image; [exact Himg|].
    intros x Hx. rewrite Hframe; [reflexivity|].
    unfold file. cbn [seek_pos opened_handle]. layout_lia. }
  assert (Hroom3 : pool_has_room (pool (sys w3))).
  { destruct Hroom as ((Hp0 & Hp1) & _).
    unfold pool_has_room. rewrite Hopened3, Hopened2, Hopened1.
    split; [lia|].
    rewrite Hpool3. cbn [files].
    rewrite memmove_cells_length; rewrite Hfiles2, list_set_length; lia. }
  rewrite Hname2 in Hopen3.
  (* the second open *)
  destruct (open_forced_accepts convert_statfile_10 path size' (sys w3) df2
              c n Hroom3 Hopen3 Hd3 (image_passes _ _ _ Himg2) Hsize')
    as (s4 & Hop4 & Hnth4 & Hfiles4 & _).
  set (idx' := Z.to_nat (opened (pool (sys w3)))) in *.
  set (file4 := opened_handle path df2 (next_fd (sys w3)) (clock (sys w3))
                  c n) in *.
  pose proof (opened_handle_valid path df2 (next_fd (sys w3))
                (clock (sys w3)) c n Himg2) as Hvalid4.
  fold file4 in Hvalid4.
  (* get *)
  destruct (get_same_section file2 file4 m2 _ h1 h2 now now Hvalid2 Hvalid4)
    with (v := value) (f1 := fb) as (f5 & Hget4).
  { now rewrite Hseek2. }
  { now rewrite Hsec2. }
  { intros x Hx. cbn [cells]. unfold df2, write_back. cbn [contents].
    destruct Hvalid2 as (_ & _ & Hs & Hin).
    destruct (Z.leb_spec 0 x); [|layout_lia].
    destruct (Z.ltb_spec x (extent m2)); [|lia].
    destruct (Z.ltb_spec x (fsize df)); [reflexivity|].
    rewrite Hex2 in *. cbn [extent m] in *. lia. }
  { exact Hget2. }
  destruct (set_file_ok idx' f5 s4) as (s5 & Hsf5 & _).
  { rewrite Hfiles4, list_set_length. now destruct Hroom3. }
  exists idx, idx', s1, s2, s4, s5, w3.
  split; [exact Hop1|]. split; [exact Hpsb|]. split; [exact Hclose|].
  split; [exact Hop4|].
  unfold pool_get_block, bind, get_file, lift.
  rewrite Hnth4. fold file4. rewrite Hget4. cbn [snd fst].
  rewrite Hsf5. reflexivity.
Qed.

End Persistence.

Lemma statfile_on_disk_ok (df : disk_file) :
  pool_ok (pool (statfile_on_disk df)).
Proof.
  unfold pool_ok, open_names, open_handles. cbn.
  split; [lia|]. split; [lia | constructor].
Defined.

Lemma value_survives_close_witness :
  exists (idx idx' : nat) (s1 s2 s4 s5 : system) (w3 : world),
    statfile_pool_open no_conversion "stat" 400 true
      (statfile_on_disk (fresh_statfile 4 0)) = Ok (Some idx, s1) /\
    pool_set_block idx 8 1 5 double_2_5 s1 = Ok (tt, s2) /\
    statfile_pool_close idx false {| sys := s2; events := [] |} =
      Ok (0, w3) /\
    statfile_pool_open no_conversion "stat" 400 true (sys w3) =
      Ok (Some idx', s4) /\
    pool_get_block idx' 8 1 9 s4 = Ok (double_2_5, s5).
Proof.
  apply (value_survives_close no_conversion "stat" 400 400
           (statfile_on_disk (fresh_statfile 4 0)) (fresh_statfile 4 0)
           STATFILE_SECTION_COMMON 4).
  - apply statfile_on_disk_ok.
  - apply statfile_on_disk_has_room.
  - reflexivity.
  - reflexivity.
  - apply (created_file_image _ 4 0); [apply fresh_statfile_created | lia].
  - unfold sizeof_stat_file. lia.
  - unfold sizeof_stat_file. lia.
  - unfold is_guint32. lia.
  - unfold is_guint32. lia.
  - unfold is_guint64, double_2_5. lia.
Defined.

(** ** Adding a section *)

Lemma add_blocks_post (path : string) (fuel : nat) :
  forall (length pos : Z) (s : system) (df : disk_file),
    disk s path = Some df ->
    0 <= length < 2 ^ 64 -> (Z.to_nat length < fuel)%nat ->
    pos <= fsize df ->
    exists (s' : system) (df' : disk_file),
      add_blocks fuel path length pos s = Ok ((true, 2 ^ 64 - 1), s') /\
      disk_updated s s' path df' /\
      fsize df' = Z.max (fsize df) (pos + sizeof_block * length) /\
      (forall x, x < pos -> contents df' x = contents df x).
Proof.
  induction fuel as [|fuel IH]; intros length pos s df Hd Hn Hfuel Hpos;
    [lia|].
  cbn [add_blocks].
  destruct (Z.eqb_spec length 0) as [E|E].
  - exists s, df. subst length. split; [reflexivity|].
    split; [unfold disk_updated; now repeat split|].
    split; [unfold sizeof_block; lia | reflexivity].
  - destruct (sys_write_post path pos sizeof_block (fun _ => 0) s df Hd)
      as (s1 & Hw & Hu1).
    unfold bind. rewrite Hw.
    assert (Hdec : guint64 (length - 1) = length - 1)
      by (unfold guint64; apply Z.mod_small; lia).
    rewrite Hdec.
    destruct (IH (length - 1) (pos + sizeof_block) s1
                (file_write df pos sizeof_block (fun _ => 0)))
      as (s2 & df2 & Hrec & Hu2 & Hsize & Hlow).
    + now destruct Hu1 as (_ & _ & _ & _ & _ & D & _).
    + lia.
    + lia.
    + cbn [fsize file_write]. lia.
    + exists s2, df2. split; [exact Hrec|].
      split; [exact (disk_updated_trans _ _ _ _ _ _ Hu1 Hu2)|].
      split.
      * rewrite Hsize. cbn [fsize file_write]. unfold sizeof_block. lia.
      * intros x Hx. rewrite Hlow by (unfold sizeof_block; lia).
        cbn [contents file_write].
        destruct (Z.leb_spec pos x); [lia | reflexivity].
Qed.

(** X19.  statfile_pool_add_section appends the section to the file but
    takes a byte from the handle: the header (code, length) and [length]
    blocks are written at the end of the file, which grows by
    16 + 16 * length bytes; the loop [while (length--)] leaves [length] at
    2^64 - 1, so [file->len += length] makes the length of the handle one
    byte less than it was, and the file is mapped again with that length.
    The call returns TRUE; the cursor stays where it was. *)
Theorem add_section_shrinks_handle (file : rspamd_mmaped_file_t)
  (m : mapping) (df : disk_file) (code length : Z) (s : system)
  (ev : list event) :
  map file = Some m -> disk s (filename file) = Some df ->
  0 <= extent m <= fsize df ->
  1 <= len file < 2 ^ 64 ->
  is_guint32 code -> is_guint64 length ->
  exists (w' : world) (file' : rspamd_mmaped_file_t) (m' : mapping)
         (df' : disk_file),
    statfile_pool_add_section file code length {| sys := s; events := ev |} =
      Ok ((true, file'), w') /\
    len file' = len file - 1 /\
    map file' = Some m' /\ extent m' = len file - 1 /\
    seek_pos file' = seek_pos file /\ cur_section file' = cur_section file /\
    disk (sys w') (filename file) = Some df' /\
    fsize df' = fsize df + sizeof_section + sizeof_block * length /\
    load_le 8 (contents df') (fsize df + off_code) = code /\
    load_le 8 (contents df') (fsize df + off_length) = length.
Proof.
  intros Hmap Hd Hext Hlen Hcode Hlength.
  unfold statfile_pool_add_section.
  unfold bind at 1. unfold in_system at 1. unfold sys_stat at 1.
  cbn [sys events]. rewrite Hd. cbn [option_map].
  destruct (sys_write_post (filename file) (fsize df) sizeof_section
              (section_bytes code length) s df Hd) as (s1 & Hw & Hu1).
  unfold bind at 1. unfold in_system at 1. cbn [sys events].
  rewrite Hw. cbn [negb].
  set (df1 := file_write df (fsize df) sizeof_section
                (section_bytes code length)) in *.
  destruct (add_blocks_post (filename file) (S (Z.to_nat length)) length
              (fsize df + sizeof_section) s1 df1)
    as (s2 & df2 & Hadd & Hu2 & Hsize2 & Hlow2).
  { now destruct Hu1 as (_ & _ & _ & _ & _ & D & _). }
  { exact Hlength. }
  { lia. }
  { unfold df1. cbn [fsize file_write]. lia. }
  unfold bind at 1. unfold in_system at 1. cbn [sys events].
  rewrite Hadd. cbn [fst snd negb]. rewrite Hmap.
  assert (Hd2 : disk s2 (filename file) = Some df2)
    by now destruct Hu2 as (_ & _ & _ & _ & _ & D & _).
  assert (Hshrink : guint64 (len file + (2 ^ 64 - 1)) = len file - 1).
  { unfold guint64. symmetry. apply Z.mod_unique with (q := 1); lia. }
  rewrite Hshrink.
  cbv [bind sys_munmap in_system emit ret sys_mmap with_disk].
  cbn [sys events disk pool clock next_fd mlock_allowed log].
  rewrite String.eqb_refl, Hd2. cbn [option_map].
  assert (Hfs : fsize df2 = fsize df + sizeof_section + sizeof_block * length).
  { rewrite Hsize2. unfold df1. cbn [fsize file_write].
    unfold is_guint64 in Hlength. layout_lia. }
  assert (Hsec : forall (k : nat) (o : Z),
            0 <= o -> o + Z.of_nat k <= sizeof_section ->
            load_le k (contents (write_back df2 m)) (fsize df + o) =
            load_le k (section_bytes code length) o).
  { intros k o Ho Hk.
    rewrite <- (load_le_shift k (section_bytes code length) (fsize df) o).
    apply load_le_ext. intros x Hx.
    unfold write_back. cbn [contents].
    destruct (Z.ltb_spec x (extent m)); [lia|].
    rewrite andb_false_r. cbn [andb].
    rewrite Hlow2 by lia. unfold df1. cbn [contents file_write].
    destruct (Z.leb_spec (fsize df) x); [|lia].
    destruct (Z.ltb_spec x (fsize df + sizeof_section)); [reflexivity|lia]. }
  destruct (Z.leb_spec (len file - 1) 0) as [Hone|Hmore].
  - eexists _, _, _, _. split; [reflexivity|].
    cbn [len map seek_pos cur_section set_len_map sys disk].
    rewrite ?String.eqb_refl, ?Hd2. cbn [option_map].
    split; [reflexivity|]. split; [reflexivity|].
    split; [unfold MAP_FAILED; cbn [extent]; lia|].
    split; [reflexivity|]. split; [reflexivity|]. split; [reflexivity|].
    split; [exact Hfs|].
    rewrite !Hsec by (unfold off_code, off_length, sizeof_section;
                      simpl Z.of_nat; lia).
    unfold section_bytes, off_code, off_length, is_guint32, is_guint64 in *.
    rewrite load_store_other by (simpl Z.of_nat; lia).
    rewrite !load_store_same. simpl Z.of_nat.
    change (256 ^ 8) with (2 ^ 64). rewrite !Z.mod_small by lia. now split.
  - eexists _, _, _, _. split; [reflexivity|].
    cbn [len map seek_pos cur_section set_len_map sys disk].
    rewrite ?String.eqb_refl, ?Hd2. cbn [option_map].
    split; [reflexivity|]. split; [reflexivity|]. split; [reflexivity|].
    split; [reflexivity|]. split; [reflexivity|]. split; [reflexivity|].
    split; [exact Hfs|].
    rewrite !Hsec by (unfold off_code, off_length, sizeof_section;
                      simpl Z.of_nat; lia).
    unfold section_bytes, off_code, off_length, is_guint32, is_guint64 in *.
    rewrite load_store_other by (simpl Z.of_nat; lia).
    rewrite !load_store_same. simpl Z.of_nat.
    change (256 ^ 8) with (2 ^ 64). rewrite !Z.mod_small by lia. now split.
Qed.

Lemma add_section_shrinks_handle_witness :
  exists (w' : world) (file' : rspamd_mmaped_file_t) (m' : mapping)
         (df' : disk_file),
    statfile_pool_add_section
      (opened_handle "stat" (fresh_statfile 4 0) 3 9
         STATFILE_SECTION_COMMON 4) 2 3
      {| sys := statfile_on_disk (fresh_statfile 4 0); events := [] |} =
      Ok ((true, file'), w') /\
    len file' =
      len (opened_handle "stat" (fresh_statfile 4 0) 3 9
             STATFILE_SECTION_COMMON 4) - 1 /\
    map file' = Some m' /\
    extent m' =
      len (opened_handle "stat" (fresh_statfile 4 0) 3 9
             STATFILE_SECTION_COMMON 4) - 1 /\
    seek_pos file' =
      seek_pos (opened_handle "stat" (fresh_statfile 4 0) 3 9
                  STATFILE_SECTION_COMMON 4) /\
    cur_section file' =
      cur_section (opened_handle "stat" (fresh_statfile 4 0) 3 9
                     STATFILE_SECTION_COMMON 4) /\
    disk (sys w')
      (filename (opened_handle "stat" (fresh_statfile 4 0) 3 9
                   STATFILE_SECTION_COMMON 4)) = Some df' /\
    fsize df' =
      fsize (fresh_statfile 4 0) + sizeof_section + sizeof_block * 3 /\
    load_le 8 (contents df') (fsize (fresh_statfile 4 0) + off_code) = 2 /\
    load_le 8 (contents df') (fsize (fresh_statfile 4 0) + off_length) = 3.
Proof.
  apply (add_section_shrinks_handle
           (opened_handle "stat" (fresh_statfile 4 0) 3 9
              STATFILE_SECTION_COMMON 4)
           {| cells := contents (fresh_statfile 4 0);
              extent := fsize (fresh_statfile 4 0); probed := [] |}
           (fresh_statfile 4 0) 2 3 (statfile_on_disk (fresh_statfile 4 0))
           []).
  - reflexivity.
  - reflexivity.
  - vm_compute. split; discriminate.
  - vm_compute. split; [discriminate | reflexivity].
  - unfold is_guint32. lia.
  - unfold is_guint64. lia.
Defined.

(** ** Handles by symbol *)

Section BySymbol.

Variable convert_statfile_10 :
  rspamd_mmaped_file_t -> option rspamd_mmaped_file_t.

Lemma open_missing (name : string) (sz : Z) (forced : bool) (s : system) :
  disk s name = None ->
  statfile_pool_is_open (pool s) name = None ->
  opened (pool s) < STATFILES_MAX - 1 ->
  statfile_pool_open convert_statfile_10 name sz forced s =
    Ok (None, {| pool := pool s; disk := disk s; clock := clock s;
                 next_fd := next_fd s; mlock_allowed := mlock_allowed s;
                 log := cannot_stat :: log s |}).
Proof.
  intros Hd Hopen Hfew.
  unfold statfile_pool_open, statfile_pool_open_with, bind, get_pool.
  rewrite Hopen.
  destruct (Z.geb_spec (opened (pool s)) (STATFILES_MAX - 1)); [lia|].
  unfold open_stat_and_map, bind, sys_stat. rewrite Hd. reflexivity.
Qed.

(** X20.  get_statfile_by_symbol with try_create makes the statfile of a
    symbol where there is none: for the first configuration with the
    symbol, whose file is neither open nor on disk, the first open fails,
    the file is created with the configured size and opened without a
    reindex, and the handle returned, in the next free cell, is that of
    an empty statfile of (size - 288 - 16) / 16 blocks; the out-parameter
    holds the configuration. *)
Theorem by_symbol_creates (statfiles : list rspamd_statfile_config)
  (sym : string) (st : option rspamd_statfile_config)
  (c : rspamd_statfile_config) (s : system) (ev : list event) :
  find_symbol sym statfiles st = Some c ->
  disk s (path c) = None ->
  statfile_pool_is_open (pool s) (path c) = None ->
  pool_has_room (pool s) ->
  sizeof_stat_file <= size c < 2 ^ 36 + sizeof_header + sizeof_section ->
  exists (w' : world) (df : disk_file),
    get_statfile_by_symbol convert_statfile_10 (Some statfiles) (Some sym)
      st true {| sys := s; events := ev |} =
      Ok ((Some (Z.to_nat (opened (pool s))), Some c), w') /\
    nth_error (files (pool (sys w'))) (Z.to_nat (opened (pool s))) =
      Some (opened_handle (path c) df (next_fd s) (clock s)
              STATFILE_SECTION_COMMON
              ((size c - sizeof_header - sizeof_section) / sizeof_block)) /\
    created_file df
      ((size c - sizeof_header - sizeof_section) / sizeof_block) (clock s) /\
    disk (sys w') (path c) = Some df /\
    opened (pool (sys w')) = opened (pool s) + 1 /\
    events w' = cannot_open_statfile (path c) :: ev.
Proof.
  intros Hfind Hd Hopen Hroom Hsize.
  unfold get_statfile_by_symbol. rewrite Hfind.
  unfold bind at 1. unfold in_system at 1, get_pool at 1.
  cbn [sys events]. rewrite Hopen.
  unfold bind at 1. unfold in_system at 1. cbn [sys events].
  rewrite (open_missing (path c) (size c) false s Hd Hopen)
    by now destruct Hroom as [[_ H] _].
  set (s0 := {| pool := pool s; disk := disk s; clock := clock s;
                next_fd := next_fd s; mlock_allowed := mlock_allowed s;
                log := cannot_stat :: log s |}).
  destruct (create_then_open convert_statfile_10 (path c) (size c) s0
              Hopen Hroom Hsize)
    as (Hn & s1 & s2 & df & Hcr & Hup & Hfile & Hop & Hfiles & Hopened & Hdisk).
  cbn [pool clock next_fd s0] in Hop, Hfiles, Hopened, Hfile.
  unfold bind at 1. unfold emit at 1. cbn [sys events].
  unfold bind at 1. unfold in_system at 1. cbn [sys events].
  rewrite Hcr. change (0 =? -1) with false. cbv beta iota.
  unfold bind at 1. unfold in_system at 1. cbn [sys events].
  rewrite Hop. unfold ret.
  eexists _, df. split; [reflexivity|]. cbn [sys events].
  split; [rewrite Hfiles; apply list_set_same; now destruct Hroom|].
  split; [exact Hfile|].
  split; [rewrite Hdisk; exact (disk_updated_file _ _ _ _ Hup)|].
  split; [exact Hopened | reflexivity].
Qed.

End BySymbol.

Lemma by_symbol_creates_witness :
  exists (w' : world) (df : disk_file),
    get_statfile_by_symbol no_conversion (Some [ham_config; spam_config])
      (Some (symbol spam_config)) None true
      {| sys := boot 0; events := [] |} =
      Ok ((Some (Z.to_nat (opened (pool (boot 0)))), Some spam_config), w') /\
    nth_error (files (pool (sys w'))) (Z.to_nat (opened (pool (boot 0)))) =
      Some (opened_handle (path spam_config) df (next_fd (boot 0))
              (clock (boot 0)) STATFILE_SECTION_COMMON
              ((size spam_config - sizeof_header - sizeof_section)
               / sizeof_block)) /\
    created_file df
      ((size spam_config - sizeof_header - sizeof_section) / sizeof_block)
      (clock (boot 0)) /\
    disk (sys w') (path spam_config) = Some df /\
    opened (pool (sys w')) = opened (pool (boot 0)) + 1 /\
    events w' = cannot_open_statfile (path spam_config) :: [].
Proof.
  apply (by_symbol_creates no_conversion [ham_config; spam_config]
           (symbol spam_config) None spam_config (boot 0) []).
  - reflexivity.
  - reflexivity.
  - reflexivity.
  - apply boot_has_room. unfold STATFILES_MAX. lia.
  - cbn [size spam_config].
    unfold sizeof_stat_file, sizeof_header, sizeof_section. lia.
Defined.

(** ** The file that a reindex leaves *)

Lemma set_revision_cells (file : rspamd_mmaped_file_t) (m : mapping)
  (rev time : Z) :
  map file = Some m -> off_rev_time + 8 <= extent m ->
  statfile_set_revision (Some file) rev time =
    Ok (true,
        Some (set_map file
                (Some {| cells := store_le 8 (store_le 8 (cells m)
                                                off_revision rev)
                                    off_rev_time (guint64 time);
                         extent := extent m; probed := probed m |}))).
Proof.
  intros Hmap Hext. unfold statfile_set_revision. rewrite Hmap.
  unfold bind, store_u64, off_revision, off_rev_time in *.
  rewrite store_ok by (simpl Z.of_nat; lia).
  rewrite store_ok by (cbn [extent]; simpl Z.of_nat; lia).
  reflexivity.
Qed.

(** The count of used blocks stays exact when bytes of the header before
    the used_blocks field change. *)
Lemma count_after_header_change (file : rspamd_mmaped_file_t)
  (m m' : mapping) :
  valid_handle file m -> used_blocks_exact file m ->
  extent m' = extent m ->
  (forall x, off_used_blocks <= x -> cells m' x = cells m x) ->
  used_blocks_exact (set_map file (Some m')) m'.
Proof.
  intros Hvalid Hexact Hex Hsame.
  pose proof Hvalid as (Hmap & Hlen & Hseek & Hin).
  unfold used_blocks_exact in *.
  rewrite (get_used_blocks_ok file m) in Hexact by (assumption || layout_lia).
  rewrite (get_used_blocks_ok _ m') by (reflexivity || layout_lia).
  cbn [seek_pos cur_section set_map].
  assert (Hused : load_le 8 (cells m) off_used_blocks =
                  occupied_blocks (cells m) (seek_pos file)
                    (Z.to_nat (length (cur_section file)))) by congruence.
  f_equal.
  rewrite (load_le_ext 8 (cells m') (cells m))
    by (intros x Hx; apply Hsame; lia).
  rewrite Hused. symmetry. apply occupied_blocks_same.
  intros j Hj. unfold key_eqb, hash1_at, hash2_at.
  rewrite !(load_le_ext 4 (cells m') (cells m));
    (reflexivity || (intros x Hx; apply Hsame;
                     unfold off_hash1, off_hash2, sizeof_block in *;
                     layout_lia)).
Qed.

(** The copy loop keeps the handle valid and the count of used blocks
    exact: every key it inserts has a non-zero hash1. *)
Lemma reindex_copy_count (old : mapping) (old_size : Z) (fuel : nat) :
  extent old = old_size -> old_size < 2 ^ 63 ->
  forall (pos : Z) (new : rspamd_mmaped_file_t) (m : mapping),
    valid_handle new m -> used_blocks_exact new m ->
    0 <= pos <= old_size ->
    old_size - pos < 8 * Z.of_nat fuel ->
    exists (new' : rspamd_mmaped_file_t) (m' : mapping),
      reindex_copy fuel old old_size pos new = Ok new' /\
      valid_handle new' m' /\ used_blocks_exact new' m' /\
      extent m' = extent m /\ seek_pos new' = seek_pos new /\
      cur_section new' = cur_section new.
Proof.
  intros Hext Hbig.
  induction fuel as [|fuel IH]; intros pos new m Hvalid Hexact Hpos Hfuel;
    [lia|].
  cbn [reindex_copy].
  unfold guint64. rewrite Z.mod_small by lia.
  destruct (Z.geb_spec (old_size - pos) sizeof_block) as [Hge|Hlt].
  - unfold bind, load_u32, load_u64.
    unfold sizeof_block, sizeof_block_ptr, off_hash1, off_hash2, off_value
      in *.
    rewrite !load_ok by (simpl Z.of_nat; lia).
    set (h1 := load_le 4 (cells old) (pos + 0)).
    set (h2 := load_le 4 (cells old) (pos + 4)).
    set (v := load_le 8 (cells old) (pos + 8)).
    assert (H1 : is_guint32 h1) by apply (load_le_range 4).
    assert (H2 : is_guint32 h2) by apply (load_le_range 4).
    assert (Hv : is_guint64 v) by apply (load_le_range 8).
    unfold ret.
    destruct (Z.eqb_spec h1 0) as [E|Hnz]; cbn [negb andb].
    + apply (IH (pos + 8) new m Hvalid Hexact); lia.
    + destruct (double_ne v 0).
      * destruct (set_keeps_count new m h1 h2 0 v false Hvalid H1 H2 Hv)
          as (new1 & m1 & Hset & Hvalid1 & Hexact1); [congruence|exact Hexact|].
        destruct (set_block_frame new m h1 h2 0 v false Hvalid H1 H2 Hv)
          as (new1' & m1' & Hset' & Hmap1 & Hex1 & Hseek1 & Hsec1 & _).
        rewrite Hset in Hset'. injection Hset' as <-.
        assert (m1' = m1) as ->
          by (destruct Hvalid1 as (E1 & _); congruence).
        rewrite Hset.
        destruct (IH (pos + 8) new1 m1 Hvalid1 Hexact1)
          as (new' & m' & Hrec & Hvalid' & Hexact' & Hex' & Hseek' & Hsec');
          [lia | lia |].
        exists new', m'. split; [exact Hrec|].
        split; [exact Hvalid'|]. split; [exact Hexact'|].
        repeat split; congruence.
      * apply (IH (pos + 8) new m Hvalid Hexact); lia.
  - exists new, m. split; [reflexivity|]. split; [exact Hvalid|].
    split; [exact Hexact|]. now split.
Qed.

Section Reindexed.

Variable convert_statfile_10 :
  rspamd_mmaped_file_t -> option rspamd_mmaped_file_t.

(** X21.  The file that a reindex leaves: rspamd_mmaped_file_reindex of a
    file that is not open, to a size that gives at least one block, in a
    pool with room, returns a valid handle in the next free cell, with the
    number of blocks of the new size, on which used_blocks equals the
    number of occupied blocks, whatever the old file held; the backup is
    removed from the disk and the pool has one handle more. *)
Theorem reindex_leaves_counted_file (path : string) (old_size size : Z)
  (s : system) (old_df : disk_file) :
  disk s path = Some old_df ->
  statfile_pool_is_open (pool s) path = None ->
  pool_has_room (pool s) ->
  sizeof_header + sizeof_section <= old_size < 2 ^ 63 ->
  sizeof_stat_file <= size ->
  guint ((size - sizeof_header - sizeof_section) / sizeof_block) <> 0 ->
  exists (s' : system) (file : rspamd_mmaped_file_t) (m : mapping),
    rspamd_mmaped_file_reindex convert_statfile_10 path old_size size s =
      Ok (Some (Z.to_nat (opened (pool s))), s') /\
    nth_error (files (pool s')) (Z.to_nat (opened (pool s))) = Some file /\
    valid_handle file m /\
    length (cur_section file) =
      guint ((size - sizeof_header - sizeof_section) / sizeof_block) /\
    used_blocks_exact file m /\
    opened (pool s') = opened (pool s) + 1 /\
    disk s' (path ++ BACKUP_SUFFIX)%string = None.
Proof.
  intros Hd Hopen Hroom Hold Hsize Hblocks.
  pose proof (backup_name_differs path) as Hneq.
  set (backup := (path ++ BACKUP_SUFFIX)%string) in *.
  unfold rspamd_mmaped_file_reindex. fold backup.
  destruct (Z.ltb_spec size (sizeof_header + sizeof_section + sizeof_block_ptr))
    as [Hsmall|_];
    [layout_lia|].
  (* rename *)
  unfold bind at 1. unfold sys_rename at 1. rewrite Hd.
  cbv beta iota. cbn [negb]. unfold bind at 1.
  match goal with
  | |- context [statfile_pool_create path size ?st] => set (s1 := st)
  end.
  assert (Hb1 : disk s1 backup = Some old_df)
    by (subst s1; cbn; now rewrite String.eqb_refl).
  (* create *)
  destruct (create_post path size s1) as (s2 & df & Hcr & Hup & Hfile).
  { exact Hopen. }
  { layout_lia. }
  rewrite Hcr. cbv beta iota. cbn [Z.eqb negb].
  destruct Hup as (Hp2 & _ & _ & _ & _ & Hd2 & Ho2).
  assert (Hb2 : disk s2 backup = Some old_df) by (rewrite Ho2; assumption).
  (* open of the backup *)
  unfold bind at 1. unfold sys_open at 1. rewrite Hb2.
  cbv beta iota. unfold bind at 1.
  match goal with
  | |- context [statfile_pool_open_forced _ path size ?st] => set (s3 := st)
  end.
  (* open of the new file *)
  set (n := guint ((size - sizeof_header - sizeof_section) / sizeof_block))
    in *.
  assert (Hn : 0 < n < 2 ^ 32).
  { pose proof (Z.mod_pos_bound
                  ((size - sizeof_header - sizeof_section) / sizeof_block)
                  (2 ^ 32) ltac:(lia)) as Hb.
    fold (guint ((size - sizeof_header - sizeof_section) / sizeof_block))
      in Hb. fold n in Hb. lia. }
  pose proof (created_file_image df n (clock s1) Hfile Hn) as Himg.
  assert (Hp3 : pool s3 = pool s) by (subst s3; cbn [pool]; exact Hp2).
  assert (Hd3 : disk s3 path = Some df) by (subst s3; cbn [disk]; exact Hd2).
  rewrite (open_forced_decision convert_statfile_10 path size s3 df);
    cycle 1.
  { rewrite Hp3. exact Hopen. }
  { rewrite Hp3. now destruct Hroom as [[_ H] _]. }
  { exact Hd3. }
  { lia. }
  destruct (open_mapped_post convert_statfile_10 path s3 df
              STATFILE_SECTION_COMMON n)
    as (s4 & Hom & Hfiles4 & Hop4 & Hd4 & _).
  { rewrite Hp3. exact Hroom. }
  { rewrite Hp3. exact Hopen. }
  { exact Hd3. }
  { exact Himg. }
  rewrite Hom. cbv beta iota. rewrite Hp3 in *.
  set (idx := Z.to_nat (opened (pool s))) in *.
  assert (Hidx : (idx < List.length (files (pool s)))%nat)
    by now destruct Hroom.
  (* mapping of the backup *)
  unfold bind at 1. unfold sys_mmap at 1.
  assert (Hb4 : disk s4 backup = Some old_df) by (rewrite Hd4; exact Hb2).
  rewrite Hb4.
  destruct (Z.leb_spec old_size 0) as [Hle|_];
    [unfold sizeof_header, sizeof_section in Hold; lia|].
  set (old := {| cells := contents old_df; extent := old_size;
                 probed := [] |}).
  (* the handle *)
  unfold bind at 1. unfold get_file at 1.
  rewrite Hfiles4, list_set_same by exact Hidx.
  (* the copy loop *)
  set (new := opened_handle path df (next_fd s3) (clock s3)
                STATFILE_SECTION_COMMON n).
  set (m0 := {| cells := contents df; extent := fsize df; probed := [] |}).
  assert (Hvalid0 : valid_handle new m0) by now apply opened_handle_valid.
  assert (Hexact0 : used_blocks_exact new m0).
  { pose proof Hfile as (Hfs & _ & _ & Hzero).
    unfold used_blocks_exact.
    rewrite (get_used_blocks_ok new m0); [|reflexivity|].
    - cbn [cells m0].
      rewrite (created_file_used_blocks df n (clock s1) Hfile).
      f_equal. symmetry. apply occupied_blocks_zero.
      intros x Hx. apply Hzero. cbn [seek_pos new opened_handle] in Hx.
      layout_lia.
    - cbn [extent m0]. rewrite Hfs. layout_lia. }
  destruct (reindex_copy_count old old_size (Z.to_nat old_size) eq_refl
              ltac:(lia) (sizeof_stat_file - sizeof_block) new m0
              Hvalid0 Hexact0)
    as (new' & m' & Hcopy & Hvalid' & Hexact' & Hex' & Hseek' & Hsec').
  { layout_lia. }
  { layout_lia. }
  unfold bind at 1. unfold lift at 1. rewrite Hcopy.
  destruct (set_file_ok idx new' s4) as (s5 & Hsf5 & Hfiles5 & Hop5 & Hd5).
  { rewrite Hfiles4, list_set_length. exact Hidx. }
  unfold bind at 1. rewrite Hsf5.
  (* the revision *)
  unfold bind at 1. unfold peek at 1. unfold load_u64 at 1.
  rewrite load_ok
    by (cbn [extent old]; unfold off_revision, sizeof_header,
          sizeof_section in *; simpl Z.of_nat; lia).
  unfold bind at 1. unfold peek at 1. unfold load_u64 at 1.
  rewrite load_ok
    by (cbn [extent old]; unfold off_rev_time, sizeof_header,
          sizeof_section in *; simpl Z.of_nat; lia).
  cbn [cells old].
  pose proof Hvalid' as (Hmap' & Hlen' & Hseekv & Hext').
  rewrite (set_revision_cells new' m' _ _ Hmap') by layout_lia.
  unfold bind at 1. unfold lift at 1. cbn [snd].
  match goal with
  | |- context [set_file idx (set_map new' (Some ?mm))] => set (m2 := mm)
  end.
  destruct (set_file_ok idx (set_map new' (Some m2)) s5)
    as (s6 & Hsf6 & Hfiles6 & Hop6 & Hd6).
  { rewrite Hfiles5, Hfiles4, !list_set_length. exact Hidx. }
  unfold bind at 1. rewrite Hsf6.
  unfold bind at 1. unfold sys_unlink at 1. unfold ret.
  eexists _, (set_map new' (Some m2)), m2.
  split; [reflexivity|]. cbn [pool disk with_disk].
  split.
  { rewrite Hfiles6. apply list_set_same.
    rewrite Hfiles5, Hfiles4, !list_set_length. exact Hidx. }
  split; [apply valid_handle_set_map with (m := m'); [exact Hvalid'|reflexivity]|].
  split; [cbn [cur_section set_map]; now rewrite Hsec'|].
  split.
  { apply (count_after_header_change new' m' m2 Hvalid' Hexact');
      [reflexivity|].
    intros x Hx. subst m2. cbn [cells].
    rewrite !store_le_outside
      by (unfold off_revision, off_rev_time, off_used_blocks in *;
          simpl Z.of_nat; lia).
    reflexivity. }
  split; [congruence|].
  now rewrite String.eqb_refl.
Qed.

End Reindexed.

Lemma reindex_leaves_counted_file_witness :
  exists (s' : system) (file : rspamd_mmaped_file_t) (m : mapping),
    rspamd_mmaped_file_reindex no_conversion "stat" 336 2000
      old_statfile_on_disk =
      Ok (Some (Z.to_nat (opened (pool old_statfile_on_disk))), s') /\
    nth_error (files (pool s'))
      (Z.to_nat (opened (pool old_statfile_on_disk))) = Some file /\
    valid_handle file m /\
    length (cur_section file) =
      guint ((2000 - sizeof_header - sizeof_section) / sizeof_block) /\
    used_blocks_exact file m /\
    opened (pool s') = opened (pool old_statfile_on_disk) + 1 /\
    disk s' ("stat" ++ BACKUP_SUFFIX)%string = None.
Proof.
  apply (reindex_leaves_counted_file no_conversion "stat" 336 2000
           old_statfile_on_disk old_statfile).
  - reflexivity.
  - reflexivity.
  - unfold pool_has_room, old_statfile_on_disk, STATFILES_MAX.
    cbn [pool opened files]. split; [lia|].
    rewrite repeat_length. vm_compute. lia.
  - unfold sizeof_header, sizeof_section. lia.
  - unfold sizeof_stat_file. lia.
  - vm_compute. discriminate.
Defined.
